(** * Retrieval engine of the RAG conversational agent

  A shallow embedding of [chunker.py] (the chunk segmenter),
  [retriever.py] (index lifecycle, lexical and vector search, reciprocal
  rank fusion), of the chunk assembly of [app.py]'s [upload], of
  [chat_agent.py] (the conversational agent) and of the ingestion and
  start-up of [main.py], with the properties of the retrieval engine stated
  and settled over it.

  Conventions of the embedding.
  - Python [int] is [Z]; [str] is [string], read as a sequence of ASCII
    characters (a character above 127 is neither a space, a digit nor a word
    character).
  - Python [float] is IEEE 754 binary64, with the operations of the
    standard library's specification of binary floating point; an [int]
    that meets a [float] in a score is the float of the same value.
  - A [dict] whose iteration order matters is an association list in
    insertion order; the persistent vector store is a finite map from
    collection names to collections.
  - An exception is a value [Raise e] of the result type; the state
    reached when it was raised is returned with it.
  - The embedding service, the distance of the vector store, the scoring
    function of the BM25 library, [np.argsort] and the chat model are
    parameters. *)

From Stdlib Require Import ZArith String Ascii List Bool Lia.
From Stdlib Require Import DecimalString DecimalZ Sorted Permutation.
From Stdlib Require Import SpecFloat.
From stdpp Require Import base option list gmap strings.
Import ListNotations.

Local Open Scope string_scope.
Local Open Scope Z_scope.

(** ** Python string primitives *)

Module Py.

Definition code (c : ascii) : N := N_of_ascii c.

(** [str.isspace] on ASCII: TAB..CR, FS..US and SPACE. *)
Definition is_space (c : ascii) : bool :=
  let n := code c in
  ((9 <=? n) && (n <=? 13) || (28 <=? n) && (n <=? 32))%N.

Definition is_digit (c : ascii) : bool :=
  let n := code c in ((48 <=? n) && (n <=? 57))%N.

Definition is_upper (c : ascii) : bool :=
  let n := code c in ((65 <=? n) && (n <=? 90))%N.

Definition is_lower (c : ascii) : bool :=
  let n := code c in ((97 <=? n) && (n <=? 122))%N.

(** The class [\w] on ASCII: letters, digits and the underscore. *)
Definition is_word (c : ascii) : bool :=
  is_upper c || is_lower c || is_digit c || (code c =? 95)%N.

Definition to_lower (c : ascii) : ascii :=
  if is_upper c then ascii_of_N (code c + 32) else c.

Definition chars (s : string) : list ascii := list_ascii_of_string s.
Definition str (l : list ascii) : string := string_of_list_ascii l.

(** [len(s)] *)
Definition len (s : string) : Z := Z.of_nat (String.length s).

(** [s.lower()] *)
Definition lower (s : string) : string := str (map to_lower (chars s)).

Fixpoint lstrip_chars (l : list ascii) : list ascii :=
  match l with
  | c :: rest => if is_space c then lstrip_chars rest else l
  | [] => []
  end.

(** [s.strip()] *)
Definition strip (s : string) : string :=
  str (rev (lstrip_chars (rev (lstrip_chars (chars s))))).

(** [s.split()]: the maximal runs of non-space characters.  The first
    component is the run under construction. *)
Fixpoint split_runs (l : list ascii) : list ascii * list (list ascii) :=
  match l with
  | [] => ([], [])
  | c :: rest =>
      let '(w, ws) := split_runs rest in
      if is_space c
      then ([], match w with [] => ws | _ => w :: ws end)
      else (c :: w, ws)
  end.

Definition split (s : string) : list string :=
  let '(w, ws) := split_runs (chars s) in
  map str (match w with [] => ws | _ => w :: ws end).

(** [sep.join(l)] *)
Fixpoint join (sep : string) (l : list string) : string :=
  match l with
  | [] => ""
  | [x] => x
  | x :: rest => x ++ sep ++ join sep rest
  end.

Fixpoint starts_with (p l : list ascii) : bool :=
  match p, l with
  | [], _ => true
  | a :: p', b :: l' => Ascii.eqb a b && starts_with p' l'
  | _ :: _, [] => false
  end.

(** [s.replace(old, new)] for a non-empty [old]: occurrences are replaced
    from the left and do not overlap; [skip] counts the characters of an
    occurrence still to be passed over. *)
Fixpoint replace_chars (old new : list ascii) (skip : nat) (l : list ascii)
  : list ascii :=
  match l with
  | [] => []
  | c :: rest =>
      match skip with
      | S k => replace_chars old new k rest
      | O =>
          if starts_with old l
          then new ++ replace_chars old new (pred (length old)) rest
          else c :: replace_chars old new O rest
      end
  end.

Definition replace (old new s : string) : string :=
  str (replace_chars (chars old) (chars new) O (chars s)).

(** [str(n)] and the [f"{n}"] of an integer. *)
Definition str_of_int (n : Z) : string := NilZero.string_of_int (Z.to_int n).

(** [s[:n]] for [0 <= n]. *)
Definition take (n : nat) (s : string) : string := String.substring 0 n s.

End Py.

(** ** Python floats *)

Module Float.

(** A [float] is a binary64 number: 53 bits of precision, exponents up to
    1024. *)
Definition float : Type := spec_float.

Definition prec : Z := 53.
Definition emax : Z := 1024.

Definition zero : float := S754_zero false.

(** [float(n)] *)
Definition of_Z (n : Z) : float := binary_normalize prec emax n 0 false.

(** The float nearest to [n / d] (ties to even), negated when [negative]. *)
Definition nearest (negative : bool) (n d : positive) : float :=
  let '(m, e, l) := SFdiv_core_binary prec emax (Zpos n) 0 (Zpos d) 0 in
  binary_round_aux prec emax negative m e l.

(** The float a decimal literal denotes: [0.6] is [ratio 6 10]. *)
Definition ratio (n : Z) (d : positive) : float :=
  match n with
  | Z0 => zero
  | Zpos p => nearest false p d
  | Zneg p => nearest true p d
  end.

Definition add : float -> float -> float := SFadd prec emax.
Definition sub : float -> float -> float := SFsub prec emax.
Definition mul : float -> float -> float := SFmul prec emax.
Definition div : float -> float -> float := SFdiv prec emax.

(** [x < y] and [x == y]; both are [False] when either side is [nan]. *)
Definition ltb : float -> float -> bool := SFltb.
Definition eqb : float -> float -> bool := SFeqb.

Definition is_nan (x : float) : bool :=
  match x with S754_nan => true | _ => false end.

(** [n / d] rounded to the nearest integer, halves to the even one, for
    [0 <= n] and [0 < d]. *)
Definition round_half_even (n d : Z) : Z :=
  let q := n / d in
  match 2 * (n mod d) ?= d with
  | Lt => q
  | Gt => q + 1
  | Eq => if Z.even q then q else q + 1
  end.

(** [round(x, 4)]: the exact value of [x] is rounded to four decimals,
    halves to the even one, and the float nearest to that decimal is
    returned; zeros, infinities and [nan] are returned as they are. *)
Definition round4 (x : float) : float :=
  match x with
  | S754_finite s m e =>
      let n :=
        if 0 <=? e then Zpos m * 2 ^ e * 10000
        else round_half_even (Zpos m * 10000) (2 ^ (- e)) in
      match n with
      | Zpos p => nearest s p 10000
      | _ => S754_zero s
      end
  | _ => x
  end.

(** Where a number stands in the order of [<]: the sign class, then the
    exponent and the mantissa, both negated below zero. *)
Definition order_key (x : float) : Z * Z * Z :=
  match x with
  | S754_zero _ => (0, 0, 0)
  | S754_nan => (0, 0, 0)
  | S754_infinity s => (if s then -2 else 2, 0, 0)
  | S754_finite s m e => if s then (-1, - e, - Zpos m) else (1, e, Zpos m)
  end.

Definition key_lt (a b : Z * Z * Z) : Prop :=
  let '(a1, a2, a3) := a in
  let '(b1, b2, b3) := b in
  a1 < b1 \/ (a1 = b1 /\ (a2 < b2 \/ (a2 = b2 /\ a3 < b3))).

End Float.

Declare Scope float_scope.
Delimit Scope float_scope with float.
Infix "+" := Float.add : float_scope.
Infix "-" := Float.sub : float_scope.
Infix "*" := Float.mul : float_scope.
Infix "/" := Float.div : float_scope.
Infix "<?" := Float.ltb : float_scope.
Infix "=?" := Float.eqb : float_scope.
Abbreviation float := Float.float.


(** ** The chunk segmenter ([chunker.py]) *)

Module Chunker.

(** The [TextChunker] object.  [tokenizer] is the [tiktoken] encoding, or
    [None] when loading it failed; only the number of tokens it produces is
    ever used. *)
Record TextChunker := {
  chunk_size : Z;
  chunk_overlap : Z;
  min_chunk_size : Z;
  tokenizer : option (string -> list Z)
}.

(** A page dictionary as produced by the document reader. *)
Record Page := {
  page_page_num : Z;
  page_text : string;
  has_tables : bool
}.

(** A chunk dictionary.  [source_file] is the key [upload] adds when
    several files are merged. *)
Record Chunk := {
  chunk_id : Z;
  page_num : Z;
  text : string;
  token_count : Z;
  citation : string;
  source_file : option string
}.

Definition count_tokens (self : TextChunker) (text : string) : Z :=
  match tokenizer self with
  | Some encode => Z.of_nat (length (encode text))
  | None => Z.of_nat (length (Py.split text))
  end.

(** *** [split_into_sentences] *)

Definition abbreviations : list string :=
  ["Mr"; "Mrs"; "Ms"; "Dr"; "Prof"; "Inc"; "Ltd"; "Corp"; "vs"; "etc";
   "e.g"; "i.e"; "Rs"; "Cr"; "Mn"; "Bn"].

(** The first alternative of the abbreviation pattern that, followed by a
    period, starts [l]. *)
Definition match_abbreviation (l : list ascii) : option (list ascii) :=
  List.find (fun a => Py.starts_with (a ++ Py.chars ".") l)
            (map Py.chars abbreviations).

(** [re.sub(r'(\b(?:Mr|...|Bn))\.', r'\1<PERIOD>', text)].  [prev_word]
    tells whether the previous character is a word character, [skip] how
    many characters of the current match remain. *)
Fixpoint protect_abbreviations (skip : nat) (prev_word : bool)
         (l : list ascii) : list ascii :=
  match l with
  | [] => []
  | c :: rest =>
      match skip with
      | S k => protect_abbreviations k (Py.is_word c) rest
      | O =>
          match (if prev_word then None else match_abbreviation l) with
          | Some a =>
              a ++ Py.chars "<PERIOD>"
                ++ protect_abbreviations (length a) (Py.is_word c) rest
          | None => c :: protect_abbreviations O (Py.is_word c) rest
          end
      end
  end.

Fixpoint digit_run (l : list ascii) : list ascii :=
  match l with
  | c :: rest => if Py.is_digit c then c :: digit_run rest else []
  | [] => []
  end.

(** A match of [(\d+)\.(\d+)] at the head of [l]: both digit groups. *)
Definition match_decimal (l : list ascii)
  : option (list ascii * list ascii) :=
  let d1 := digit_run l in
  match d1, drop (length d1) l with
  | _ :: _, dot :: after =>
      if Ascii.eqb dot "."%char then
        match digit_run after with
        | [] => None
        | d2 => Some (d1, d2)
        end
      else None
  | _, _ => None
  end.

(** [re.sub(r'(\d+)\.(\d+)', r'\1<DECIMAL>\2', text)] *)
Fixpoint protect_decimals (skip : nat) (l : list ascii) : list ascii :=
  match l with
  | [] => []
  | c :: rest =>
      match skip with
      | S k => protect_decimals k rest
      | O =>
          match match_decimal l with
          | Some (d1, d2) =>
              d1 ++ Py.chars "<DECIMAL>" ++ d2
                 ++ protect_decimals (length d1 + length d2)%nat rest
          | None => c :: protect_decimals O rest
          end
      end
  end.

Definition is_sentence_end (c : ascii) : bool :=
  Ascii.eqb c "."%char || Ascii.eqb c "!"%char || Ascii.eqb c "?"%char.

(** [re.split(r'(?<=[.!?])\s+', text)]: the piece under construction and
    the pieces after it.  [prev_end] tells whether the previous character
    ends a sentence, [in_sep] whether a separator is being read. *)
Fixpoint split_sentence_pieces (prev_end in_sep : bool) (l : list ascii)
  : list ascii * list (list ascii) :=
  match l with
  | [] => ([], [])
  | c :: rest =>
      if Py.is_space c && in_sep then split_sentence_pieces false true rest
      else if Py.is_space c && prev_end then
        let '(p, ps) := split_sentence_pieces false true rest in
        ([], p :: ps)
      else
        let '(p, ps) := split_sentence_pieces (is_sentence_end c) false rest in
        (c :: p, ps)
  end.

Definition split_into_sentences (text : string) : list string :=
  let text := protect_abbreviations O false (Py.chars text) in
  let text := protect_decimals O text in
  let '(p, ps) := split_sentence_pieces false false text in
  let sentences := map Py.str (p :: ps) in
  let sentences :=
    map (fun s => Py.replace "<DECIMAL>" "." (Py.replace "<PERIOD>" "." s))
        sentences in
  map Py.strip
      (List.filter (fun s => negb (String.eqb (Py.strip s) "")) sentences).

(** *** [_split_long_sentence] *)

Definition is_clause_delimiter (c : ascii) : bool :=
  Ascii.eqb c ";"%char || Ascii.eqb c ","%char.

(** [re.split(r'[;,]\s*', sentence)] *)
Fixpoint split_clause_pieces (in_sep : bool) (l : list ascii)
  : list ascii * list (list ascii) :=
  match l with
  | [] => ([], [])
  | c :: rest =>
      if is_clause_delimiter c then
        let '(p, ps) := split_clause_pieces true rest in ([], p :: ps)
      else if Py.is_space c && in_sep then split_clause_pieces true rest
      else
        let '(p, ps) := split_clause_pieces false rest in (c :: p, ps)
  end.

Definition split_clauses (sentence : string) : list string :=
  let '(p, ps) := split_clause_pieces false (Py.chars sentence) in
  map Py.str (p :: ps).

(** The variables of a packing loop: the chunks closed so far, the pieces
    of the open chunk and their summed token count. *)
Record Packing := {
  chunks : list string;
  current : list string;
  current_size : Z
}.

Definition is_empty {A} (l : list A) : bool :=
  match l with [] => true | _ => false end.

(** One iteration of the loop over [parts]. *)
Definition long_sentence_step (self : TextChunker) (st : Packing)
           (part : string) : Packing :=
  let part_size := count_tokens self part in
  if current_size st + part_size >? chunk_size self then
    {| chunks := if is_empty (current st) then chunks st
                 else chunks st ++ [Py.join ", " (current st)];
       current := [part];
       current_size := part_size |}
  else
    {| chunks := chunks st;
       current := current st ++ [part];
       current_size := current_size st + part_size |}.

(** The closing [if current: chunks.append(sep.join(current))]. *)
Definition flush (sep : string) (st : Packing) : list string :=
  if is_empty (current st) then chunks st
  else chunks st ++ [Py.join sep (current st)].

Definition _split_long_sentence (self : TextChunker) (sentence : string)
  : list string :=
  let parts := split_clauses sentence in
  flush ", "
    (fold_left (long_sentence_step self) parts
               {| chunks := []; current := []; current_size := 0 |}).

(** *** [_chunk_text] *)

(** The loop [for s in reversed(current_chunk)] that selects the sentences
    carried into the next chunk; it stops at the first sentence that does
    not fit. *)
Fixpoint keep_overlap (self : TextChunker) (reversed_chunk : list string)
         (overlap_sentences : list string) (overlap_size : Z)
  : list string * Z :=
  match reversed_chunk with
  | [] => (overlap_sentences, overlap_size)
  | s :: rest =>
      let s_size := count_tokens self s in
      if overlap_size + s_size <=? chunk_overlap self
      then keep_overlap self rest (s :: overlap_sentences)
                        (overlap_size + s_size)
      else (overlap_sentences, overlap_size)
  end.

Definition overlap_of (self : TextChunker) (current_chunk : list string)
  : list string * Z :=
  keep_overlap self (rev current_chunk) [] 0.

(** One iteration of the loop over [sentences]. *)
Definition chunk_text_step (self : TextChunker) (st : Packing)
           (sentence : string) : Packing :=
  let sentence_size := count_tokens self sentence in
  if sentence_size >? chunk_size self then
    let st :=
      if is_empty (current st) then st
      else {| chunks := chunks st ++ [Py.join " " (current st)];
              current := [];
              current_size := 0 |} in
    {| chunks := chunks st ++ _split_long_sentence self sentence;
       current := current st;
       current_size := current_size st |}
  else
    let st :=
      if (current_size st + sentence_size >? chunk_size self)
         && negb (is_empty (current st))
      then
        let '(overlap_sentences, overlap_size) :=
          overlap_of self (current st) in
        {| chunks := chunks st ++ [Py.join " " (current st)];
           current := overlap_sentences;
           current_size := overlap_size |}
      else st in
    {| chunks := chunks st;
       current := current st ++ [sentence];
       current_size := current_size st + sentence_size |}.

Definition _chunk_text (self : TextChunker) (text : string) : list string :=
  let sentences := split_into_sentences text in
  if is_empty sentences then
    if String.eqb (Py.strip text) "" then [] else [text]
  else
    flush " "
      (fold_left (chunk_text_step self) sentences
                 {| chunks := []; current := []; current_size := 0 |}).

(** *** [chunk_pages] *)

Definition page_citation (page_num chunk_id : Z) : string :=
  "[p" ++ Py.str_of_int page_num ++ ":c" ++ Py.str_of_int chunk_id ++ "]".

(** The inner loop over the chunk texts of one page; the state is
    [all_chunks] and the running [chunk_id]. *)
Definition emit_chunk (self : TextChunker) (page_num : Z)
           (st : list Chunk * Z) (chunk_text : string) : list Chunk * Z :=
  let '(all_chunks, chunk_id) := st in
  if Py.len (Py.strip chunk_text) >=? min_chunk_size self then
    ((all_chunks ++ [{| chunk_id := chunk_id;
                        page_num := page_num;
                        text := Py.strip chunk_text;
                        token_count := count_tokens self chunk_text;
                        citation := page_citation page_num chunk_id;
                        source_file := None |}])%list,
     chunk_id + 1)
  else st.

Definition chunk_page (self : TextChunker) (st : list Chunk * Z)
           (page : Page) : list Chunk * Z :=
  let page_num := page_page_num page in
  let text := page_text page in
  if String.eqb text "" || (Py.len (Py.strip text) <? min_chunk_size self)
  then st
  else fold_left (emit_chunk self page_num) (_chunk_text self text) st.

Definition chunk_pages (self : TextChunker) (pages_data : list Page)
  : list Chunk :=
  fst (fold_left (chunk_page self) pages_data ([], 0)).

(** [create_chunks]; the constructor's default [min_chunk_size] is 50.
    [encoding] is what [tiktoken.get_encoding] gave the constructor. *)
Definition create_chunks (encoding : option (string -> list Z))
           (pages_data : list Page) (chunk_size chunk_overlap : Z)
  : list Chunk :=
  chunk_pages {| chunk_size := chunk_size;
                 chunk_overlap := chunk_overlap;
                 min_chunk_size := 50;
                 tokenizer := encoding |} pages_data.

(** *** The loop of [_chunk_text] with the carried sentences recorded

    The same loop, where every closed chunk keeps the list of its pieces
    and the sentences it was seeded with ([carried]); [seed] is the seed of
    the open chunk.  [trace_erase] shows that forgetting the record gives
    [_chunk_text] back. *)

Record Emitted := {
  pieces : list string;
  carried : list string
}.

Definition emitted_text (e : Emitted) : string := Py.join " " (pieces e).

Record Traced := {
  emitted : list Emitted;
  open : list string;
  open_size : Z;
  seed : list string
}.

Definition unseeded (chunk_text : string) : Emitted :=
  {| pieces := [chunk_text]; carried := [] |}.

Definition close_open (st : Traced) : list Emitted :=
  emitted st ++ [{| pieces := open st; carried := seed st |}].

Definition traced_step (self : TextChunker) (st : Traced)
           (sentence : string) : Traced :=
  let sentence_size := count_tokens self sentence in
  if sentence_size >? chunk_size self then
    let st :=
      if is_empty (open st) then st
      else {| emitted := close_open st;
              open := []; open_size := 0; seed := [] |} in
    {| emitted :=
         emitted st ++ map unseeded (_split_long_sentence self sentence);
       open := open st; open_size := open_size st; seed := seed st |}
  else
    let st :=
      if (open_size st + sentence_size >? chunk_size self)
         && negb (is_empty (open st))
      then
        let '(overlap_sentences, overlap_size) :=
          overlap_of self (open st) in
        {| emitted := close_open st;
           open := overlap_sentences;
           open_size := overlap_size;
           seed := overlap_sentences |}
      else st in
    {| emitted := emitted st;
       open := open st ++ [sentence];
       open_size := open_size st + sentence_size;
       seed := seed st |}.

Definition traced_flush (st : Traced) : list Emitted :=
  if is_empty (open st) then emitted st else close_open st.

Definition _chunk_text_trace (self : TextChunker) (text : string)
  : list Emitted :=
  let sentences := split_into_sentences text in
  if is_empty sentences then
    if String.eqb (Py.strip text) "" then [] else [unseeded text]
  else
    traced_flush
      (fold_left (traced_step self) sentences
         {| emitted := []; open := []; open_size := 0; seed := [] |}).

Definition erase (st : Traced) : Packing :=
  {| chunks := map emitted_text (emitted st);
     current := open st;
     current_size := open_size st |}.

(** The summed token count of a list of sentences. *)
Definition sum_tokens (self : TextChunker) (l : list string) : Z :=
  fold_right (fun s acc => count_tokens self s + acc) 0 l.

(** What [chunk_pages] guarantees of a chunk it emits: the filter on the
    stripped text, in characters, and the fields derived from the page and
    the running identifier. *)
Definition emitted_ok (self : TextChunker) (c : Chunk) : Prop :=
  min_chunk_size self <= Py.len (text c)
  /\ citation c = page_citation (page_num c) (chunk_id c)
  /\ exists chunk_text,
       text c = Py.strip chunk_text
       /\ token_count c = count_tokens self chunk_text.

(** Every chunk's seed ends the chunk closed just before it. *)
Definition well_linked (l : list Emitted) : Prop :=
  forall i a b,
    l !! i = Some a -> l !! S i = Some b -> carried b `suffix_of` pieces a.

(** A chunk starts with its seed, and the seed respects the overlap. *)
Definition well_seeded (self : TextChunker) (b : Emitted) : Prop :=
  carried b `prefix_of` pieces b
  /\ sum_tokens self (carried b) <= chunk_overlap self.

(** The invariant of the traced loop. *)
Record trace_inv (self : TextChunker) (st : Traced) : Prop := {
  inv_linked : well_linked (emitted st);
  inv_seeded : Forall (well_seeded self) (emitted st);
  inv_seed_prefix : seed st `prefix_of` open st;
  inv_seed_size : sum_tokens self (seed st) <= chunk_overlap self;
  inv_seed_suffix :
    forall a, last (emitted st) = Some a -> seed st `suffix_of` pieces a
}.

End Chunker.

(** ** The hybrid retriever ([retriever.py]) *)

Module Retriever.

Import Chunker.

Inductive Exception :=
| AttributeError          (* an attribute read before any assignment *)
| IndexError              (* a list index out of range *)
| TypeError               (* a number of results that is not positive *)
| ValueError              (* rejected arguments of a store call *)
| DuplicateIDError        (* identifiers repeated within one store call *)
| ZeroDivisionError       (* a lexical index over a corpus without tokens *)
| NotFoundError           (* a collection the store does not hold *)
| EmbeddingServiceError.  (* a failed request to the embedding service *)

Inductive Result (A : Type) :=
| Ok (a : A)
| Raise (e : Exception).
Arguments Ok {A} a.
Arguments Raise {A} e.

(** Sequencing stops at the first exception: [x ← r; k]. *)
#[global] Instance result_bind : MBind Result :=
  fun A B (f : A -> Result B) (r : Result A) =>
    match r with
    | Ok a => f a
    | Raise e => Raise e
    end.

#[global] Instance result_ret : MRet Result := fun A (a : A) => Ok a.

Definition Embedding := list float.

(** The metadata stored with a document; [meta_token_count] is read with
    [meta.get('token_count', 0)]. *)
Record Metadata := {
  meta_page_num : Z;
  meta_chunk_id : Z;
  meta_citation : string;
  meta_token_count : option Z
}.

(** One row of a collection of the vector store. *)
Record Row := {
  row_id : string;
  row_embedding : Embedding;
  row_document : string;
  row_metadata : Metadata
}.

(** The [BM25Okapi] object: the corpus it was built from. *)
Record BM25Okapi := { corpus : list (list string) }.

(** Some document of a tokenized corpus has a token. *)
Definition has_token (corpus : list (list string)) : bool :=
  existsb (fun document => negb (is_empty document)) corpus.

(** [BM25Okapi(corpus)]: the constructor averages over the documents and
    then over the distinct words of the corpus, and divides by zero when
    there is no word, which includes the empty corpus. *)
Definition new_BM25Okapi (corpus : list (list string))
  : Result BM25Okapi :=
  if has_token corpus then Ok {| corpus := corpus |}
  else Raise ZeroDivisionError.

(** The retriever object.  [chroma_client] is the persistent store the
    client is opened on, [collection] the handle held in [self.collection]
    ([None] while the attribute has never been assigned; a handle is the
    name of its collection). *)
Record HybridRetriever := {
  collection_name : string;
  chroma_client : gmap string (list Row);
  collection : option string;
  bm25 : option BM25Okapi;
  chunks : list Chunk;
  tokenized_corpus : list (list string)
}.

(** [HybridRetriever(collection_name, persist_directory)] on the store
    found in the directory. *)
Definition init (name : string) (store : gmap string (list Row))
  : HybridRetriever :=
  {| collection_name := name;
     chroma_client := store;
     collection := None;
     bm25 := None;
     chunks := [];
     tokenized_corpus := [] |}.

(** The dictionary a search returns for a chunk. *)
Record Hit := {
  hit_text : string;
  hit_page_num : Z;
  hit_chunk_id : Z;
  hit_citation : string
}.

(** *** Lists and sorting as Python has them *)

(** [l[:n]] *)
Definition slice_to {A} (n : Z) (l : list A) : list A :=
  if n <? 0 then take (length l - Z.to_nat (- n)) l
  else take (Z.to_nat n) l.

(** [enumerate(l)] from [rank] on. *)
Fixpoint enumerate_from {A} (rank : Z) (l : list A) : list (Z * A) :=
  match l with
  | [] => []
  | x :: rest => (rank, x) :: enumerate_from (rank + 1) rest
  end.

Definition enumerate {A} (l : list A) : list (Z * A) := enumerate_from 0 l.

(** Stable sorting: [before y x] tells that the key of [y] is strictly
    ahead of the key of [x]; elements neither of which is ahead of the
    other keep their order.  This is [sorted] and [list.sort] for keys that
    [<] orders, which leaves out [nan]. *)
Fixpoint insert_stable {A} (before : A -> A -> bool) (x : A) (l : list A)
  : list A :=
  match l with
  | [] => [x]
  | y :: rest =>
      if before y x then y :: insert_stable before x rest
      else x :: l
  end.

Fixpoint sort_stable {A} (before : A -> A -> bool) (l : list A) : list A :=
  match l with
  | [] => []
  | x :: rest => insert_stable before x (sort_stable before rest)
  end.

(** [tokenize]: [re.findall(r'\b\w+\b', text.lower())], the maximal runs
    of word characters. *)
Fixpoint word_runs (l : list ascii) : list ascii * list (list ascii) :=
  match l with
  | [] => ([], [])
  | c :: rest =>
      let '(w, ws) := word_runs rest in
      if Py.is_word c then (c :: w, ws)
      else ([], match w with [] => ws | _ => w :: ws end)
  end.

Definition tokenize (text : string) : list string :=
  let '(w, ws) := word_runs (Py.chars (Py.lower text)) in
  map Py.str (match w with [] => ws | _ => w :: ws end).

(** *** Reciprocal rank fusion: the body of [search_hybrid] after the two
    searches *)

(** A value of the dictionary [rrf_scores]. *)
Record Fused := {
  chunk : Hit;
  vector_score : float;
  bm25_score : float;
  rrf_score : float
}.

(** The dictionary [rrf_scores], in insertion order. *)
Definition Scores := list (Z * Fused).

Fixpoint contains (d : Scores) (key : Z) : bool :=
  match d with
  | [] => false
  | (k, _) :: rest => (k =? key) || contains rest key
  end.

Fixpoint lookup_key (d : Scores) (key : Z) : option Fused :=
  match d with
  | [] => None
  | (k, v) :: rest => if k =? key then Some v else lookup_key rest key
  end.

(** [d[key] = f(d[key])] for a key of [d]. *)
Fixpoint update (d : Scores) (key : Z) (f : Fused -> Fused) : Scores :=
  match d with
  | [] => []
  | (k, v) :: rest =>
      if k =? key then (k, f v) :: rest else (k, v) :: update rest key f
  end.

(** [if key not in d: d[key] = v] *)
Definition setdefault (d : Scores) (key : Z) (v : Fused) : Scores :=
  if contains d key then d else (d ++ [(key, v)])%list.

(** The RRF constant [k]. *)
Definition rrf_k : Z := 60.

(** [e['rrf_score'] += x] *)
Definition add_rrf (x : float) (e : Fused) : Fused :=
  {| chunk := chunk e; vector_score := vector_score e;
     bm25_score := bm25_score e; rrf_score := (rrf_score e + x)%float |}.

Definition set_vector_score (score : float) (e : Fused) : Fused :=
  {| chunk := chunk e; vector_score := score;
     bm25_score := bm25_score e; rrf_score := rrf_score e |}.

Definition set_bm25_score (score : float) (e : Fused) : Fused :=
  {| chunk := chunk e; vector_score := vector_score e;
     bm25_score := score; rrf_score := rrf_score e |}.

(** One iteration of [for rank, (chunk, score) in enumerate(vector_results)]. *)
Definition vector_step (vector_weight : float) (rrf_scores : Scores)
           (item : Z * (Hit * float)) : Scores :=
  let '(rank, (chunk, score)) := item in
  let chunk_key := hit_chunk_id chunk in
  let rrf_scores :=
    setdefault rrf_scores chunk_key
      {| chunk := chunk; vector_score := score;
         bm25_score := Float.zero; rrf_score := Float.zero |} in
  let rrf_scores :=
    update rrf_scores chunk_key
           (add_rrf (vector_weight / Float.of_Z (rrf_k + rank + 1))%float) in
  update rrf_scores chunk_key (set_vector_score score).

(** One iteration of [for rank, (chunk, score) in enumerate(bm25_results)]. *)
Definition bm25_step (bm25_weight : float) (rrf_scores : Scores)
           (item : Z * (Hit * float)) : Scores :=
  let '(rank, (chunk, score)) := item in
  let chunk_key := hit_chunk_id chunk in
  let rrf_scores :=
    setdefault rrf_scores chunk_key
      {| chunk := chunk; vector_score := Float.zero;
         bm25_score := score; rrf_score := Float.zero |} in
  let rrf_scores :=
    update rrf_scores chunk_key
           (add_rrf (bm25_weight / Float.of_Z (rrf_k + rank + 1))%float) in
  update rrf_scores chunk_key (set_bm25_score score).

(** The dictionary after both loops: the vector results are processed
    first, the BM25 results second. *)
Definition rrf_table (vector_results bm25_results : list (Hit * float))
           (vector_weight bm25_weight : float) : Scores :=
  let rrf_scores :=
    fold_left (vector_step vector_weight) (enumerate vector_results) [] in
  fold_left (bm25_step bm25_weight) (enumerate bm25_results) rrf_scores.

(** [sorted(rrf_scores.values(), key=rrf_score, reverse=True)], for
    scores none of which is [nan]: the stable sort then has one result. *)
Definition sorted_by_rrf (rrf_scores : Scores) : list Fused :=
  sort_stable (fun y x => (rrf_score x <? rrf_score y)%float)
              (map snd rrf_scores).

(** A dictionary of [final_results]. *)
Record ScoredResult := {
  res_text : string;
  res_page_num : Z;
  res_chunk_id : Z;
  res_citation : string;
  res_vector_score : float;
  res_bm25_score : float;
  res_combined_score : float
}.

Definition format_result (item : Fused) : ScoredResult :=
  {| res_text := hit_text (chunk item);
     res_page_num := hit_page_num (chunk item);
     res_chunk_id := hit_chunk_id (chunk item);
     res_citation := hit_citation (chunk item);
     res_vector_score := Float.round4 (vector_score item);
     res_bm25_score := Float.round4 (bm25_score item);
     res_combined_score := Float.round4 (rrf_score item) |}.

Definition rrf_fusion (vector_results bm25_results : list (Hit * float))
           (top_k : Z) (vector_weight bm25_weight : float)
  : list ScoredResult :=
  let sorted_results :=
    slice_to top_k
      (sorted_by_rrf
         (rrf_table vector_results bm25_results vector_weight bm25_weight)) in
  map format_result sorted_results.

(** *** The fusion rule in the words of its description *)

(** The chunk identifiers of a ranking, best first. *)
Definition ids (ranking : list (Hit * float)) : list Z :=
  map (fun item => hit_chunk_id (fst item)) ranking.

(** The identifiers of [l] in the order of their first appearance. *)
Fixpoint first_appearance (l : list Z) : list Z :=
  match l with
  | [] => []
  | x :: rest =>
      x :: List.filter (fun y => negb (y =? x)) (first_appearance rest)
  end.

(** [acc] with [weight / (60 + rank + 1)] added for every position at
    which [key] stands in a ranking, in the order of the ranking; the first
    position has rank [rank]. *)
Fixpoint accumulated (weight : float) (rank : Z)
         (ranking : list (Hit * float)) (key : Z) (acc : float) : float :=
  match ranking with
  | [] => acc
  | (h, _) :: rest =>
      accumulated weight (rank + 1) rest key
        (if hit_chunk_id h =? key
         then (acc + weight / Float.of_Z (60 + rank + 1))%float
         else acc)
  end.

(** The rank of [key] in a ranking, from [rank] on, when it appears in
    it. *)
Fixpoint rank_from (rank : Z) (ranking : list (Hit * float)) (key : Z)
  : option Z :=
  match ranking with
  | [] => None
  | (h, _) :: rest =>
      if hit_chunk_id h =? key then Some rank
      else rank_from (rank + 1) rest key
  end.

Definition rank_of (ranking : list (Hit * float)) (key : Z) : option Z :=
  rank_from 0 ranking key.

(** The position of [x] in [l]. *)
Fixpoint index_of (x : Z) (l : list Z) : option nat :=
  match l with
  | [] => None
  | y :: rest => if y =? x then Some O else option_map S (index_of x rest)
  end.

(** [a] and [b] both occur in [l], [a] first. *)
Definition placed_before (a b : Z) (l : list Z) : bool :=
  match index_of a l, index_of b l with
  | Some i, Some j => (i <? j)%nat
  | _, _ => false
  end.

(** The entries of a list whose fused score equals [q]. *)
Definition tied_at (q : float) (l : list Fused) : list Fused :=
  List.filter (fun e => (rrf_score e =? q)%float) l.

(** *** Notions used to state the invariants of the dictionary *)

(** The three scores of [k] in a dictionary, 0 when it has no entry. *)
Definition score_of (d : Scores) (k : Z) : float :=
  match lookup_key d k with Some e => rrf_score e | None => Float.zero end.

Definition vector_of (d : Scores) (k : Z) : float :=
  match lookup_key d k with
  | Some e => vector_score e
  | None => Float.zero
  end.

Definition bm25_of (d : Scores) (k : Z) : float :=
  match lookup_key d k with Some e => bm25_score e | None => Float.zero end.

(** The keys of a dictionary, in insertion order. *)
Definition keys (d : Scores) : list Z := map fst d.

Definition mem (k : Z) (l : list Z) : bool := existsb (Z.eqb k) l.

(** The keys after [if key not in d: d[key] = ...]. *)
Definition add_key (seen : list Z) (k : Z) : list Z :=
  if mem k seen then seen else (seen ++ [k])%list.

(** Every entry is filed under the identifier of its chunk. *)
Definition keyed (d : Scores) : Prop :=
  Forall (fun p => hit_chunk_id (chunk (snd p)) = fst p) d.

(** A list in descending order of [key]: no element has a greater one
    after it. *)
Definition descending {A} (key : A -> float) : list A -> Prop :=
  StronglySorted (fun x y => (key x <? key y)%float = false).

(** No key is [nan]. *)
Definition numbers {A} (key : A -> float) (l : list A) : Prop :=
  Forall (fun x => Float.is_nan (key x) = false) l.

(** *** Indexing and searching *)

Definition with_chunks (self : HybridRetriever) (cs : list Chunk)
  : HybridRetriever :=
  {| collection_name := collection_name self;
     chroma_client := chroma_client self;
     collection := collection self;
     bm25 := bm25 self;
     chunks := cs;
     tokenized_corpus := tokenized_corpus self |}.

Definition with_collection (self : HybridRetriever) (handle : string)
  : HybridRetriever :=
  {| collection_name := collection_name self;
     chroma_client := chroma_client self;
     collection := Some handle;
     bm25 := bm25 self;
     chunks := chunks self;
     tokenized_corpus := tokenized_corpus self |}.

Definition with_store (self : HybridRetriever)
           (store : gmap string (list Row)) : HybridRetriever :=
  {| collection_name := collection_name self;
     chroma_client := store;
     collection := collection self;
     bm25 := bm25 self;
     chunks := chunks self;
     tokenized_corpus := tokenized_corpus self |}.

Definition has_collection (store : gmap string (list Row)) (name : string)
  : bool :=
  match store !! name with Some _ => true | None => false end.

(** [l[i:j]] for [0 <= i <= j]. *)
Definition slice {A} (i j : nat) (l : list A) : list A :=
  take (j - i) (drop i l).

Definition batch_size : nat := 100.

(** [range(0, n, batch_size)] *)
Definition batch_starts (n : nat) : list nat :=
  map (fun b => (b * batch_size)%nat)
      (seq 0 (Nat.div (n + (batch_size - 1)) batch_size)).

Definition metadata_of (c : Chunk) : Metadata :=
  {| meta_page_num := page_num c;
     meta_chunk_id := chunk_id c;
     meta_citation := citation c;
     meta_token_count := Some (token_count c) |}.

Definition chunk_of_row (r : Row) : Chunk :=
  let meta := row_metadata r in
  {| chunk_id := meta_chunk_id meta;
     page_num := meta_page_num meta;
     text := row_document r;
     token_count := default 0 (meta_token_count meta);
     citation := meta_citation meta;
     source_file := None |}.

Definition hit_of_row (r : Row) : Hit :=
  let meta := row_metadata r in
  {| hit_text := row_document r;
     hit_page_num := meta_page_num meta;
     hit_chunk_id := meta_chunk_id meta;
     hit_citation := meta_citation meta |}.

Definition hit_of_chunk (c : Chunk) : Hit :=
  {| hit_text := text c;
     hit_page_num := page_num c;
     hit_chunk_id := chunk_id c;
     hit_citation := citation c |}.

(** The rows of a call [collection.add(ids, embeddings, documents,
    metadatas)]; the store rejects lists of different lengths. *)
Fixpoint rows_of (ids : list string) (embeddings : list Embedding)
         (documents : list string) (metadatas : list Metadata)
  : Result (list Row) :=
  match ids, embeddings, documents, metadatas with
  | [], [], [], [] => Ok []
  | i :: ids, e :: embeddings, d :: documents, m :: metadatas =>
      rows ← rows_of ids embeddings documents metadatas;
      Ok ({| row_id := i; row_embedding := e;
             row_document := d; row_metadata := m |} :: rows)
  | _, _, _, _ => Raise ValueError
  end.

Definition holds (ids : list string) (id : string) : bool :=
  existsb (String.eqb id) ids.

Fixpoint has_duplicates (ids : list string) : bool :=
  match ids with
  | [] => false
  | id :: rest => holds rest id || has_duplicates rest
  end.

(** [collection.add] on the rows a collection holds: the store rejects an
    identifier repeated within the call, and leaves out a row whose
    identifier the collection holds already. *)
Definition add (rows : list Row) (ids : list string)
           (embeddings : list Embedding) (documents : list string)
           (metadatas : list Metadata) : Result (list Row) :=
  new_rows ← rows_of ids embeddings documents metadatas;
  if has_duplicates ids then Raise DuplicateIDError
  else
    Ok (rows
        ++ List.filter (fun r => negb (holds (map row_id rows) (row_id r)))
                       new_rows)%list.

Definition with_tokenized_corpus (self : HybridRetriever)
           (tokenized : list (list string)) : HybridRetriever :=
  {| collection_name := collection_name self;
     chroma_client := chroma_client self;
     collection := collection self;
     bm25 := bm25 self;
     chunks := chunks self;
     tokenized_corpus := tokenized |}.

Definition with_bm25 (self : HybridRetriever) (index : BM25Okapi)
  : HybridRetriever :=
  {| collection_name := collection_name self;
     chroma_client := chroma_client self;
     collection := collection self;
     bm25 := Some index;
     chunks := chunks self;
     tokenized_corpus := tokenized_corpus self |}.

(** [_build_bm25_index]: the tokenized corpus is assigned before the
    constructor of the index is called. *)
Definition _build_bm25_index (self : HybridRetriever) (texts : list string)
  : HybridRetriever * Result unit :=
  let self := with_tokenized_corpus self (map tokenize texts) in
  match new_BM25Okapi (tokenized_corpus self) with
  | Raise e => (self, Raise e)
  | Ok index => (with_bm25 self index, Ok tt)
  end.

(** [_rebuild_bm25_from_collection]: nothing is touched when the
    collection holds no document. *)
Definition _rebuild_bm25_from_collection (self : HybridRetriever)
  : HybridRetriever * Result unit :=
  match collection self with
  | None => (self, Raise AttributeError)
  | Some handle =>
      match chroma_client self !! handle with
      | None => (self, Raise NotFoundError)
      | Some rows =>
          if is_empty rows then (self, Ok tt)
          else
            let cs :=
              sort_stable (fun y x => chunk_id y <? chunk_id x)
                          (map chunk_of_row rows) in
            _build_bm25_index (with_chunks self cs) (map text cs)
      end
  end.

(** [clear_index] *)
Definition clear_index (self : HybridRetriever) : HybridRetriever :=
  {| collection_name := collection_name self;
     chroma_client := delete (collection_name self) (chroma_client self);
     collection := collection self;
     bm25 := None;
     chunks := [];
     tokenized_corpus := [] |}.

Section Services.

(** One request to the embedding service. *)
Variable embed : list string -> Result (list Embedding).
(** The cosine distance of the vector store. *)
Variable distance : Embedding -> Embedding -> float.
(** [BM25Okapi(corpus).get_scores(query_tokens)] *)
Variable get_scores : list (list string) -> list string -> list float.
(** [np.argsort] *)
Variable argsort : list float -> list nat.

Fixpoint embed_batches (texts : list string) (starts : list nat)
         (all_embeddings : list Embedding) : Result (list Embedding) :=
  match starts with
  | [] => Ok all_embeddings
  | i :: starts =>
      batch_embeddings ← embed (slice i (i + batch_size) texts);
      embed_batches texts starts (all_embeddings ++ batch_embeddings)
  end.

(** [get_embeddings] *)
Definition get_embeddings (texts : list string)
  : Result (list Embedding) :=
  embed_batches texts (batch_starts (length texts)) [].

(** The loop that adds the rows to the new collection, batch by
    batch. *)
Fixpoint add_batches (self : HybridRetriever) (handle : string)
         (ids : list string) (embeddings : list Embedding)
         (texts : list string) (metadatas : list Metadata) (n : nat)
         (starts : list nat) : HybridRetriever * Result unit :=
  match starts with
  | [] => (self, Ok tt)
  | i :: starts =>
      let end_idx := Nat.min (i + batch_size) n in
      match chroma_client self !! handle with
      | None => (self, Raise NotFoundError)
      | Some rows =>
          match add rows (slice i end_idx ids)
                    (slice i end_idx embeddings)
                    (slice i end_idx texts)
                    (slice i end_idx metadatas) with
          | Raise e => (self, Raise e)
          | Ok rows =>
              add_batches
                (with_store self (<[handle := rows]> (chroma_client self)))
                handle ids embeddings texts metadatas n starts
          end
      end
  end.

(** [index_chunks] *)
Definition index_chunks (self : HybridRetriever) (new_chunks : list Chunk)
           (force_reindex : bool) : HybridRetriever * Result unit :=
  let self := with_chunks self new_chunks in
  let name := collection_name self in
  let existing := has_collection (chroma_client self) name in
  if existing && negb force_reindex then
    _rebuild_bm25_from_collection (with_collection self name)
  else
    let store :=
      if existing then delete name (chroma_client self)
      else chroma_client self in
    let self :=
      with_collection (with_store self (<[name := []]> store)) name in
    let texts := map text new_chunks in
    let ids := map (fun c => Py.str_of_int (chunk_id c)) new_chunks in
    let metadatas := map metadata_of new_chunks in
    match get_embeddings texts with
    | Raise e => (self, Raise e)
    | Ok embeddings =>
        match add_batches self name ids embeddings texts metadatas
                          (length new_chunks)
                          (batch_starts (length new_chunks)) with
        | (self, Raise e) => (self, Raise e)
        | (self, Ok _) => _build_bm25_index self texts
        end
    end.

(** [collection.query], by the contract of the store: a number of results
    that is not positive is rejected before the collection is read;
    otherwise at most [n_results] rows are returned, those nearest to the
    query embedding, nearest first, with their distances. *)
Definition query (rows : option (list Row)) (query_embedding : Embedding)
           (n_results : Z) : Result (list (Row * float)) :=
  if n_results <=? 0 then Raise TypeError
  else
    match rows with
    | None => Raise NotFoundError
    | Some rows =>
        Ok (take (Z.to_nat n_results)
              (sort_stable (fun y x => (snd y <? snd x)%float)
                 (map (fun r =>
                         (r, distance query_embedding (row_embedding r)))
                      rows)))
    end.

(** [search_vector] *)
Definition search_vector (self : HybridRetriever) (q : string)
           (top_k : Z) : Result (list (Hit * float)) :=
  match collection self with
  | None => Raise AttributeError
  | Some handle =>
      embeddings ← get_embeddings [q];
      match embeddings with
      | [] => Raise IndexError
      | query_embedding :: _ =>
          results ← query (chroma_client self !! handle) query_embedding
                          top_k;
          Ok (map (fun '(r, d) => (hit_of_row r, (Float.of_Z 1 - d)%float))
                  results)
      end
  end.

(** The loop of [search_bm25] over [top_indices]. *)
Fixpoint bm25_hits (self : HybridRetriever) (scores : list float)
         (top_indices : list nat) : Result (list (Hit * float)) :=
  match top_indices with
  | [] => Ok []
  | idx :: rest =>
      match scores !! idx with
      | None => Raise IndexError
      | Some score =>
          if (Float.zero <? score)%float then
            match chunks self !! idx with
            | None => Raise IndexError
            | Some c =>
                retrieved ← bm25_hits self scores rest;
                Ok ((hit_of_chunk c, score) :: retrieved)
            end
          else bm25_hits self scores rest
      end
  end.

(** [search_bm25] *)
Definition search_bm25 (self : HybridRetriever) (q : string) (top_k : Z)
  : Result (list (Hit * float)) :=
  match bm25 self with
  | None => Ok []
  | Some index =>
      if is_empty (chunks self) then Ok []
      else
        let scores := get_scores (corpus index) (tokenize q) in
        let top_indices := slice_to top_k (rev (argsort scores)) in
        bm25_hits self scores top_indices
  end.

(** [search_hybrid] *)
Definition search_hybrid (self : HybridRetriever) (q : string)
           (top_k : Z) (vector_weight bm25_weight : float)
  : Result (list ScoredResult) :=
  vector_results ← search_vector self q (top_k * 2);
  bm25_results ← search_bm25 self q (top_k * 2);
  Ok (rrf_fusion vector_results bm25_results top_k
                 vector_weight bm25_weight).

End Services.

End Retriever.

(** ** The chunk assembly of [upload] ([app.py]) *)

Module App.

Import Chunker.

(** [file.filename[:20] + '...' if len(file.filename) > 20 else
    file.filename] *)
Definition short_name (filename : string) : string :=
  if Py.len filename >? 20 then Py.take 20 filename ++ "..."
  else filename.

Definition file_citation (short_name : string) (c : Chunk) : string :=
  "[" ++ short_name ++ ":p" ++ Py.str_of_int (page_num c)
      ++ ":c" ++ Py.str_of_int (chunk_id c) ++ "]".

(** The update of a chunk when more than one file is uploaded. *)
Definition tag_with_file (filename : string) (c : Chunk) : Chunk :=
  {| chunk_id := chunk_id c;
     page_num := page_num c;
     text := text c;
     token_count := token_count c;
     citation := file_citation (short_name filename) c;
     source_file := Some filename |}.

(** [chunk['chunk_id'] = i] *)
Definition set_chunk_id (i : Z) (c : Chunk) : Chunk :=
  {| chunk_id := i;
     page_num := page_num c;
     text := text c;
     token_count := token_count c;
     citation := citation c;
     source_file := source_file c |}.

(** The chunks of one uploaded file, given the pages read from it. *)
Definition file_chunks (encoding : option (string -> list Z))
           (file_count : nat) (file : string * list Page) : list Chunk :=
  let '(filename, pages_data) := file in
  let cs := create_chunks encoding pages_data 500 100 in
  if (1 <? file_count)%nat then map (tag_with_file filename) cs else cs.

(** [all_chunks] as [upload] passes it to [index_chunks]: the chunks of
    all files, then renumbered in order. *)
Definition upload_chunks (encoding : option (string -> list Z))
           (pdf_files : list (string * list Page)) : list Chunk :=
  let all_chunks :=
    concat (map (file_chunks encoding (length pdf_files)) pdf_files) in
  map (fun '(i, c) => set_chunk_id i c) (Retriever.enumerate all_chunks).

End App.

(** ** Concrete services and data for the examples *)

Module Samples.

Import Chunker Retriever.

(** An embedding service that answers: one coordinate per text, its
    length. *)
Definition embed_ok (texts : list string) : Result (list Embedding) :=
  Ok (map (fun t => [Float.of_Z (Py.len t)]) texts).

(** An embedding service that is down. *)
Definition embed_down (texts : list string) : Result (list Embedding) :=
  Raise EmbeddingServiceError.

(** A stand-in for the distance of the store: the squared difference of
    the first coordinates. *)
Definition distance (a b : Embedding) : float :=
  let d := (hd Float.zero a - hd Float.zero b)%float in (d * d)%float.

(** A stand-in for the BM25 scores: the number of query tokens a document
    contains. *)
Definition get_scores (corpus : list (list string)) (q : list string)
  : list float :=
  map (fun doc =>
         Float.of_Z (Z.of_nat (length
           (List.filter (fun t => existsb (String.eqb t) doc) q))))
      corpus.

(** Indices in ascending order of score. *)
Definition argsort (scores : list float) : list nat :=
  map fst (sort_stable (fun y x => (snd y <? snd x)%float)
                       (combine (seq 0 (length scores)) scores)).

Definition name : string := "document_chunks".

(** The chunks of the retriever's own self-test. *)
Definition revenue : Chunk :=
  {| chunk_id := 0; page_num := 1;
     text := "Revenue increased by 20% year over year";
     token_count := 8; citation := "[p1:c0]"; source_file := None |}.

Definition margin : Chunk :=
  {| chunk_id := 1; page_num := 2;
     text := "EBITDA margin improved to 15%";
     token_count := 6; citation := "[p2:c1]"; source_file := None |}.

Definition airport : Chunk :=
  {| chunk_id := 2; page_num := 3;
     text := "Airport business saw passenger growth";
     token_count := 6; citation := "[p3:c2]"; source_file := None |}.

(** A chunk whose text has no word. *)
Definition dashes : Chunk :=
  {| chunk_id := 0; page_num := 1;
     text := "-----";
     token_count := 1; citation := "[p1:c0]"; source_file := None |}.

(** A fresh retriever on an empty store, and the retriever after a first
    successful indexing. *)
Definition fresh : HybridRetriever := init name ∅.

Definition built : HybridRetriever :=
  fst (index_chunks embed_ok fresh [revenue; margin] true).

(** The page of the chunker's own self-test. *)
Definition test_page : Page :=
  {| page_page_num := 1;
     page_text := "This is the first sentence. This is the second sentence. Here comes a third one with more content. And finally the fourth sentence.";
     has_tables := false |}.

(** The chunker of [create_chunks(pages, chunk_size=20, chunk_overlap=5)],
    the chunker's own self-test, when the encoding could not be loaded. *)
Definition self_test : TextChunker :=
  {| chunk_size := 20; chunk_overlap := 5;
     min_chunk_size := 50; tokenizer := None |}.

(** A chunker with a target of 8 tokens and an overlap of 5. *)
Definition small : TextChunker :=
  {| chunk_size := 8; chunk_overlap := 5;
     min_chunk_size := 50; tokenizer := None |}.

(** The only chunk of the self-test. *)
Definition self_test_chunk : Chunk :=
  {| chunk_id := 0; page_num := 1;
     text := "This is the first sentence. This is the second sentence. Here comes a third one with more content.";
     token_count := 18; citation := "[p1:c0]"; source_file := None |}.

(** The retriever after a forced re-index of [built] during which the
    embedding service was down, and a new process started on the store it
    left behind. *)
Definition failed_attempt : HybridRetriever * Result unit :=
  index_chunks embed_down built [airport] true.

Definition restarted_after_failure : HybridRetriever :=
  init name (chroma_client (fst failed_attempt)).

(** A new process started on the store of [built]. *)
Definition restarted : HybridRetriever := init name (chroma_client built).

(** The rankings of the fusion example: lexical [A, B, C], vector
    [B, A, D]. *)
Definition hit (id : Z) (label : string) : Hit :=
  {| hit_text := label; hit_page_num := 1;
     hit_chunk_id := id; hit_citation := Chunker.page_citation 1 id |}.

Definition A : Hit := hit 0 "A".
Definition B : Hit := hit 1 "B".
Definition C : Hit := hit 2 "C".
Definition D : Hit := hit 3 "D".

Definition lexical_ranking : list (Hit * float) :=
  [(A, Float.of_Z 3); (B, Float.of_Z 2); (C, Float.of_Z 1)].

Definition vector_ranking : list (Hit * float) :=
  [(B, Float.ratio 9 10); (A, Float.ratio 8 10); (D, Float.ratio 7 10)].

(** Two uploaded files of one page each. *)
Definition first_file : string * list Page :=
  ("annual_report.pdf",
   [{| page_page_num := 1;
       page_text := "Revenue increased by twenty percent year over year in the first half.";
       has_tables := false |}]).

Definition second_file : string * list Page :=
  ("quarterly_results_presentation.pdf",
   [{| page_page_num := 1;
       page_text := "The airport business saw strong passenger growth during the quarter.";
       has_tables := false |}]).

End Samples.

(** ** Notions used to state further properties of the segmenter *)

Module Outline.

Import Chunker.

(** The chunk [chunk_pages] makes of a chunk text. *)
Definition make_chunk (self : TextChunker) (chunk_id page_num : Z)
           (chunk_text : string) : Chunk :=
  {| chunk_id := chunk_id;
     page_num := page_num;
     text := Py.strip chunk_text;
     token_count := count_tokens self chunk_text;
     citation := page_citation page_num chunk_id;
     source_file := None |}.

(** The filter [len(chunk_text.strip()) >= self.min_chunk_size]. *)
Definition long_enough (self : TextChunker) (chunk_text : string) : bool :=
  Py.len (Py.strip chunk_text) >=? min_chunk_size self.

(** The filter on pages: [not text or len(text.strip()) <
    self.min_chunk_size] does not hold. *)
Definition page_kept (self : TextChunker) (page : Page) : bool :=
  negb (String.eqb (page_text page) ""
        || (Py.len (Py.strip (page_text page)) <? min_chunk_size self)).

(** The chunk texts one page contributes, with its page number. *)
Definition page_texts (self : TextChunker) (page : Page)
  : list (Z * string) :=
  if page_kept self page
  then map (fun t => (page_page_num page, t))
           (List.filter (long_enough self)
                        (_chunk_text self (page_text page)))
  else [].

(** Numbering chunk texts from [n] on. *)
Fixpoint number_from (self : TextChunker) (n : Z) (l : list (Z * string))
  : list Chunk :=
  match l with
  | [] => []
  | (page_num, chunk_text) :: rest =>
      make_chunk self n page_num chunk_text
        :: number_from self (n + 1) rest
  end.

(** A chunk moved [n] identifiers further, its citation rewritten. *)
Definition renumber (n : Z) (c : Chunk) : Chunk :=
  {| chunk_id := chunk_id c + n;
     page_num := page_num c;
     text := text c;
     token_count := token_count c;
     citation := page_citation (page_num c) (chunk_id c + n);
     source_file := source_file c |}.

(** The sentences a traced chunk adds to those carried into it. *)
Definition fresh (e : Emitted) : list string :=
  drop (length (carried e)) (pieces e).

(** What the loop of [_chunk_text] makes of one sentence: a sentence above
    the target is replaced by the chunks of [_split_long_sentence]. *)
Definition expand (self : TextChunker) (sentence : string) : list string :=
  if count_tokens self sentence >? chunk_size self
  then _split_long_sentence self sentence
  else [sentence].

(** The invariant of the packing loop of [_split_long_sentence]: [groups]
    are the closed groups of parts. *)
Record packed (self : TextChunker) (parts : list string)
       (groups : list (list string)) (st : Packing) : Prop := {
  packed_parts : (concat groups ++ current st)%list = parts;
  packed_chunks : chunks st = map (Py.join ", ") groups;
  packed_nonempty : Forall (fun g => g <> []) groups;
  packed_size : current_size st = sum_tokens self (current st);
  packed_groups :
    Forall (fun g => length g = 1%nat
                     \/ sum_tokens self g <= chunk_size self) groups;
  packed_current :
    (length (current st) <= 1)%nat
    \/ sum_tokens self (current st) <= chunk_size self
}.

(** A character list that does not start with a space. *)
Definition starts_clean (l : list ascii) : Prop :=
  match l with
  | [] => True
  | c :: _ => Py.is_space c = false
  end.

End Outline.

(** ** Notions used to state further properties of the retriever *)

Module Stored.

Import Chunker Retriever.

(** The requests [get_embeddings] sends for a list of texts. *)
Definition batches (texts : list string) : list (list string) :=
  map (fun i => slice i (i + batch_size) texts)
      (batch_starts (length texts)).

(** The row [index_chunks] stores for a chunk and its embedding. *)
Definition row_of (c : Chunk) (e : Embedding) : Row :=
  {| row_id := Py.str_of_int (chunk_id c);
     row_embedding := e;
     row_document := text c;
     row_metadata := metadata_of c |}.

Fixpoint stored_rows (cs : list Chunk) (es : list Embedding) : list Row :=
  match cs, es with
  | c :: cs, e :: es => row_of c e :: stored_rows cs es
  | _, _ => []
  end.

(** A chunk without the key [source_file], which is not stored. *)
Definition forget_source (c : Chunk) : Chunk :=
  {| chunk_id := chunk_id c;
     page_num := page_num c;
     text := text c;
     token_count := token_count c;
     citation := citation c;
     source_file := None |}.

(** The fused score of a chunk met once, at [rank], by a ranking of the
    given weight. *)
Definition single_score (weight : float) (rank : Z) : float :=
  (Float.zero + weight / Float.of_Z (60 + rank + 1))%float.

(** The entry the BM25 loop creates for an identifier it meets for the
    first time, and the one the vector loop creates. *)
Definition bm25_entry (w : float) (item : Z * (Hit * float)) : Z * Fused :=
  let '(rank, (c, s)) := item in
  (hit_chunk_id c,
   {| chunk := c; vector_score := Float.zero; bm25_score := s;
      rrf_score := single_score w rank |}).

Definition vector_entry (w : float) (item : Z * (Hit * float))
  : Z * Fused :=
  let '(rank, (c, s)) := item in
  (hit_chunk_id c,
   {| chunk := c; vector_score := s; bm25_score := Float.zero;
      rrf_score := single_score w rank |}).

(** The fused scores a ranking of [n] distinct chunks gives on its own,
    best first, and the test that they are numbers none of which is smaller
    than the next. *)
Definition single_scores (weight : float) (n : nat) : list float :=
  map (fun rank => single_score weight (Z.of_nat rank)) (seq 0 n).

Fixpoint weakly_decreasing (l : list float) : bool :=
  match l with
  | [] => true
  | x :: rest =>
      negb (Float.is_nan x)
      && match rest with
         | [] => true
         | y :: _ => negb (x <? y)%float
         end
      && weakly_decreasing rest
  end.

(** Chunks in strictly ascending order of identifier. *)
Definition ascending_ids : list Chunk -> Prop :=
  StronglySorted (fun a b => chunk_id a < chunk_id b).

End Stored.

(** ** The conversational agent ([chat_agent.py]) *)

Module Agent.

Import Retriever.

(** The characters a string literal of this file cannot hold. *)
Definition nl : string := String (ascii_of_nat 10) "".
Definition dq : string := String (ascii_of_nat 34) "".

(** [needle in hay] *)
Fixpoint occurs_in (needle hay : list ascii) : bool :=
  Py.starts_with needle hay
  || match hay with
     | [] => false
     | _ :: rest => occurs_in needle rest
     end.

Definition contains (needle hay : string) : bool :=
  occurs_in (Py.chars needle) (Py.chars hay).

(** [l[n:]] *)
Definition slice_from {A} (n : Z) (l : list A) : list A :=
  if n <? 0 then drop (length l - Z.to_nat (- n)) l
  else drop (Z.to_nat n) l.

(** A turn of [conversation_history]. *)
Record Turn := {
  user : string;
  assistant : string;
  retrieved_chunks : list ScoredResult
}.

(** The agent object; the retriever it holds is shared and passed to [ask]
    beside it. *)
Record ConversationalAgent := {
  model : string;
  temperature : float;
  max_history_turns : Z;
  conversation_history : list Turn
}.

(** [ConversationalAgent(retriever, model)] with the defaults of the
    constructor. *)
Definition init (model : string) : ConversationalAgent :=
  {| model := model;
     temperature := Float.ratio 2 10;
     max_history_turns := 10;
     conversation_history := [] |}.

Definition reformulation_prompt : string :=
  "You are a query reformulator. Given the conversation history and the latest user question," ++ nl ++
  "reformulate the question to be self-contained (capturing all necessary context from the conversation)." ++ nl ++
  "If the question is already self-contained, return it as-is." ++ nl ++
  "Only output the reformulated question, nothing else.".

Definition answer_prompt : string :=
  "You are a helpful assistant that answers questions based ONLY on the provided document context." ++ nl ++
  nl ++
  "CRITICAL RULES:" ++ nl ++
  "1. ONLY use information from the provided context chunks to answer" ++ nl ++
  "2. If the answer is NOT in the context, respond EXACTLY with: " ++ dq ++ "Not found in the document." ++ dq ++ nl ++
  "3. NEVER make up or hallucinate information" ++ nl ++
  "4. ALWAYS include citations in format [pX] or [pX:cY] where X is page number and Y is chunk ID" ++ nl ++
  "5. For numeric questions, only provide numbers that appear verbatim in the context" ++ nl ++
  "6. Cite the specific chunk(s) that support each part of your answer" ++ nl ++
  nl ++
  "FORMAT YOUR RESPONSE AS:" ++ nl ++
  "**Answer:** [Your concise answer with inline citations]" ++ nl ++
  nl ++
  "**Evidence:**" ++ nl ++
  "- [Citation]: Relevant quote or paraphrase from that chunk" ++ nl ++
  nl ++
  "If information is not found, respond with:" ++ nl ++
  "**Answer:** Not found in the document.".

(** The reply forced when nothing was retrieved. *)
Definition not_found_answer : string :=
  "**Answer:** Not found in the document.".

(** One line of the history text of [reformulate_query]. *)
Definition history_line (turn : Turn) : string :=
  "User: " ++ user turn ++ nl ++ "Assistant: "
           ++ Py.take 200 (assistant turn) ++ "..." ++ nl ++ nl.

Definition reformulation_messages (history : list Turn) (query : string)
  : list (string * string) :=
  let history_text :=
    fold_left (fun acc turn => (acc ++ history_line turn)%string)
              (slice_from (-4) history) ""%string in
  [("system", reformulation_prompt);
   ("user",
    "Conversation history:" ++ nl ++ history_text ++ nl ++ nl
      ++ "Latest question: " ++ query ++ nl ++ nl
      ++ "Reformulated question:")].

(** [build_context] *)
Definition build_context (retrieved : list ScoredResult) : string :=
  if Chunker.is_empty retrieved
  then "No relevant context found in the document."
  else
    Py.join (nl ++ nl ++ "---" ++ nl ++ nl)
            (map (fun chunk =>
                    ("[" ++ res_citation chunk ++ "]" ++ nl
                         ++ res_text chunk)%string)
                 retrieved).

Definition answer_messages (query context : string)
  : list (string * string) :=
  [("system", answer_prompt);
   ("user",
    "CONTEXT FROM DOCUMENT:" ++ nl ++ context ++ nl ++ nl
      ++ "USER QUESTION: " ++ query ++ nl ++ nl
      ++ "Remember:" ++ nl
      ++ "- Only answer using the context above" ++ nl
      ++ "- Include citations [pX:cY] for page X, chunk Y" ++ nl
      ++ "- If not found in context, say " ++ dq
      ++ "Not found in the document." ++ dq ++ nl)].

(** [_validate_answer] *)
Definition _validate_answer (answer : string)
           (retrieved : list ScoredResult) : string :=
  if Chunker.is_empty retrieved then not_found_answer
  else if contains "not found in the document" (Py.lower answer) then answer
  else
    let has_citations := contains "[p" answer || contains "[c" answer in
    if has_citations then answer
    else
      let available_citations := map res_citation (take 3 retrieved) in
      if Chunker.is_empty available_citations then answer
      else (answer ++ nl ++ nl ++ "*Sources: "
                   ++ Py.join ", " available_citations ++ "*")%string.

(** The default weights of [search_hybrid]. *)
Definition default_vector_weight : float := Float.ratio 6 10.
Definition default_bm25_weight : float := Float.ratio 4 10.

(** [self.conversation_history.append(turn)] and the trimming after it. *)
Definition remember (self : ConversationalAgent) (turn : Turn)
  : ConversationalAgent :=
  let history := (conversation_history self ++ [turn])%list in
  {| model := model self;
     temperature := temperature self;
     max_history_turns := max_history_turns self;
     conversation_history :=
       if Z.of_nat (length history) >? max_history_turns self
       then slice_from (- max_history_turns self) history
       else history |}.

(** [clear_history] *)
Definition clear_history (self : ConversationalAgent) : ConversationalAgent :=
  {| model := model self;
     temperature := temperature self;
     max_history_turns := max_history_turns self;
     conversation_history := [] |}.

Section Services.

(** A chat completion: model, messages, temperature and token limit give the
    content of the first choice, or fail. *)
Variable chat :
  string -> list (string * string) -> float -> Z -> Result string.
Variable embed : list string -> Result (list Embedding).
Variable distance : Embedding -> Embedding -> float.
Variable get_scores : list (list string) -> list string -> list float.
Variable argsort : list float -> list nat.

(** [reformulate_query] *)
Definition reformulate_query (self : ConversationalAgent) (query : string)
  : Result string :=
  if Chunker.is_empty (conversation_history self) then Ok query
  else
    content ← chat "gpt-4o-mini"
                   (reformulation_messages (conversation_history self) query)
                   Float.zero 200;
    Ok (Py.strip content).

(** [generate_answer] *)
Definition generate_answer (self : ConversationalAgent)
           (query context : string) (retrieved : list ScoredResult)
  : Result string :=
  content ← chat (model self) (answer_messages query context)
                 (temperature self) 1000;
  Ok (_validate_answer (Py.strip content) retrieved).

(** [ask]: the agent afterwards, and the answer with the retrieved chunks. *)
Definition ask (self : ConversationalAgent) (retriever : HybridRetriever)
           (query : string) (top_k : Z)
  : ConversationalAgent * Result (string * list ScoredResult) :=
  match reformulate_query self query with
  | Raise e => (self, Raise e)
  | Ok reformulated_query =>
      match search_hybrid embed distance get_scores argsort retriever
                          reformulated_query top_k
                          default_vector_weight default_bm25_weight with
      | Raise e => (self, Raise e)
      | Ok retrieved =>
          let context := build_context retrieved in
          match generate_answer self reformulated_query context retrieved with
          | Raise e => (self, Raise e)
          | Ok answer =>
              (remember self {| user := query;
                                assistant := answer;
                                retrieved_chunks := retrieved |},
               Ok (answer, retrieved))
          end
      end
  end.

End Services.

End Agent.

(** ** The command-line chatbot ([main.py]) *)

Module Main.

Import Retriever.

(** The [RAGChatbot] object, without its agent, which ingestion and the
    detection of an index do not touch. *)
Record RAGChatbot := {
  chunk_size : Z;
  chunk_overlap : Z;
  retriever : HybridRetriever;
  is_indexed : bool;
  document_name : option string
}.

(** [RAGChatbot(chunk_size, chunk_overlap)] on the store found in the
    directory. *)
Definition init (store : gmap string (list Row)) (chunk_size chunk_overlap : Z)
  : RAGChatbot :=
  {| chunk_size := chunk_size;
     chunk_overlap := chunk_overlap;
     retriever := Retriever.init "document_chunks" store;
     is_indexed := false;
     document_name := None |}.

Definition with_retriever (self : RAGChatbot) (r : HybridRetriever)
           (indexed : bool) (name : option string) : RAGChatbot :=
  {| chunk_size := chunk_size self;
     chunk_overlap := chunk_overlap self;
     retriever := r;
     is_indexed := indexed;
     document_name := name |}.


(** [check_existing_index]: the loop over the collections stops at the one
    named [document_chunks]. *)
Definition check_existing_index (self : RAGChatbot) : RAGChatbot * bool :=
  let r := retriever self in
  match chroma_client r !! "document_chunks" with
  | None => (self, false)
  | Some rows =>
      if 0 <? Z.of_nat (length rows) then
        let r := with_collection r "document_chunks" in
        match _rebuild_bm25_from_collection r with
        | (r, Ok _) => (with_retriever self r true (document_name self), true)
        | (r, Raise _) =>
            (with_retriever self r true (document_name self), false)
        end
      else (self, false)
  end.

End Main.

(** ** Sample services and states of a conversation *)

Module Dialogue.

Import Retriever Samples.

(** A chat service that always writes the same sentence, without any
    citation and with blanks around it. *)
Definition chat_ok (model : string) (messages : list (string * string))
           (temperature : float) (max_tokens : Z) : Result string :=
  Ok "  Revenue grew by 20%.  ".

(** The agent of the command-line chatbot before its first question. *)
Definition agent : Agent.ConversationalAgent := Agent.init "gpt-4o-mini".

(** The retriever of a process started on the store a failed re-index
    left behind: it holds the collection, without any document. *)
Definition emptied : HybridRetriever :=
  fst (index_chunks embed_ok restarted_after_failure [airport] false).

(** The rows of the self-test as a store may return them, the later chunk
    first, and a retriever holding that collection. *)
Definition shuffled_rows : list Row :=
  [Stored.row_of margin [Float.of_Z 29];
   Stored.row_of revenue [Float.of_Z 39]].

Definition shuffled : HybridRetriever :=
  with_collection (init name {[ name := shuffled_rows ]}) name.

End Dialogue.

(** * Properties of the chunk segmenter *)

Section ChunkerProperties.

Import Chunker.

Variable self : TextChunker.

Lemma erase_step (st : Traced) (sentence : string) :
  chunk_text_step self (erase st) sentence
  = erase (traced_step self st sentence).
Proof.
  assert (Hid : forall l, map emitted_text (map unseeded l) = l).
  { intros l. rewrite map_map. apply map_id. }
  unfold chunk_text_step, traced_step, erase, close_open; cbn [chunks current current_size].
  destruct (count_tokens self sentence >? chunk_size self).
  - destruct (is_empty (open st));
      cbn [chunks current current_size emitted open open_size seed];
      rewrite !map_app, Hid; reflexivity.
  - destruct ((open_size st + count_tokens self sentence >? chunk_size self)
              && negb (is_empty (open st))).
    + destruct (overlap_of self (open st)) as [os osz].
      cbn [chunks current current_size emitted open open_size seed].
      rewrite map_app. reflexivity.
    + reflexivity.
Qed.

Lemma erase_fold (sentences : list string) (st : Traced) :
  fold_left (chunk_text_step self) sentences (erase st)
  = erase (fold_left (traced_step self) sentences st).
Proof.
  revert st; induction sentences as [|s rest IH]; intros st; simpl.
  - reflexivity.
  - rewrite erase_step. apply IH.
Qed.

Lemma erase_flush (st : Traced) :
  flush " " (erase st) = map emitted_text (traced_flush st).
Proof.
  unfold flush, traced_flush, erase, close_open;
    cbn [chunks current current_size].
  destruct (is_empty (open st)); [reflexivity|].
  rewrite map_app. reflexivity.
Qed.

Lemma trace_erase (text : string) :
  map emitted_text (_chunk_text_trace self text) = _chunk_text self text.
Proof.
  unfold _chunk_text_trace, _chunk_text.
  destruct (is_empty (split_into_sentences text)).
  - destruct (String.eqb (Py.strip text) ""); reflexivity.
  - rewrite <- erase_flush, <- erase_fold. reflexivity.
Qed.

(** *** The carried sentences *)

Lemma sum_tokens_app (l1 l2 : list string) :
  sum_tokens self (l1 ++ l2) = sum_tokens self l1 + sum_tokens self l2.
Proof.
  induction l1 as [|s l1 IH]; simpl; [reflexivity|].
  fold (sum_tokens self (l1 ++ l2)) (sum_tokens self l1).
  rewrite IH. lia.
Qed.

Lemma keep_overlap_spec (reversed_chunk : list string) :
  forall acc sz,
    sz = sum_tokens self acc ->
    sz <= chunk_overlap self ->
    let r := keep_overlap self reversed_chunk acc sz in
    (exists taken rest,
        reversed_chunk = (taken ++ rest)%list
        /\ fst r = (rev taken ++ acc)%list)
    /\ snd r = sum_tokens self (fst r)
    /\ snd r <= chunk_overlap self.
Proof.
  induction reversed_chunk as [|s rest IH]; intros acc sz Hsz Hle; simpl.
  - split; [|auto]. exists [], []. auto.
  - destruct (sz + count_tokens self s <=? chunk_overlap self) eqn:Hfit.
    + apply Z.leb_le in Hfit.
      destruct (IH (s :: acc) (sz + count_tokens self s)) as [Hex Hrest].
      * simpl. fold (sum_tokens self acc). lia.
      * exact Hfit.
      * split; [|exact Hrest].
        destruct Hex as (taken & rest' & -> & Hfst).
        exists (s :: taken), rest'. split; [reflexivity|].
        rewrite Hfst. simpl. now rewrite <- app_assoc.
    + simpl. split; [|auto]. exists [], (s :: rest). auto.
Qed.

Lemma overlap_of_spec (current_chunk : list string) :
  0 <= chunk_overlap self ->
  fst (overlap_of self current_chunk) `suffix_of` current_chunk
  /\ snd (overlap_of self current_chunk)
     = sum_tokens self (fst (overlap_of self current_chunk))
  /\ snd (overlap_of self current_chunk) <= chunk_overlap self.
Proof.
  intros Hov. unfold overlap_of.
  destruct (keep_overlap_spec (rev current_chunk) [] 0 eq_refl Hov)
    as ((taken & rest & Hrev & Hfst) & Hsum & Hle).
  split; [|auto].
  rewrite Hfst, app_nil_r.
  exists (rev rest).
  rewrite <- rev_app_distr, <- Hrev. now rewrite rev_involutive.
Qed.

Lemma well_linked_snoc (l : list Emitted) (b : Emitted) :
  well_linked l ->
  (forall a, last l = Some a -> carried b `suffix_of` pieces a) ->
  well_linked (l ++ [b]).
Proof.
  intros Hl Hb i x y Hx Hy.
  destruct (decide (S i < length l)%nat) as [Hlt|Hge].
  - rewrite lookup_app_l in Hx by lia. rewrite lookup_app_l in Hy by lia.
    eauto.
  - assert (Hi : (i < length l)%nat).
    { apply lookup_lt_Some in Hy. rewrite length_app in Hy. simpl in Hy. lia. }
    rewrite lookup_app_l in Hx by lia.
    rewrite lookup_app_r in Hy by lia.
    replace (S i - length l)%nat with 0%nat in Hy by lia.
    simpl in Hy. injection Hy as <-.
    apply Hb. rewrite last_lookup.
    replace (pred (length l)) with i by lia. exact Hx.
Qed.

Lemma well_linked_unseeded (texts : list string) :
  forall l, well_linked l -> well_linked (l ++ map unseeded texts).
Proof.
  induction texts as [|t texts IH]; intros l Hl; simpl.
  - now rewrite app_nil_r.
  - change (l ++ unseeded t :: map unseeded texts)%list
      with (l ++ [unseeded t] ++ map unseeded texts)%list.
    rewrite app_assoc. apply IH. apply well_linked_snoc; [exact Hl|].
    intros a _. apply suffix_nil.
Qed.

Lemma well_seeded_unseeded (t : string) :
  0 <= chunk_overlap self -> well_seeded self (unseeded t).
Proof. intros Hov. split; [apply prefix_nil | exact Hov]. Qed.

Lemma trace_inv_close (st : Traced) :
  trace_inv self st ->
  well_linked (close_open st)
  /\ Forall (well_seeded self) (close_open st).
Proof.
  intros [Hl Hs Hp Hz Hx]. unfold close_open. split.
  - apply well_linked_snoc; [exact Hl|]. exact Hx.
  - apply Forall_app. split; [exact Hs|].
    constructor; [|constructor]. split; assumption.
Qed.

Lemma trace_inv_step (st : Traced) (sentence : string) :
  0 <= chunk_overlap self ->
  trace_inv self st -> trace_inv self (traced_step self st sentence).
Proof.
  intros Hov Hinv.
  destruct (trace_inv_close st Hinv) as [Hcl Hcs].
  pose proof Hinv as [Hl Hs Hp Hz Hx].
  unfold traced_step.
  destruct (count_tokens self sentence >? chunk_size self).
  - assert (Hnew : Forall (well_seeded self)
                          (map unseeded (_split_long_sentence self sentence))).
    { apply Forall_forall. intros e He. apply list_elem_of_In in He.
      apply in_map_iff in He as (t & <- & _).
      now apply well_seeded_unseeded. }
    destruct (open st) as [|s0 rest] eqn:Hopen; cbn [is_empty];
      cbn [emitted open open_size seed].
    + apply prefix_nil_inv in Hp.
      constructor; cbn [emitted open open_size seed].
      * now apply well_linked_unseeded.
      * apply Forall_app; auto.
      * rewrite Hopen, Hp. apply prefix_nil.
      * exact Hz.
      * intros a _. rewrite Hp. apply suffix_nil.
    + constructor; cbn [emitted open open_size seed].
      * now apply well_linked_unseeded.
      * apply Forall_app; auto.
      * apply prefix_nil.
      * exact Hov.
      * intros a _. apply suffix_nil.
  - destruct ((open_size st + count_tokens self sentence >? chunk_size self)
              && negb (is_empty (open st))).
    + destruct (overlap_of_spec (open st) Hov) as (Hsuf & Hsum & Hle).
      destruct (overlap_of self (open st)) as [os osz].
      simpl in Hsuf, Hsum, Hle.
      constructor; cbn [emitted open open_size seed].
      * exact Hcl.
      * exact Hcs.
      * now apply prefix_app_r.
      * lia.
      * intros a Ha. unfold close_open in Ha. rewrite last_snoc in Ha.
        injection Ha as <-. exact Hsuf.
    + constructor; cbn [emitted open open_size seed]; auto.
      now apply prefix_app_r.
Qed.

Lemma trace_inv_fold (sentences : list string) :
  0 <= chunk_overlap self ->
  forall st,
    trace_inv self st ->
    trace_inv self (fold_left (traced_step self) sentences st).
Proof.
  intros Hov. induction sentences as [|s rest IH]; intros st Hinv; simpl.
  - exact Hinv.
  - apply IH. now apply trace_inv_step.
Qed.

Lemma trace_inv_init :
  0 <= chunk_overlap self ->
  trace_inv self {| emitted := []; open := []; open_size := 0; seed := [] |}.
Proof.
  intros Hov. constructor; simpl.
  - intros i a b Ha. destruct i; discriminate.
  - constructor.
  - apply prefix_nil.
  - exact Hov.
  - discriminate.
Qed.

Lemma chunk_text_trace_inv (text : string) :
  0 <= chunk_overlap self ->
  well_linked (_chunk_text_trace self text)
  /\ Forall (well_seeded self) (_chunk_text_trace self text).
Proof.
  intros Hov. unfold _chunk_text_trace.
  destruct (is_empty (split_into_sentences text)).
  - destruct (String.eqb (Py.strip text) "").
    + split; [|constructor]. intros i a b Ha. destruct i; discriminate.
    + split.
      * intros i a b Ha Hb. destruct i; discriminate.
      * constructor; [|constructor]. now apply well_seeded_unseeded.
  - pose proof (trace_inv_fold (split_into_sentences text) Hov _
                  (trace_inv_init Hov)) as Hinv.
    unfold traced_flush.
    destruct (is_empty (open _)).
    + destruct Hinv. auto.
    + now apply trace_inv_close.
Qed.

(** C8.  With a non-negative overlap parameter, the sentences carried from
    a chunk into the next one of the same page are a trailing run of the
    earlier chunk's sentences and a leading run of the later chunk's, and
    their summed token count is at most [chunk_overlap]; the traced chunks
    are exactly the chunks [_chunk_text] returns. *)
Theorem overlap_bound (text : string) :
  0 <= chunk_overlap self ->
  let trace := _chunk_text_trace self text in
  map emitted_text trace = _chunk_text self text
  /\ (forall i a b,
         trace !! i = Some a -> trace !! S i = Some b ->
         carried b `suffix_of` pieces a
         /\ carried b `prefix_of` pieces b
         /\ sum_tokens self (carried b) <= chunk_overlap self)
  /\ (forall b, b ∈ trace ->
         carried b `prefix_of` pieces b
         /\ sum_tokens self (carried b) <= chunk_overlap self).
Proof.
  intros Hov trace.
  destruct (chunk_text_trace_inv text Hov) as [Hl Hs].
  fold trace in Hl, Hs.
  assert (Hall : forall b, b ∈ trace -> well_seeded self b).
  { intros b Hb. eapply Forall_forall in Hs; eauto. }
  split; [apply trace_erase|]. split.
  - intros i a b Ha Hb. split; [eapply Hl; eauto|].
    apply Hall. eapply list_elem_of_lookup_2; eauto.
  - exact Hall.
Qed.

(** *** The chunks of [chunk_pages] *)

Lemma emit_chunk_ok (page_num : Z) (chunk_text : string)
      (st : list Chunk * Z) :
  Forall (emitted_ok self) (fst st) ->
  Forall (emitted_ok self) (fst (emit_chunk self page_num st chunk_text)).
Proof.
  destruct st as [all_chunks chunk_id]. unfold emit_chunk. intros Hall.
  destruct (Py.len (Py.strip chunk_text) >=? min_chunk_size self) eqn:Hlen;
    [|exact Hall].
  simpl. apply Forall_app. split; [exact Hall|].
  constructor; [|constructor].
  split; [simpl; lia|]. split; [reflexivity|].
  exists chunk_text. auto.
Qed.

Lemma chunk_page_ok (page : Page) (st : list Chunk * Z) :
  Forall (emitted_ok self) (fst st) ->
  Forall (emitted_ok self) (fst (chunk_page self st page)).
Proof.
  unfold chunk_page.
  destruct (String.eqb (page_text page) ""
            || (Py.len (Py.strip (page_text page)) <? min_chunk_size self));
    [auto|].
  generalize (_chunk_text self (page_text page)). intros texts.
  revert st. induction texts as [|t texts IH]; intros st Hst; simpl.
  - exact Hst.
  - apply IH. now apply emit_chunk_ok.
Qed.

Lemma chunk_pages_ok (pages_data : list Page) :
  Forall (emitted_ok self) (chunk_pages self pages_data).
Proof.
  unfold chunk_pages.
  assert (H : forall st, Forall (emitted_ok self) (fst st) ->
                         Forall (emitted_ok self)
                           (fst (fold_left (chunk_page self) pages_data st))).
  { induction pages_data as [|p rest IH]; intros st Hst; simpl.
    - exact Hst.
    - apply IH. now apply chunk_page_ok. }
  apply H. constructor.
Qed.

(** The citation of a chunk of [chunk_pages] is built from its own page
    number and identifier. *)
Lemma chunk_pages_citation (pages_data : list Page) (c : Chunk) :
  c ∈ chunk_pages self pages_data ->
  citation c = page_citation (page_num c) (chunk_id c).
Proof.
  intros Hc. pose proof (chunk_pages_ok pages_data) as Hall.
  eapply Forall_forall in Hall; eauto. apply Hall.
Qed.

(** C7, as the code has it.  The minimum applies to the length in
    characters of the stripped text of a chunk, not to its token count:
    every chunk of [chunk_pages] has a text of at least [min_chunk_size]
    characters, hence a non-empty one when the minimum is positive, and its
    [token_count] is the token count of the text before stripping. *)
Theorem chunk_min_length (pages_data : list Page) (c : Chunk) :
  c ∈ chunk_pages self pages_data ->
  min_chunk_size self <= Py.len (text c)
  /\ (0 < min_chunk_size self -> text c <> "")
  /\ exists chunk_text,
       text c = Py.strip chunk_text
       /\ token_count c = count_tokens self chunk_text.
Proof.
  intros Hc. pose proof (chunk_pages_ok pages_data) as Hall.
  eapply Forall_forall in Hall; eauto.
  destruct Hall as (Hlen & _ & Htok).
  split; [exact Hlen|]. split; [|exact Htok].
  intros Hmin Hempty. rewrite Hempty in Hlen. unfold Py.len in Hlen.
  simpl in Hlen. lia.
Qed.

(** *** Where the target size is not enforced *)

(** A sentence the clause pattern does not cut comes back whole from
    [_split_long_sentence], whatever its size and for any tokenizer. *)
Lemma split_long_sentence_single_clause (sentence : string) :
  split_clauses sentence = [sentence] ->
  chunk_size self < count_tokens self sentence ->
  _split_long_sentence self sentence = [sentence].
Proof.
  intros Hone Hlong. unfold _split_long_sentence. rewrite Hone.
  cbn [fold_left]. unfold long_sentence_step. cbn [current current_size chunks].
  replace (0 + count_tokens self sentence >? chunk_size self) with true
    by (symmetry; rewrite Z.gtb_ltb; apply Z.ltb_lt; lia).
  reflexivity.
Qed.

(** Two sentences that each fit, the first within the overlap, and that do
    not fit together: the first is closed alone, carried over, and the
    second is appended to it without a new comparison with the target. *)
Lemma seeded_chunk_unchecked (s1 s2 : string) :
  count_tokens self s1 <= chunk_overlap self ->
  count_tokens self s1 <= chunk_size self ->
  count_tokens self s2 <= chunk_size self ->
  chunk_size self < count_tokens self s1 + count_tokens self s2 ->
  flush " " (fold_left (chunk_text_step self) [s1; s2]
                       {| chunks := []; current := []; current_size := 0 |})
  = [s1; Py.join " " [s1; s2]]
  /\ chunk_size self < sum_tokens self [s1; s2].
Proof.
  intros Hov H1 H2 Hsum. split; [|simpl; lia].
  cbn [fold_left]. unfold chunk_text_step at 2.
  cbn [current current_size chunks is_empty negb].
  replace (count_tokens self s1 >? chunk_size self) with false
    by (symmetry; rewrite Z.gtb_ltb; apply Z.ltb_ge; lia).
  replace (0 + count_tokens self s1 >? chunk_size self) with false
    by (symmetry; rewrite Z.gtb_ltb; apply Z.ltb_ge; lia).
  cbn [andb current current_size chunks app].
  unfold chunk_text_step.
  cbn [current current_size chunks is_empty negb].
  replace (count_tokens self s2 >? chunk_size self) with false
    by (symmetry; rewrite Z.gtb_ltb; apply Z.ltb_ge; lia).
  replace (0 + count_tokens self s1 + count_tokens self s2
           >? chunk_size self) with true
    by (symmetry; rewrite Z.gtb_ltb; apply Z.ltb_lt; lia).
  cbn [andb]. unfold overlap_of. cbn [rev app keep_overlap].
  replace (0 + count_tokens self s1 <=? chunk_overlap self) with true
    by (symmetry; apply Z.leb_le; lia).
  reflexivity.
Qed.

End ChunkerProperties.

Section ChunkerExamples.

Import Chunker Samples.

(** C7, counterexample.  On the chunker's own test page the only chunk has
    18 tokens, below the minimum chunk size of 50. *)
Lemma token_count_below_minimum :
  self_test_chunk ∈ chunk_pages self_test [test_page]
  /\ token_count self_test_chunk < min_chunk_size self_test.
Proof.
  split; [|reflexivity].
  apply list_elem_of_In. vm_compute. left. reflexivity.
Qed.

(** [chunk_min_length] on the chunk of the self-test. *)
Lemma chunk_min_length_witness :
  self_test_chunk ∈ chunk_pages self_test [test_page]
  /\ min_chunk_size self_test <= Py.len (text self_test_chunk)
  /\ text self_test_chunk <> "".
Proof.
  assert (Hc : self_test_chunk ∈ chunk_pages self_test [test_page]).
  { apply list_elem_of_In. vm_compute. left. reflexivity. }
  split; [exact Hc|].
  destruct (chunk_min_length self_test [test_page] self_test_chunk Hc)
    as (Hlen & Hne & _).
  split; [exact Hlen|]. apply Hne. reflexivity.
Defined.

(** [overlap_bound] on the test page, target 8 and overlap 5. *)
Lemma overlap_bound_witness :
  0 <= chunk_overlap small
  /\ forall b, b ∈ _chunk_text_trace small (page_text test_page) ->
               carried b `prefix_of` pieces b
               /\ sum_tokens small (carried b) <= chunk_overlap small.
Proof.
  assert (Hov : 0 <= chunk_overlap small) by (vm_compute; discriminate).
  split; [exact Hov|].
  apply (overlap_bound small (page_text test_page) Hov).
Defined.

(** C2, at the failing inputs.  With a target of 8 tokens and an overlap
    of 5, the second and third chunk of the test page have 10 and 13
    tokens: the sentences carried over are not counted against the target
    when the next sentence is appended.  A sentence of 13 tokens without
    comma or semicolon leaves the clause splitting as one chunk of 13
    tokens. *)
Theorem chunk_exceeds_target :
  _chunk_text small (page_text test_page)
  = ["This is the first sentence.";
     "This is the first sentence. This is the second sentence.";
     "This is the second sentence. Here comes a third one with more content.";
     "And finally the fourth sentence."]
  /\ map (count_tokens small) (_chunk_text small (page_text test_page))
     = [5; 10; 13; 5]
  /\ map token_count (chunk_pages small [test_page]) = [10; 13]
  /\ _split_long_sentence small
       "Here comes a third one with more content and no clause break at all."
     = ["Here comes a third one with more content and no clause break at all."]
  /\ count_tokens small
       "Here comes a third one with more content and no clause break at all."
     = 14
  /\ chunk_size small = 8.
Proof. vm_compute. repeat split. Qed.

(** C9, at the failing input.  When two files are uploaded, the chunk of
    the second file ends with identifier 1 while its citation still carries
    the identifier 0 it had within its file. *)
Theorem merged_citation_keeps_file_id :
  map (fun c => (chunk_id c, citation c))
      (App.upload_chunks None [first_file; second_file])
  = [(0, "[annual_report.pdf:p1:c0]");
     (1, "[quarterly_results_pr...:p1:c0]")]
  /\ map (fun c => (chunk_id c, citation c))
         (App.upload_chunks None [second_file])
     = [(0, "[p1:c0]")].
Proof. vm_compute. split; reflexivity. Qed.

End ChunkerExamples.

(** * The order of floats *)

Section FloatOrder.

Lemma compare_key (a b : float) :
  Float.is_nan a = false -> Float.is_nan b = false ->
  SFcompare a b
  = Some (match Float.order_key a, Float.order_key b with
          | (a1, a2, a3), (b1, b2, b3) =>
              match a1 ?= b1 with
              | Eq => match a2 ?= b2 with
                      | Eq => a3 ?= b3
                      | c => c
                      end
              | c => c
              end
          end).
Proof.
  destruct a as [sa|sa| |sa ma ea], b as [sb|sb| |sb mb eb];
    try discriminate; intros _ _; cbn [SFcompare Float.order_key];
    try (destruct sa); try (destruct sb); try reflexivity.
  rewrite !Z.compare_opp, (Z.compare_antisym ea eb).
  change (Z.pos mb ?= Z.pos ma) with (Pos.compare mb ma).
  rewrite (Pos.compare_antisym ma mb).
  destruct (ea ?= eb); reflexivity.
Qed.

Lemma ltb_key (a b : float) :
  Float.is_nan a = false -> Float.is_nan b = false ->
  (a <? b)%float = true
  <-> Float.key_lt (Float.order_key a) (Float.order_key b).
Proof.
  intros Ha Hb. unfold Float.ltb, SFltb. rewrite (compare_key a b Ha Hb).
  destruct (Float.order_key a) as [[a1 a2] a3].
  destruct (Float.order_key b) as [[b1 b2] b3].
  unfold Float.key_lt.
  destruct (Z.compare_spec a1 b1);
    [|split; [lia|reflexivity]|split; [discriminate|lia]].
  destruct (Z.compare_spec a2 b2);
    [|split; [lia|reflexivity]|split; [discriminate|lia]].
  destruct (Z.compare_spec a3 b3); split; try lia; try discriminate;
    reflexivity.
Qed.

Lemma eqb_key (a b : float) :
  (a =? b)%float = true ->
  Float.is_nan a = false /\ Float.is_nan b = false
  /\ Float.order_key a = Float.order_key b.
Proof.
  unfold Float.eqb, SFeqb. intros H.
  assert (Ha : Float.is_nan a = false).
  { destruct a; try reflexivity. discriminate. }
  assert (Hb : Float.is_nan b = false).
  { destruct b; try reflexivity. destruct a; discriminate. }
  split; [exact Ha|]. split; [exact Hb|].
  rewrite (compare_key a b Ha Hb) in H.
  destruct (Float.order_key a) as [[a1 a2] a3].
  destruct (Float.order_key b) as [[b1 b2] b3].
  destruct (Z.compare_spec a1 b1); try discriminate.
  destruct (Z.compare_spec a2 b2); try discriminate.
  destruct (Z.compare_spec a3 b3); try discriminate.
  congruence.
Qed.

Lemma ltb_nan_l (a b : float) :
  Float.is_nan a = true -> (a <? b)%float = false.
Proof. destruct a; try discriminate. reflexivity. Qed.

Lemma ltb_nan_r (a b : float) :
  Float.is_nan b = true -> (a <? b)%float = false.
Proof. destruct b; try discriminate. destruct a; reflexivity. Qed.

Lemma ltb_asym (a b : float) :
  (a <? b)%float = true -> (b <? a)%float = false.
Proof.
  intros H.
  destruct (Float.is_nan a) eqn:Ha; [now rewrite ltb_nan_l in H|].
  destruct (Float.is_nan b) eqn:Hb; [now rewrite ltb_nan_r in H|].
  apply (ltb_key a b Ha Hb) in H.
  destruct (b <? a)%float eqn:E; [|reflexivity].
  apply (ltb_key b a Hb Ha) in E.
  destruct (Float.order_key a) as [[a1 a2] a3].
  destruct (Float.order_key b) as [[b1 b2] b3].
  unfold Float.key_lt in *. lia.
Qed.

(** Not being smaller is transitive through a number. *)
Lemma not_ltb_trans (a b c : float) :
  Float.is_nan b = false ->
  (a <? b)%float = false -> (b <? c)%float = false ->
  (a <? c)%float = false.
Proof.
  intros Hb Hab Hbc.
  destruct (Float.is_nan a) eqn:Ha; [now apply ltb_nan_l|].
  destruct (Float.is_nan c) eqn:Hc; [now apply ltb_nan_r|].
  destruct (a <? c)%float eqn:E; [|reflexivity].
  apply (ltb_key a c Ha Hc) in E.
  assert (Hab' : ~ Float.key_lt (Float.order_key a) (Float.order_key b)).
  { intros H. apply (ltb_key a b Ha Hb) in H. congruence. }
  assert (Hbc' : ~ Float.key_lt (Float.order_key b) (Float.order_key c)).
  { intros H. apply (ltb_key b c Hb Hc) in H. congruence. }
  destruct (Float.order_key a) as [[a1 a2] a3].
  destruct (Float.order_key b) as [[b1 b2] b3].
  destruct (Float.order_key c) as [[c1 c2] c3].
  unfold Float.key_lt in *. lia.
Qed.

Lemma eqb_not_ltb (a b q : float) :
  (a =? q)%float = true -> (b =? q)%float = true ->
  (a <? b)%float = false.
Proof.
  intros Ha Hb.
  apply eqb_key in Ha as (Hna & _ & Ka), Hb as (Hnb & _ & Kb).
  destruct (a <? b)%float eqn:E; [|reflexivity].
  apply (ltb_key a b Hna Hnb) in E. rewrite Ka, Kb in E.
  destruct (Float.order_key q) as [[q1 q2] q3].
  unfold Float.key_lt in E. lia.
Qed.

End FloatOrder.

(** * Properties of the rank fusion *)

Section SortProperties.

Import Retriever.

Context {A : Type} (key : A -> float).

(** Sorting by descending key, as [sorted(..., reverse=True)] does. *)
Let before (y x : A) : bool := (key x <? key y)%float.

Lemma insert_stable_perm (x : A) (l : list A) :
  Permutation (insert_stable before x l) (x :: l).
Proof.
  induction l as [|y l IH]; simpl; [reflexivity|].
  destruct (before y x); [|reflexivity].
  rewrite IH. apply perm_swap.
Qed.

Lemma sort_stable_perm (l : list A) : Permutation (sort_stable before l) l.
Proof.
  induction l as [|x l IH]; simpl; [reflexivity|].
  rewrite insert_stable_perm. now constructor.
Qed.

Lemma insert_stable_descending (x : A) (l : list A) :
  numbers key l ->
  descending key l -> descending key (insert_stable before x l).
Proof.
  unfold descending, numbers.
  induction l as [|y l IH]; intros Hn Hs; simpl.
  - constructor; constructor.
  - apply StronglySorted_inv in Hs as [Hs Hy].
    apply Forall_cons in Hn as [Hny Hn].
    destruct (before y x) eqn:E; unfold before in E.
    + constructor; [now apply IH|].
      apply Forall_forall. intros z Hz.
      apply list_elem_of_In in Hz.
      eapply Permutation_in in Hz; [|apply insert_stable_perm].
      destruct Hz as [<-|Hz]; [now apply ltb_asym|].
      rewrite Forall_forall in Hy. apply Hy. now apply list_elem_of_In.
    + constructor; [now constructor|].
      constructor; [exact E|].
      apply Forall_forall. intros z Hz.
      rewrite Forall_forall in Hy. specialize (Hy z Hz).
      now apply (not_ltb_trans _ (key y)).
Qed.

Lemma sort_stable_numbers (l : list A) :
  numbers key l -> numbers key (sort_stable before l).
Proof.
  unfold numbers. intros Hn. apply Forall_forall. intros x Hx.
  rewrite Forall_forall in Hn. apply Hn.
  apply list_elem_of_In. eapply Permutation_in; [apply sort_stable_perm|].
  now apply list_elem_of_In.
Qed.

Lemma sort_stable_descending (l : list A) :
  numbers key l -> descending key (sort_stable before l).
Proof.
  induction l as [|x l IH]; intros Hn; simpl.
  - constructor.
  - apply Forall_cons in Hn as [_ Hn].
    apply insert_stable_descending; [now apply sort_stable_numbers|].
    now apply IH.
Qed.

(** Stability: the elements of any one key keep their order. *)
Lemma insert_stable_tied (q : float) (x : A) (l : list A) :
  List.filter (fun e => (key e =? q)%float) (insert_stable before x l)
  = List.filter (fun e => (key e =? q)%float) (x :: l).
Proof.
  induction l as [|y l IH]; [reflexivity|].
  simpl insert_stable.
  destruct (before y x) eqn:E; [|reflexivity].
  unfold before in E.
  simpl in *. rewrite IH.
  destruct (key y =? q)%float eqn:Ey, (key x =? q)%float eqn:Ex;
    try reflexivity.
  rewrite (eqb_not_ltb _ _ q Ex Ey) in E. discriminate.
Qed.

Lemma sort_stable_tied (q : float) (l : list A) :
  List.filter (fun e => (key e =? q)%float) (sort_stable before l)
  = List.filter (fun e => (key e =? q)%float) l.
Proof.
  induction l as [|x l IH]; [reflexivity|].
  simpl sort_stable. rewrite insert_stable_tied. simpl. now rewrite IH.
Qed.

End SortProperties.

Section TableProperties.

Import Retriever.

Lemma contains_lookup (d : Scores) (k : Z) :
  contains d k = match lookup_key d k with Some _ => true | None => false end.
Proof.
  induction d as [|[k0 v] d IH]; simpl; [reflexivity|].
  destruct (k0 =? k); simpl; auto.
Qed.

Lemma lookup_key_app (d1 d2 : Scores) (k : Z) :
  lookup_key (d1 ++ d2)%list k
  = match lookup_key d1 k with
    | Some e => Some e
    | None => lookup_key d2 k
    end.
Proof.
  induction d1 as [|[k0 v] d1 IH]; simpl; [reflexivity|].
  destruct (k0 =? k); auto.
Qed.

Lemma lookup_update (d : Scores) (key : Z) (f : Fused -> Fused) (k : Z) :
  lookup_key (update d key f) k
  = if key =? k then option_map f (lookup_key d k) else lookup_key d k.
Proof.
  induction d as [|[k0 v] d IH]; simpl.
  - now destruct (key =? k).
  - destruct (Z.eqb_spec k0 key) as [->|Hne]; simpl.
    + destruct (Z.eqb_spec key k) as [->|Hne']; simpl; [reflexivity|].
      reflexivity.
    + destruct (Z.eqb_spec k0 k) as [->|Hne'].
      * destruct (Z.eqb_spec key k); [congruence|reflexivity].
      * exact IH.
Qed.

Lemma lookup_setdefault (d : Scores) (key : Z) (v : Fused) (k : Z) :
  lookup_key (setdefault d key v) k
  = match lookup_key d k with
    | Some e => Some e
    | None => if key =? k then Some v else None
    end.
Proof.
  unfold setdefault. rewrite contains_lookup.
  destruct (lookup_key d key) eqn:Hkey.
  - destruct (lookup_key d k) eqn:Hk; [reflexivity|].
    destruct (Z.eqb_spec key k); [congruence|reflexivity].
  - rewrite lookup_key_app. simpl. reflexivity.
Qed.

(** The entry of [key] after one step of either loop. *)
Lemma lookup_vector_step (w : float) (d : Scores) (rank : Z) (c : Hit) (s : float)
      (k : Z) :
  lookup_key (vector_step w d (rank, (c, s))) k
  = if hit_chunk_id c =? k
    then Some (set_vector_score s
                 (add_rrf (w / Float.of_Z (rrf_k + rank + 1))%float
                    (default {| chunk := c; vector_score := s;
                                bm25_score := Float.zero;
                                rrf_score := Float.zero |}
                             (lookup_key d k))))
    else lookup_key d k.
Proof.
  unfold vector_step. rewrite !lookup_update, lookup_setdefault.
  destruct (hit_chunk_id c =? k); destruct (lookup_key d k); reflexivity.
Qed.

Lemma lookup_bm25_step (w : float) (d : Scores) (rank : Z) (c : Hit) (s : float)
      (k : Z) :
  lookup_key (bm25_step w d (rank, (c, s))) k
  = if hit_chunk_id c =? k
    then Some (set_bm25_score s
                 (add_rrf (w / Float.of_Z (rrf_k + rank + 1))%float
                    (default {| chunk := c; vector_score := Float.zero;
                                bm25_score := s; rrf_score := Float.zero |}
                             (lookup_key d k))))
    else lookup_key d k.
Proof.
  unfold bm25_step. rewrite !lookup_update, lookup_setdefault.
  destruct (hit_chunk_id c =? k); destruct (lookup_key d k); reflexivity.
Qed.

Lemma score_vector_fold (w : float) (k : Z) (ranking : list (Hit * float)) :
  forall rank d,
    score_of (fold_left (vector_step w) (enumerate_from rank ranking) d) k
    = accumulated w rank ranking k (score_of d k).
Proof.
  induction ranking as [|[c s] rest IH]; intros rank d;
    cbn [fold_left enumerate_from accumulated]; [reflexivity|].
  rewrite IH. f_equal. unfold score_of. rewrite lookup_vector_step.
  destruct (hit_chunk_id c =? k); [|reflexivity].
  destruct (lookup_key d k); reflexivity.
Qed.

Lemma score_bm25_fold (w : float) (k : Z) (ranking : list (Hit * float)) :
  forall rank d,
    score_of (fold_left (bm25_step w) (enumerate_from rank ranking) d) k
    = accumulated w rank ranking k (score_of d k).
Proof.
  induction ranking as [|[c s] rest IH]; intros rank d;
    cbn [fold_left enumerate_from accumulated]; [reflexivity|].
  rewrite IH. f_equal. unfold score_of. rewrite lookup_bm25_step.
  destruct (hit_chunk_id c =? k); [|reflexivity].
  destruct (lookup_key d k); reflexivity.
Qed.

(** A loop leaves alone the entries of the identifiers it does not meet. *)
Lemma lookup_vector_fold_absent (w : float) (k : Z) (ranking : list (Hit * float)) :
  k ∉ ids ranking ->
  forall rank d,
    lookup_key (fold_left (vector_step w) (enumerate_from rank ranking) d) k
    = lookup_key d k.
Proof.
  induction ranking as [|[c s] rest IH]; intros Hk rank d;
    cbn [fold_left enumerate_from]; [reflexivity|].
  simpl in Hk. apply not_elem_of_cons in Hk as [Hne Hk].
  rewrite IH by exact Hk. rewrite lookup_vector_step.
  destruct (Z.eqb_spec (hit_chunk_id c) k); [congruence|reflexivity].
Qed.

Lemma lookup_bm25_fold_absent (w : float) (k : Z) (ranking : list (Hit * float)) :
  k ∉ ids ranking ->
  forall rank d,
    lookup_key (fold_left (bm25_step w) (enumerate_from rank ranking) d) k
    = lookup_key d k.
Proof.
  induction ranking as [|[c s] rest IH]; intros Hk rank d;
    cbn [fold_left enumerate_from]; [reflexivity|].
  simpl in Hk. apply not_elem_of_cons in Hk as [Hne Hk].
  rewrite IH by exact Hk. rewrite lookup_bm25_step.
  destruct (Z.eqb_spec (hit_chunk_id c) k); [congruence|reflexivity].
Qed.

(** The BM25 loop never writes a vector score, the vector loop never a
    BM25 score. *)
Lemma vector_of_bm25_fold (w : float) (k : Z) (ranking : list (Hit * float)) :
  forall rank d,
    vector_of (fold_left (bm25_step w) (enumerate_from rank ranking) d) k
    = vector_of d k.
Proof.
  induction ranking as [|[c s] rest IH]; intros rank d;
    cbn [fold_left enumerate_from]; [reflexivity|].
  rewrite IH. unfold vector_of. rewrite lookup_bm25_step.
  destruct (hit_chunk_id c =? k); [|reflexivity].
  destruct (lookup_key d k); reflexivity.
Qed.

Lemma bm25_of_vector_fold (w : float) (k : Z) (ranking : list (Hit * float)) :
  forall rank d,
    bm25_of (fold_left (vector_step w) (enumerate_from rank ranking) d) k
    = bm25_of d k.
Proof.
  induction ranking as [|[c s] rest IH]; intros rank d;
    cbn [fold_left enumerate_from]; [reflexivity|].
  rewrite IH. unfold bm25_of. rewrite lookup_vector_step.
  destruct (hit_chunk_id c =? k); [|reflexivity].
  destruct (lookup_key d k); reflexivity.
Qed.

(** An identifier met by a loop has an entry afterwards. *)
Lemma lookup_vector_fold_present (w : float) (k : Z)
      (ranking : list (Hit * float)) :
  forall rank d,
    k ∈ ids ranking \/ is_Some (lookup_key d k) ->
    is_Some (lookup_key
               (fold_left (vector_step w) (enumerate_from rank ranking) d) k).
Proof.
  induction ranking as [|[c s] rest IH]; intros rank d Hk; cbn [fold_left enumerate_from].
  - destruct Hk as [Hk|Hk]; [|exact Hk]. now apply elem_of_nil in Hk.
  - apply IH. rewrite lookup_vector_step.
    destruct (Z.eqb_spec (hit_chunk_id c) k) as [Heq|Hne]; [right; eauto|].
    destruct Hk as [Hk|Hk]; [|now right].
    simpl in Hk. apply elem_of_cons in Hk as [Hk|Hk]; [congruence|now left].
Qed.

Lemma lookup_bm25_fold_present (w : float) (k : Z) (ranking : list (Hit * float)) :
  forall rank d,
    k ∈ ids ranking \/ is_Some (lookup_key d k) ->
    is_Some (lookup_key
               (fold_left (bm25_step w) (enumerate_from rank ranking) d) k).
Proof.
  induction ranking as [|[c s] rest IH]; intros rank d Hk; cbn [fold_left enumerate_from].
  - destruct Hk as [Hk|Hk]; [|exact Hk]. now apply elem_of_nil in Hk.
  - apply IH. rewrite lookup_bm25_step.
    destruct (Z.eqb_spec (hit_chunk_id c) k) as [Heq|Hne]; [right; eauto|].
    destruct Hk as [Hk|Hk]; [|now right].
    simpl in Hk. apply elem_of_cons in Hk as [Hk|Hk]; [congruence|now left].
Qed.

(** *** The keys of the dictionary *)

Lemma contains_mem (d : Scores) (k : Z) : contains d k = mem k (keys d).
Proof.
  unfold mem, keys.
  induction d as [|[k0 v] d IH]; simpl; [reflexivity|].
  rewrite IH, (Z.eqb_sym k0 k). reflexivity.
Qed.

Lemma mem_elem_of (k : Z) (l : list Z) : mem k l = true <-> k ∈ l.
Proof.
  unfold mem. rewrite existsb_exists, list_elem_of_In. split.
  - intros (x & Hx & Heq). apply Z.eqb_eq in Heq. now subst.
  - intros H. exists k. split; [exact H|apply Z.eqb_refl].
Qed.

Lemma keys_update (d : Scores) (key : Z) (f : Fused -> Fused) :
  keys (update d key f) = keys d.
Proof.
  unfold keys. induction d as [|[k0 v] d IH]; simpl; [reflexivity|].
  destruct (k0 =? key); simpl; [reflexivity|]. now rewrite IH.
Qed.

Lemma keys_setdefault (d : Scores) (key : Z) (v : Fused) :
  keys (setdefault d key v) = add_key (keys d) key.
Proof.
  unfold setdefault, add_key. rewrite contains_mem.
  destruct (mem key (keys d)); [reflexivity|].
  unfold keys. now rewrite map_app.
Qed.

Lemma keys_vector_fold (w : float) (ranking : list (Hit * float)) :
  forall rank d,
    keys (fold_left (vector_step w) (enumerate_from rank ranking) d)
    = fold_left add_key (ids ranking) (keys d).
Proof.
  induction ranking as [|[c s] rest IH]; intros rank d;
    cbn [fold_left enumerate_from ids map fst]; [reflexivity|].
  fold (ids rest). rewrite IH. f_equal.
  unfold vector_step. now rewrite !keys_update, keys_setdefault.
Qed.

Lemma keys_bm25_fold (w : float) (ranking : list (Hit * float)) :
  forall rank d,
    keys (fold_left (bm25_step w) (enumerate_from rank ranking) d)
    = fold_left add_key (ids ranking) (keys d).
Proof.
  induction ranking as [|[c s] rest IH]; intros rank d;
    cbn [fold_left enumerate_from ids map fst]; [reflexivity|].
  fold (ids rest). rewrite IH. f_equal.
  unfold bm25_step. now rewrite !keys_update, keys_setdefault.
Qed.

Lemma filter_filter {A} (f g : A -> bool) (l : list A) :
  List.filter f (List.filter g l) = List.filter (fun y => g y && f y) l.
Proof.
  induction l as [|x l IH]; simpl; [reflexivity|].
  destruct (g x); simpl; [|exact IH].
  destruct (f x); now rewrite IH.
Qed.

Lemma filter_all {A} (f : A -> bool) (l : list A) :
  (forall x, f x = true) -> List.filter f l = l.
Proof.
  intros Hf. induction l as [|x l IH]; simpl; [reflexivity|].
  now rewrite Hf, IH.
Qed.

(** Adding keys one by one lists them in the order of their first
    appearance. *)
Lemma fold_add_key (l : list Z) :
  forall seen,
    fold_left add_key l seen
    = (seen ++ List.filter (fun y => negb (mem y seen))
                           (first_appearance l))%list.
Proof.
  induction l as [|x l IH]; intros seen; cbn [fold_left first_appearance].
  - simpl. now rewrite app_nil_r.
  - rewrite IH. unfold add_key.
    cbn [List.filter]. destruct (mem x seen) eqn:Hx; cbn [negb].
    + f_equal. rewrite filter_filter. apply List.filter_ext.
      intros y. destruct (Z.eqb_spec y x) as [->|Hne]; simpl;
        [now rewrite Hx|reflexivity].
    + rewrite <- app_assoc. f_equal. simpl. f_equal.
      rewrite filter_filter. apply List.filter_ext.
      intros y. unfold mem. rewrite existsb_app. simpl.
      rewrite orb_false_r, negb_orb. apply andb_comm.
Qed.

Lemma keys_rrf_table (vr br : list (Hit * float)) (vw bw : float) :
  keys (rrf_table vr br vw bw)
  = first_appearance (ids vr ++ ids br)%list.
Proof.
  unfold rrf_table, enumerate.
  rewrite keys_bm25_fold, keys_vector_fold, <- fold_left_app.
  rewrite fold_add_key. simpl. now apply filter_all.
Qed.

Lemma first_appearance_elem (l : list Z) (k : Z) :
  k ∈ first_appearance l <-> k ∈ l.
Proof.
  induction l as [|x l IH]; simpl; [reflexivity|].
  rewrite !elem_of_cons, <- IH, !list_elem_of_In, List.filter_In.
  rewrite negb_true_iff, Z.eqb_neq.
  destruct (Z.eq_dec k x); intuition.
Qed.

Lemma first_appearance_NoDup (l : list Z) : NoDup (first_appearance l).
Proof.
  induction l as [|x l IH]; simpl; constructor.
  - rewrite list_elem_of_In, List.filter_In, negb_true_iff, Z.eqb_neq.
    intuition.
  - now apply NoDup_ListNoDup, List.NoDup_filter, NoDup_ListNoDup.
Qed.

(** *** Entries and their chunks *)

Lemma keyed_update (d : Scores) (key : Z) (f : Fused -> Fused) :
  (forall e, chunk (f e) = chunk e) -> keyed d -> keyed (update d key f).
Proof.
  intros Hf. unfold keyed.
  induction d as [|[k0 v] d IH]; intros Hd; simpl; [constructor|].
  apply Forall_cons in Hd as [Hv Hd].
  destruct (k0 =? key); constructor; simpl in *; auto.
  now rewrite Hf.
Qed.

Lemma keyed_setdefault (d : Scores) (key : Z) (v : Fused) :
  hit_chunk_id (chunk v) = key -> keyed d -> keyed (setdefault d key v).
Proof.
  intros Hv Hd. unfold setdefault. destruct (contains d key); [exact Hd|].
  apply Forall_app. split; [exact Hd|]. constructor; [exact Hv|constructor].
Qed.

Lemma keyed_vector_fold (w : float) (ranking : list (Hit * float)) :
  forall rank d,
    keyed d ->
    keyed (fold_left (vector_step w) (enumerate_from rank ranking) d).
Proof.
  induction ranking as [|[c s] rest IH]; intros rank d Hd;
    cbn [fold_left enumerate_from]; [exact Hd|].
  apply IH. unfold vector_step.
  repeat apply keyed_update; try reflexivity.
  now apply keyed_setdefault.
Qed.

Lemma keyed_bm25_fold (w : float) (ranking : list (Hit * float)) :
  forall rank d,
    keyed d ->
    keyed (fold_left (bm25_step w) (enumerate_from rank ranking) d).
Proof.
  induction ranking as [|[c s] rest IH]; intros rank d Hd;
    cbn [fold_left enumerate_from]; [exact Hd|].
  apply IH. unfold bm25_step.
  repeat apply keyed_update; try reflexivity.
  now apply keyed_setdefault.
Qed.

Lemma keyed_rrf_table (vr br : list (Hit * float)) (vw bw : float) :
  keyed (rrf_table vr br vw bw).
Proof.
  unfold rrf_table, enumerate.
  apply keyed_bm25_fold, keyed_vector_fold. constructor.
Qed.

(** With distinct keys, an entry of the dictionary is the one found under
    its key. *)
Lemma lookup_key_elem (d : Scores) (k : Z) (e : Fused) :
  NoDup (keys d) -> (k, e) ∈ d -> lookup_key d k = Some e.
Proof.
  unfold keys. induction d as [|[k0 v] d IH]; intros Hnd Hin; simpl.
  - now apply elem_of_nil in Hin.
  - simpl in Hnd. apply NoDup_cons in Hnd as [Hk0 Hnd].
    apply elem_of_cons in Hin as [Heq|Hin].
    + injection Heq as <- <-. now rewrite Z.eqb_refl.
    + destruct (Z.eqb_spec k0 k) as [->|Hne]; [|now apply IH].
      exfalso. apply Hk0. apply list_elem_of_fmap. now exists (k, e).
Qed.

Lemma lookup_key_Some (d : Scores) (k : Z) (e : Fused) :
  lookup_key d k = Some e -> (k, e) ∈ d.
Proof.
  induction d as [|[k0 v] d IH]; simpl; [discriminate|].
  destruct (Z.eqb_spec k0 k) as [->|Hne].
  - intros [= ->]. apply elem_of_cons. now left.
  - intros H. apply elem_of_cons. right. now apply IH.
Qed.

End TableProperties.

Section FusionProperties.

Import Retriever.

Variables (vector_results bm25_results : list (Hit * float)).
Variables (vector_weight bm25_weight : float).

Let table : Scores :=
  rrf_table vector_results bm25_results vector_weight bm25_weight.

Lemma table_NoDup : NoDup (keys table).
Proof.
  unfold table. rewrite keys_rrf_table. apply first_appearance_NoDup.
Qed.

Lemma table_chunk_ids :
  map (fun e => hit_chunk_id (chunk e)) (map snd table) = keys table.
Proof.
  pose proof (keyed_rrf_table vector_results bm25_results
                vector_weight bm25_weight) as Hk.
  fold table in Hk. unfold keys, keyed in *.
  induction Hk as [|[k e] d Hke Hd IH]; simpl; [reflexivity|].
  simpl in Hke. now rewrite Hke, IH.
Qed.

Lemma sorted_perm : Permutation (sorted_by_rrf table) (map snd table).
Proof. apply (sort_stable_perm rrf_score). Qed.

Lemma sorted_NoDup :
  NoDup (map (fun e => hit_chunk_id (chunk e)) (sorted_by_rrf table)).
Proof.
  apply NoDup_ListNoDup.
  eapply Permutation_NoDup.
  - symmetry. apply Permutation_map. apply sorted_perm.
  - rewrite table_chunk_ids. apply NoDup_ListNoDup, table_NoDup.
Qed.

Lemma slice_to_sublist {A} (n : Z) (l : list A) :
  slice_to n l `sublist_of` l.
Proof. unfold slice_to. destruct (n <? 0); apply sublist_take. Qed.

Lemma slice_to_all {A} (n : Z) (l : list A) :
  Z.of_nat (length l) <= n -> slice_to n l = l.
Proof.
  intros Hn. unfold slice_to.
  destruct (Z.ltb_spec n 0); [lia|]. apply firstn_all2. lia.
Qed.

Lemma fusion_ids (top_k : Z) :
  map res_chunk_id
      (rrf_fusion vector_results bm25_results top_k
                  vector_weight bm25_weight)
  = map (fun e => hit_chunk_id (chunk e))
        (slice_to top_k (sorted_by_rrf table)).
Proof. unfold rrf_fusion. fold table. now rewrite map_map. Qed.

Lemma fusion_NoDup (top_k : Z) :
  NoDup (map res_chunk_id
             (rrf_fusion vector_results bm25_results top_k
                         vector_weight bm25_weight)).
Proof.
  rewrite fusion_ids.
  pose proof sorted_NoDup as Hnd.
  eapply sublist_NoDup in Hnd; [exact Hnd|].
  apply (fmap_sublist (fun e => hit_chunk_id (chunk e))).
  apply slice_to_sublist.
Qed.

(** The entry a result of the fusion was formatted from. *)
Lemma fusion_result_entry (top_k : Z) (r : ScoredResult) :
  r ∈ rrf_fusion vector_results bm25_results top_k
                 vector_weight bm25_weight ->
  exists e, lookup_key table (res_chunk_id r) = Some e
            /\ r = format_result e.
Proof.
  unfold rrf_fusion. fold table. intros Hr.
  apply list_elem_of_In, in_map_iff in Hr as (e & <- & He).
  exists e. split; [|reflexivity].
  apply list_elem_of_In in He.
  eapply elem_of_sublist in He; [|apply slice_to_sublist].
  apply list_elem_of_In in He.
  eapply Permutation_in in He; [|apply sorted_perm].
  apply in_map_iff in He as ([k e'] & Heq & Hin). simpl in Heq. subst e'.
  pose proof (keyed_rrf_table vector_results bm25_results
                vector_weight bm25_weight) as Hk.
  fold table in Hk. unfold keyed in Hk. rewrite Forall_forall in Hk.
  apply list_elem_of_In in Hin.
  specialize (Hk _ Hin). simpl in Hk. simpl. rewrite Hk.
  apply lookup_key_elem; [apply table_NoDup|exact Hin].
Qed.

Lemma fusion_entry_result (top_k : Z) (k : Z) (e : Fused) :
  lookup_key table k = Some e ->
  Z.of_nat (length table) <= top_k ->
  format_result e ∈ rrf_fusion vector_results bm25_results top_k
                               vector_weight bm25_weight.
Proof.
  intros He Hk. unfold rrf_fusion. fold table.
  rewrite slice_to_all.
  - apply list_elem_of_In, in_map.
    eapply Permutation_in; [symmetry; apply sorted_perm|].
    apply lookup_key_Some, list_elem_of_In in He.
    apply in_map_iff. now exists (k, e).
  - rewrite (Permutation_length sorted_perm), length_map. exact Hk.
Qed.

(** The scores of an identifier met in either ranking. *)
Lemma table_entry (k : Z) :
  k ∈ (ids vector_results ++ ids bm25_results)%list ->
  exists e,
    lookup_key table k = Some e
    /\ hit_chunk_id (chunk e) = k
    /\ rrf_score e
       = accumulated bm25_weight 0 bm25_results k
           (accumulated vector_weight 0 vector_results k Float.zero)
    /\ (k ∉ ids vector_results -> vector_score e = Float.zero)
    /\ (k ∉ ids bm25_results -> bm25_score e = Float.zero).
Proof.
  intros Hk.
  assert (Hsome : is_Some (lookup_key table k)).
  { unfold table, rrf_table, enumerate.
    apply lookup_bm25_fold_present.
    apply elem_of_app in Hk as [Hk|Hk]; [right|now left].
    apply lookup_vector_fold_present. now left. }
  destruct Hsome as [e He]. exists e. split; [exact He|].
  split.
  { apply lookup_key_Some in He.
    pose proof (keyed_rrf_table vector_results bm25_results
                  vector_weight bm25_weight) as Hkd.
    fold table in Hkd. unfold keyed in Hkd. rewrite Forall_forall in Hkd.
    apply (Hkd _ He). }
  split.
  { assert (Hs : score_of table k = rrf_score e)
      by (unfold score_of; now rewrite He).
    rewrite <- Hs. unfold table, rrf_table, enumerate.
    now rewrite score_bm25_fold, score_vector_fold. }
  split.
  - intros Habs.
    assert (Hv : vector_of table k = vector_score e)
      by (unfold vector_of; now rewrite He).
    rewrite <- Hv. unfold table, rrf_table, enumerate.
    rewrite vector_of_bm25_fold. unfold vector_of.
    now rewrite lookup_vector_fold_absent.
  - intros Habs.
    assert (Hb : bm25_of table k = bm25_score e)
      by (unfold bm25_of; now rewrite He).
    rewrite <- Hb. unfold table, rrf_table, enumerate.
    unfold bm25_of at 1. rewrite lookup_bm25_fold_absent by exact Habs.
    fold (bm25_of (fold_left (vector_step vector_weight)
                             (enumerate_from 0 vector_results) []) k).
    now rewrite bm25_of_vector_fold.
Qed.

End FusionProperties.

Section FusionTheorems.

Import Retriever.

Lemma accumulated_absent (w : float) (k : Z) (ranking : list (Hit * float)) :
  k ∉ ids ranking ->
  forall rank acc, accumulated w rank ranking k acc = acc.
Proof.
  induction ranking as [|[c s] rest IH]; intros Hk rank acc; simpl.
  - reflexivity.
  - simpl in Hk. apply not_elem_of_cons in Hk as [Hne Hk].
    rewrite (IH Hk).
    destruct (Z.eqb_spec (hit_chunk_id c) k); [congruence|reflexivity].
Qed.

(** In a ranking without repeated identifiers, a chunk adds the single
    term of its rank. *)
Lemma accumulated_rank (w : float) (k : Z) (ranking : list (Hit * float)) :
  NoDup (ids ranking) ->
  forall rank acc,
    accumulated w rank ranking k acc
    = match rank_from rank ranking k with
      | Some r => (acc + w / Float.of_Z (60 + r + 1))%float
      | None => acc
      end.
Proof.
  induction ranking as [|[c s] rest IH]; intros Hnd rank acc; simpl.
  - reflexivity.
  - simpl in Hnd. apply NoDup_cons in Hnd as [Hc Hnd].
    destruct (Z.eqb_spec (hit_chunk_id c) k) as [Heq|Hne].
    + subst k. now rewrite (accumulated_absent w _ rest Hc).
    + apply (IH Hnd).
Qed.

(** C4.  A chunk met in either ranking has an entry in the fused table.
    Its fused score is 0 to which are added, in binary64 arithmetic and in
    the order of the loops (the vector ranking first, the BM25 ranking
    second), the terms [weight / (60 + rank + 1)] of its positions, ranks
    counted from 0; in rankings without repeated identifiers that is one
    term per ranking the chunk appears in.  The raw score of a ranking the
    chunk is absent from is 0.  The entry is returned whenever [top_k]
    covers the table, and a returned result of that identifier is this
    entry, its three scores rounded to four decimals. *)
Theorem fused_score_formula
        (vector_results bm25_results : list (Hit * float))
        (vector_weight bm25_weight : float) (key : Z) :
  key ∈ (ids vector_results ++ ids bm25_results)%list ->
  let table :=
    rrf_table vector_results bm25_results vector_weight bm25_weight in
  exists e,
    lookup_key table key = Some e
    /\ rrf_score e
       = accumulated bm25_weight 0 bm25_results key
           (accumulated vector_weight 0 vector_results key Float.zero)
    /\ (NoDup (ids vector_results) -> NoDup (ids bm25_results) ->
        rrf_score e
        = match rank_of vector_results key, rank_of bm25_results key with
          | Some v, Some b =>
              (Float.zero + vector_weight / Float.of_Z (60 + v + 1)
               + bm25_weight / Float.of_Z (60 + b + 1))%float
          | Some v, None =>
              (Float.zero + vector_weight / Float.of_Z (60 + v + 1))%float
          | None, Some b =>
              (Float.zero + bm25_weight / Float.of_Z (60 + b + 1))%float
          | None, None => Float.zero
          end)
    /\ (key ∉ ids vector_results ->
        vector_score e = Float.zero
        /\ res_vector_score (format_result e) = Float.zero)
    /\ (key ∉ ids bm25_results ->
        bm25_score e = Float.zero
        /\ res_bm25_score (format_result e) = Float.zero)
    /\ res_combined_score (format_result e) = Float.round4 (rrf_score e)
    /\ (forall top_k,
           Z.of_nat (length table) <= top_k ->
           format_result e
             ∈ rrf_fusion vector_results bm25_results top_k
                          vector_weight bm25_weight)
    /\ (forall top_k r,
           r ∈ rrf_fusion vector_results bm25_results top_k
                          vector_weight bm25_weight ->
           res_chunk_id r = key -> r = format_result e).
Proof.
  intros Hkey table.
  destruct (table_entry vector_results bm25_results vector_weight
                        bm25_weight key Hkey)
    as (e & He & Hid & Hsum & Hv & Hb).
  fold table in He.
  exists e. split; [exact He|]. split; [exact Hsum|].
  split.
  { intros Hnv Hnb. rewrite Hsum.
    rewrite (accumulated_rank _ _ _ Hnb), (accumulated_rank _ _ _ Hnv).
    unfold rank_of.
    destruct (rank_from 0 vector_results key),
             (rank_from 0 bm25_results key); reflexivity. }
  split.
  { intros Habs. specialize (Hv Habs). split; [exact Hv|].
    simpl. now rewrite Hv. }
  split.
  { intros Habs. specialize (Hb Habs). split; [exact Hb|].
    simpl. now rewrite Hb. }
  split; [reflexivity|]. split.
  - intros top_k Hk. eapply fusion_entry_result; eauto.
  - intros top_k r Hr Hrk.
    apply fusion_result_entry in Hr as (e' & He' & ->).
    rewrite Hrk in He'. fold table in He'. congruence.
Qed.

(** C3, as the code has it.  The entries of the table stand in the order
    of first appearance in the vector ranking followed by the BM25 ranking:
    the vector ranking is evaluated first.  The fused list is a
    rearrangement of the table; when no fused score is [nan], no entry of
    the fused list has a greater score after it, the entries of equal fused
    score keep the order of the table, and the results are the first
    [top_k] entries of the fused list.  For the lexical ranking [A, B, C]
    and the vector ranking [B, A, D] with weights 0.5 the fused order is
    [B, A, D, C]. *)
Theorem fusion_order (vector_results bm25_results : list (Hit * float))
        (vector_weight bm25_weight : float) :
  let table :=
    rrf_table vector_results bm25_results vector_weight bm25_weight in
  let fused := sorted_by_rrf table in
  map (fun e => hit_chunk_id (chunk e)) (map snd table)
  = first_appearance (ids vector_results ++ ids bm25_results)%list
  /\ Permutation fused (map snd table)
  /\ (numbers rrf_score (map snd table) ->
      descending rrf_score fused
      /\ (forall q, tied_at q fused = tied_at q (map snd table))
      /\ (forall top_k,
             rrf_fusion vector_results bm25_results top_k
                        vector_weight bm25_weight
             = map format_result (slice_to top_k fused)))
  /\ map res_text
         (rrf_fusion Samples.vector_ranking Samples.lexical_ranking 4
                     (Float.ratio 5 10) (Float.ratio 5 10))
     = ["B"; "A"; "D"; "C"].
Proof.
  intros table fused. split.
  { unfold table. rewrite table_chunk_ids. apply keys_rrf_table. }
  split; [apply sorted_perm|].
  split; [|vm_compute; reflexivity].
  intros Hnumbers.
  split; [now apply (sort_stable_descending rrf_score)|].
  split; [intros q; apply (sort_stable_tied rrf_score)|reflexivity].
Qed.

(** C3, counterexample.  For the lexical ranking [A, B, C] and the vector
    ranking [B, A, D], weights 0.5 each, A and B are tied, C and D are
    tied, and the fused list has B before A and D before C. *)
Lemma lexical_first_tie_break_fails :
  let fused :=
    rrf_fusion Samples.vector_ranking Samples.lexical_ranking 4
               (Float.ratio 5 10) (Float.ratio 5 10) in
  map res_chunk_id fused
  = map hit_chunk_id [Samples.B; Samples.A; Samples.D; Samples.C]
  /\ map res_combined_score fused
     = [Float.ratio 163 10000; Float.ratio 163 10000;
        Float.ratio 79 10000; Float.ratio 79 10000]
  /\ placed_before (hit_chunk_id Samples.A) (hit_chunk_id Samples.B)
                   (map res_chunk_id fused) = false
  /\ placed_before (hit_chunk_id Samples.C) (hit_chunk_id Samples.D)
                   (map res_chunk_id fused) = false.
Proof. vm_compute. repeat split. Qed.

(** [fusion_order] on the rankings of the example: no fused score is
    [nan], the fused list is in descending order, and the two entries of
    each tie stand as in the table. *)
Lemma fusion_order_witness :
  let table :=
    rrf_table Samples.vector_ranking Samples.lexical_ranking
              (Float.ratio 5 10) (Float.ratio 5 10) in
  let tie := (Float.zero + Float.ratio 5 10 / Float.of_Z (60 + 0 + 1)
              + Float.ratio 5 10 / Float.of_Z (60 + 1 + 1))%float in
  numbers rrf_score (map snd table)
  /\ descending rrf_score (sorted_by_rrf table)
  /\ map (fun e => hit_text (chunk e)) (tied_at tie (sorted_by_rrf table))
     = ["B"; "A"].
Proof.
  intros table tie.
  assert (Hn : numbers rrf_score (map snd table)).
  { vm_compute. repeat constructor. }
  split; [exact Hn|].
  destruct (fusion_order Samples.vector_ranking Samples.lexical_ranking
              (Float.ratio 5 10) (Float.ratio 5 10))
    as (_ & _ & Hsorted & _).
  destruct (Hsorted Hn) as (Hdesc & Hties & _).
  split; [exact Hdesc|].
  fold table in Hties. rewrite (Hties tie). vm_compute. reflexivity.
Defined.

(** [fused_score_formula] for chunk C of the example, found by the lexical
    ranking only, at rank 2: its fused score is [0 + 0.4 / 63], reported
    as 0.0063, the binary64 number 7263405479023136 * 2^-60. *)
Lemma fused_score_formula_witness :
  hit_chunk_id Samples.C
    ∈ (ids Samples.vector_ranking ++ ids Samples.lexical_ranking)%list
  /\ exists e,
       lookup_key (rrf_table Samples.vector_ranking Samples.lexical_ranking
                             (Float.ratio 6 10) (Float.ratio 4 10))
                  (hit_chunk_id Samples.C) = Some e
       /\ rrf_score e
          = (Float.zero + Float.ratio 4 10 / Float.of_Z (60 + 2 + 1))%float
       /\ res_combined_score (format_result e)
          = S754_finite false 7263405479023136 (-60)
       /\ res_vector_score (format_result e) = Float.zero.
Proof.
  assert (Hin : hit_chunk_id Samples.C
                  ∈ (ids Samples.vector_ranking
                     ++ ids Samples.lexical_ranking)%list).
  { apply list_elem_of_In. vm_compute. tauto. }
  split; [exact Hin|].
  destruct (fused_score_formula Samples.vector_ranking
              Samples.lexical_ranking (Float.ratio 6 10) (Float.ratio 4 10)
              (hit_chunk_id Samples.C) Hin)
    as (e & He & _ & Hrank & Hvec & _ & Hcombined & _).
  assert (Hscore : rrf_score e
                   = (Float.zero
                      + Float.ratio 4 10 / Float.of_Z (60 + 2 + 1))%float).
  { rewrite Hrank.
    - reflexivity.
    - apply NoDup_ListNoDup.
      repeat constructor; simpl; intuition discriminate.
    - apply NoDup_ListNoDup.
      repeat constructor; simpl; intuition discriminate. }
  exists e. split; [exact He|]. split; [exact Hscore|]. split.
  - rewrite Hcombined, Hscore. vm_compute. reflexivity.
  - apply Hvec. intros Hmem. apply list_elem_of_In in Hmem.
    simpl in Hmem. intuition discriminate.
Defined.

(** The scores follow binary64 arithmetic, not exact arithmetic.  The
    term [0.4 / 64] lies above 0.00625 and is rounded to 0.0063, where the
    exact quotient would be rounded to 0.0062; and with the default
    weights the chunk at ranks 9 and 9 gets a greater fused score than the
    chunk at ranks 5 and 16, although both sums are 1/70 in exact
    arithmetic. *)
Lemma scores_are_binary64 :
  Float.ratio 4 10 = S754_finite false 7205759403792794 (-54)
  /\ (Float.ratio 4 10 / Float.of_Z 64)%float
     = S754_finite false 7205759403792794 (-60)
  /\ Float.round4 (Float.ratio 4 10 / Float.of_Z 64)%float
     = Float.ratio 63 10000
  /\ Float.ratio 63 10000 = S754_finite false 7263405479023136 (-60)
  /\ Float.round_half_even (4 * 10000) (10 * 64) = 62
  /\ ((Float.zero + Float.ratio 6 10 / Float.of_Z (60 + 5 + 1)
       + Float.ratio 4 10 / Float.of_Z (60 + 16 + 1))
      <? (Float.zero + Float.ratio 6 10 / Float.of_Z (60 + 9 + 1)
          + Float.ratio 4 10 / Float.of_Z (60 + 9 + 1)))%float = true.
Proof. vm_compute. repeat split. Qed.

End FusionTheorems.

(** * Properties of the index lifecycle and of the searches *)

Section RetrieverTheorems.

Import Chunker Retriever.

Variable embed : list string -> Result (list Embedding).
Variable distance : Embedding -> Embedding -> float.
Variable get_scores : list (list string) -> list string -> list float.
Variable argsort : list float -> list nat.

Lemma query_empty (query_embedding : Embedding) (n_results : Z) :
  query distance (Some []) query_embedding n_results
  = if n_results <=? 0 then Raise TypeError else Ok [].
Proof.
  unfold query. destruct (n_results <=? 0); [reflexivity|].
  simpl. now rewrite firstn_nil.
Qed.

(** C1, as the code has it.  When the embedding service fails during a
    forced re-index, the exception reaches the caller and the previous
    index is not kept: the persisted collection has been dropped and
    replaced by an empty one, the in-memory chunk list is the new argument,
    and the lexical index is still the one of the previous corpus.  A
    vector search after the failed attempt, once the query is embedded
    again, returns no result when it asks for at least one, and is rejected
    by the store when it asks for none or fewer. *)
Theorem failed_reindex_state (self : HybridRetriever)
        (new_chunks : list Chunk) (e : Exception) :
  get_embeddings embed (map text new_chunks) = Raise e ->
  let name := collection_name self in
  let attempt := index_chunks embed self new_chunks true in
  snd attempt = Raise e
  /\ chroma_client (fst attempt) = <[name := []]> (chroma_client self)
  /\ collection (fst attempt) = Some name
  /\ chunks (fst attempt) = new_chunks
  /\ bm25 (fst attempt) = bm25 self
  /\ tokenized_corpus (fst attempt) = tokenized_corpus self
  /\ (forall embed' q top_k v vs,
         get_embeddings embed' [q] = Ok (v :: vs) ->
         (0 < top_k ->
          search_vector embed' distance (fst attempt) q top_k = Ok [])
         /\ (top_k <= 0 ->
             search_vector embed' distance (fst attempt) q top_k
             = Raise TypeError)).
Proof.
  intros Hfail name attempt.
  assert (Hattempt :
            attempt
            = ({| collection_name := name;
                  chroma_client := <[name := []]> (chroma_client self);
                  collection := Some name;
                  bm25 := bm25 self;
                  chunks := new_chunks;
                  tokenized_corpus := tokenized_corpus self |}, Raise e)).
  { unfold attempt, index_chunks.
    cbn [with_chunks collection_name chroma_client negb].
    rewrite andb_false_r, Hfail.
    unfold with_collection, with_store; cbn.
    fold name. f_equal. f_equal.
    destruct (has_collection (chroma_client self) name); [|reflexivity].
    apply insert_delete_eq. }
  rewrite Hattempt. cbn [fst snd chroma_client collection chunks bm25
                             tokenized_corpus].
  repeat (split; [reflexivity|]).
  intros embed' q top_k v vs Hq.
  assert (Hsearch :
            search_vector embed' distance
              {| collection_name := name;
                 chroma_client := <[name := []]> (chroma_client self);
                 collection := Some name;
                 bm25 := bm25 self;
                 chunks := new_chunks;
                 tokenized_corpus := tokenized_corpus self |} q top_k
            = if top_k <=? 0 then Raise TypeError else Ok []).
  { unfold search_vector. cbn [collection chroma_client].
    rewrite Hq. cbn [mbind result_bind]. rewrite lookup_insert_eq.
    rewrite query_empty. now destruct (top_k <=? 0). }
  rewrite Hsearch. split; intros Hk.
  - destruct (Z.leb_spec top_k 0); [lia|reflexivity].
  - destruct (Z.leb_spec top_k 0); [reflexivity|lia].
Qed.

(** The loop of [search_bm25] keeps nothing when no score is above 0 and
    every index is a position of the scores. *)
Lemma bm25_hits_none (self : HybridRetriever) (scores : list float)
      (top_indices : list nat) :
  Forall (fun score => (Float.zero <? score)%float = false) scores ->
  Forall (fun idx => (idx < length scores)%nat) top_indices ->
  bm25_hits self scores top_indices = Ok [].
Proof.
  intros Hscores Hidx.
  induction Hidx as [|idx rest Hlt _ IH]; [reflexivity|].
  cbn [bm25_hits].
  destruct (lookup_lt_is_Some_2 scores idx Hlt) as [score Hscore].
  rewrite Hscore.
  rewrite Forall_forall in Hscores.
  rewrite (Hscores score) by (eapply list_elem_of_lookup_2; eauto).
  exact IH.
Qed.

(** C5, as the code has it.  The lexical search of a retriever on which
    nothing has been indexed returns the empty list, not an error, for
    every query.  A built index in which no chunk matches the query gives
    the same answer: when the library gives no chunk a score above 0 and
    [argsort] returns positions of the scores, the search returns the empty
    list. *)
Theorem search_bm25_empty_index (name : string)
        (store : gmap string (list Row)) (q : string) (top_k : Z) :
  search_bm25 get_scores argsort (init name store) q top_k = Ok []
  /\ (forall (self : HybridRetriever) (index : BM25Okapi),
         bm25 self = Some index ->
         let scores := get_scores (corpus index) (tokenize q) in
         Forall (fun score => (Float.zero <? score)%float = false) scores ->
         Forall (fun idx => (idx < length scores)%nat) (argsort scores) ->
         search_bm25 get_scores argsort self q top_k = Ok []).
Proof.
  clear embed distance.
  split; [reflexivity|].
  intros self index Hindex scores Hscores Hidx.
  unfold search_bm25. rewrite Hindex.
  destruct (is_empty (chunks self)); [reflexivity|].
  fold scores. apply bm25_hits_none; [exact Hscores|].
  apply Forall_forall. intros idx Hin.
  eapply elem_of_sublist in Hin; [|apply slice_to_sublist].
  apply list_elem_of_In, in_rev, list_elem_of_In in Hin.
  rewrite Forall_forall in Hidx. now apply Hidx.
Qed.

(** The lexical index of a corpus that has a token, and of one that has
    none. *)
Lemma build_bm25_index_ok (self : HybridRetriever) (texts : list string) :
  has_token (map tokenize texts) = true ->
  _build_bm25_index self texts
  = ({| collection_name := collection_name self;
        chroma_client := chroma_client self;
        collection := collection self;
        bm25 := Some {| corpus := map tokenize texts |};
        chunks := chunks self;
        tokenized_corpus := map tokenize texts |}, Ok tt).
Proof.
  intros Htoken. unfold _build_bm25_index, new_BM25Okapi.
  cbn [with_tokenized_corpus tokenized_corpus]. now rewrite Htoken.
Qed.

Lemma build_bm25_index_fails (self : HybridRetriever)
      (texts : list string) :
  has_token (map tokenize texts) = false ->
  _build_bm25_index self texts
  = ({| collection_name := collection_name self;
        chroma_client := chroma_client self;
        collection := collection self;
        bm25 := bm25 self;
        chunks := chunks self;
        tokenized_corpus := map tokenize texts |}, Raise ZeroDivisionError).
Proof.
  intros Htoken. unfold _build_bm25_index, new_BM25Okapi.
  cbn [with_tokenized_corpus tokenized_corpus]. now rewrite Htoken.
Qed.

(** C6, as the code has it.  With [force_reindex=False] and a collection
    of the configured name in the store, the call leaves the store as it
    was.  When the collection holds at least one document, the in-memory
    chunks are the stored documents in ascending order of chunk identifier,
    whatever the argument, and the lexical index is built from their texts
    when one of them has a word; when none has, the call raises
    [ZeroDivisionError] and the lexical index is left as it was.  When the
    collection holds no document, the call succeeds, the in-memory chunks
    are the argument and the lexical index is left as it was. *)
Theorem reuse_existing_collection (self : HybridRetriever)
        (new_chunks : list Chunk) (rows : list Row) :
  chroma_client self !! collection_name self = Some rows ->
  let outcome := index_chunks embed self new_chunks false in
  let after := fst outcome in
  let loaded :=
    sort_stable (fun y x => chunk_id y <? chunk_id x)
                (map chunk_of_row rows) in
  let tokenized := map tokenize (map text loaded) in
  chroma_client after = chroma_client self
  /\ collection after = Some (collection_name self)
  /\ (rows <> [] ->
      chunks after = loaded
      /\ tokenized_corpus after = tokenized
      /\ (has_token tokenized = true ->
          snd outcome = Ok tt
          /\ bm25 after = Some {| corpus := tokenized |})
      /\ (has_token tokenized = false ->
          snd outcome = Raise ZeroDivisionError
          /\ bm25 after = bm25 self))
  /\ (rows = [] ->
      snd outcome = Ok tt
      /\ chunks after = new_chunks
      /\ bm25 after = bm25 self
      /\ tokenized_corpus after = tokenized_corpus self).
Proof.
  intros Hrows outcome after loaded tokenized.
  unfold after, outcome, index_chunks, has_collection.
  cbn [with_chunks collection_name chroma_client negb].
  rewrite Hrows. cbn [andb].
  unfold _rebuild_bm25_from_collection.
  cbn [with_collection with_chunks collection chroma_client].
  rewrite Hrows.
  destruct rows as [|r rows]; cbn [is_empty].
  - cbn [fst snd chroma_client collection chunks bm25 tokenized_corpus].
    repeat split; congruence.
  - fold loaded.
    destruct (has_token tokenized) eqn:Htoken.
    + rewrite build_bm25_index_ok by exact Htoken.
      cbn [fst snd chroma_client collection chunks bm25 tokenized_corpus
               collection_name].
      repeat split; congruence.
    + rewrite build_bm25_index_fails by exact Htoken.
      cbn [fst snd chroma_client collection chunks bm25 tokenized_corpus
               collection_name].
      repeat split; congruence.
Qed.

(** C10.  The results of the hybrid search, and of the fusion of any two
    rankings, carry pairwise distinct chunk identifiers.  A chunk found in
    both rankings has one entry in the fused table, whose score adds the
    contributions of both rankings; every returned result of that
    identifier is this entry, and it is returned exactly once when [top_k]
    covers the table. *)
Theorem fusion_ids_distinct (self : HybridRetriever) (q : string)
        (vector_results bm25_results : list (Hit * float)) (top_k : Z)
        (vector_weight bm25_weight : float) :
  let table :=
    rrf_table vector_results bm25_results vector_weight bm25_weight in
  let fused :=
    rrf_fusion vector_results bm25_results top_k
               vector_weight bm25_weight in
  (forall results,
      search_hybrid embed distance get_scores argsort self q top_k
                    vector_weight bm25_weight = Ok results ->
      NoDup (map res_chunk_id results))
  /\ NoDup (map res_chunk_id fused)
  /\ (forall key,
         key ∈ ids vector_results -> key ∈ ids bm25_results ->
         exists e,
           lookup_key table key = Some e
           /\ rrf_score e
              = accumulated bm25_weight 0 bm25_results key
                  (accumulated vector_weight 0 vector_results key
                               Float.zero)
           /\ (forall r, r ∈ fused -> res_chunk_id r = key ->
                         r = format_result e)
           /\ (Z.of_nat (length table) <= top_k ->
               count_occ Z.eq_dec (map res_chunk_id fused) key = 1%nat)).
Proof.
  intros table fused. split.
  { intros results. unfold search_hybrid, mbind, result_bind.
    destruct (search_vector _ _ _ _ _) as [vr|]; [|discriminate].
    destruct (search_bm25 _ _ _ _ _) as [br|]; [|discriminate].
    intros [= <-]. apply fusion_NoDup. }
  split; [apply fusion_NoDup|].
  intros key Hv Hb.
  assert (Hkey : key ∈ (ids vector_results ++ ids bm25_results)%list).
  { apply elem_of_app. now left. }
  destruct (table_entry vector_results bm25_results vector_weight
              bm25_weight key Hkey) as (e & He & Hid & Hsum & _).
  exists e. split; [exact He|]. split; [exact Hsum|].
  split.
  - intros r Hr Hrk. unfold fused in Hr.
    apply fusion_result_entry in Hr as (e' & He' & ->).
    rewrite Hrk in He'. congruence.
  - intros Hk. apply NoDup_count_occ'.
    + apply NoDup_ListNoDup, fusion_NoDup.
    + apply in_map_iff. exists (format_result e). split; [exact Hid|].
      apply list_elem_of_In. eapply fusion_entry_result; eauto.
Qed.

End RetrieverTheorems.

Section RetrieverExamples.

Import Chunker Retriever Samples.

(** C1, counterexample.  After a first indexing a vector search finds the
    two chunks; a forced re-index during which the embedding service is
    down raises, and the same search then finds nothing. *)
Lemma failed_reindex_loses_index :
  let before := search_vector embed_ok distance built "revenue growth" 10 in
  let after :=
    search_vector embed_ok distance (fst failed_attempt)
                  "revenue growth" 10 in
  snd failed_attempt = Raise EmbeddingServiceError
  /\ ids (match before with Ok hits => hits | Raise _ => [] end) = [1; 0]
  /\ after = Ok []
  /\ after <> before.
Proof. vm_compute. repeat split. discriminate. Qed.

(** [failed_reindex_state] on the built index, with the service down. *)
Lemma failed_reindex_state_witness :
  get_embeddings embed_down (map text [airport])
  = Raise EmbeddingServiceError
  /\ snd (index_chunks embed_down built [airport] true)
     = Raise EmbeddingServiceError
  /\ chunks (fst (index_chunks embed_down built [airport] true)) = [airport]
  /\ bm25 (fst (index_chunks embed_down built [airport] true)) = bm25 built
  /\ search_vector embed_ok distance
                   (fst (index_chunks embed_down built [airport] true))
                   "revenue growth" 10 = Ok []
  /\ search_vector embed_ok distance
                   (fst (index_chunks embed_down built [airport] true))
                   "revenue growth" 0 = Raise TypeError.
Proof.
  assert (H : get_embeddings embed_down (map text [airport])
              = Raise EmbeddingServiceError) by reflexivity.
  split; [exact H|].
  destruct (failed_reindex_state embed_down distance built [airport]
              EmbeddingServiceError H) as (Hr & _ & _ & Hc & Hb & _ & Hs).
  split; [exact Hr|]. split; [exact Hc|]. split; [exact Hb|].
  assert (Hq : get_embeddings embed_ok ["revenue growth"]
               = Ok [[Float.of_Z 14]]) by reflexivity.
  split.
  - apply (Hs embed_ok "revenue growth" 10 _ _ Hq). lia.
  - apply (Hs embed_ok "revenue growth" 0 _ _ Hq). lia.
Defined.

(** C5, counterexample.  On a fresh retriever over an empty store the
    lexical search answers with the empty list; no exception is raised. *)
Lemma empty_index_search_returns_empty_list :
  search_bm25 get_scores argsort fresh "revenue growth" 10 = Ok []
  /\ forall e,
       search_bm25 get_scores argsort fresh "revenue growth" 10 <> Raise e.
Proof. split; [reflexivity|]. intros e. discriminate. Qed.

(** [search_bm25_empty_index] on the built index and a query none of whose
    words is in a chunk. *)
Lemma search_bm25_empty_index_witness :
  let scores :=
    get_scores (map tokenize (map text [revenue; margin]))
               (tokenize "dividend policy") in
  bm25 built = Some {| corpus := map tokenize (map text [revenue; margin]) |}
  /\ scores = [Float.zero; Float.zero]
  /\ argsort scores = [0%nat; 1%nat]
  /\ search_bm25 get_scores argsort built "dividend policy" 10 = Ok [].
Proof.
  intros scores.
  assert (Hb : bm25 built
               = Some {| corpus := map tokenize
                                     (map text [revenue; margin]) |})
    by (vm_compute; reflexivity).
  assert (Hs : scores = [Float.zero; Float.zero])
    by (vm_compute; reflexivity).
  assert (Ha : argsort scores = [0%nat; 1%nat]) by (vm_compute; reflexivity).
  split; [exact Hb|]. split; [exact Hs|]. split; [exact Ha|].
  destruct (search_bm25_empty_index get_scores argsort name ∅
              "dividend policy" 10) as [_ Hnone].
  apply (Hnone built _ Hb); cbn [corpus]; fold scores.
  - rewrite Hs. repeat constructor.
  - rewrite Ha, Hs. repeat constructor.
Defined.

(** C6, counterexample.  The store left by the failed re-index holds the
    collection, empty.  In a new process, [index_chunks] without force then
    keeps the chunk list it was passed and builds no lexical index. *)
Lemma empty_collection_keeps_argument :
  let after :=
    fst (index_chunks embed_ok restarted_after_failure [airport] false) in
  chroma_client restarted_after_failure !! name = Some []
  /\ chunks after = [airport]
  /\ bm25 after = None
  /\ tokenized_corpus after = [].
Proof. vm_compute. repeat split. Qed.

(** [reuse_existing_collection] in a new process on the store of the built
    index: the two stored chunks are loaded, not the argument. *)
Lemma reuse_existing_collection_witness :
  let rows := default [] (chroma_client restarted !! name) in
  chroma_client restarted !! collection_name restarted = Some rows
  /\ rows <> []
  /\ has_token (map tokenize (map text [revenue; margin])) = true
  /\ snd (index_chunks embed_down restarted [airport] false) = Ok tt
  /\ chunks (fst (index_chunks embed_down restarted [airport] false))
     = [revenue; margin].
Proof.
  intros rows.
  assert (H : chroma_client restarted !! collection_name restarted
              = Some rows) by (vm_compute; reflexivity).
  assert (Hne : rows <> []) by (vm_compute; discriminate).
  assert (Htoken : has_token (map tokenize (map text [revenue; margin]))
                   = true) by (vm_compute; reflexivity).
  split; [exact H|]. split; [exact Hne|]. split; [exact Htoken|].
  destruct (reuse_existing_collection embed_down restarted [airport] rows H)
    as (_ & _ & Hfull & _).
  destruct (Hfull Hne) as (Hc & _ & Hok & _).
  split.
  - apply Hok. vm_compute. reflexivity.
  - rewrite Hc. vm_compute. reflexivity.
Defined.

(** [fusion_ids_distinct] on the built index and on the rankings of the
    example. *)
Lemma fusion_ids_distinct_witness :
  (exists results,
      search_hybrid embed_ok distance get_scores argsort built
                    "what is the revenue margin year" 10
                    (Float.ratio 6 10) (Float.ratio 4 10) = Ok results
      /\ NoDup (map res_chunk_id results))
  /\ hit_chunk_id A ∈ ids vector_ranking
  /\ hit_chunk_id A ∈ ids lexical_ranking
  /\ count_occ Z.eq_dec
       (map res_chunk_id
            (rrf_fusion vector_ranking lexical_ranking 10
                        (Float.ratio 6 10) (Float.ratio 4 10)))
       (hit_chunk_id A) = 1%nat.
Proof.
  pose proof (fusion_ids_distinct embed_ok distance get_scores argsort
                built "what is the revenue margin year"
                vector_ranking lexical_ranking 10
                (Float.ratio 6 10) (Float.ratio 4 10))
    as (Hsearch & _ & Hboth).
  assert (Hv : hit_chunk_id A ∈ ids vector_ranking).
  { apply list_elem_of_In. vm_compute. tauto. }
  assert (Hl : hit_chunk_id A ∈ ids lexical_ranking).
  { apply list_elem_of_In. vm_compute. tauto. }
  split.
  { eexists. split; [vm_compute; reflexivity|].
    apply Hsearch. vm_compute. reflexivity. }
  split; [exact Hv|]. split; [exact Hl|].
  destruct (Hboth _ Hv Hl) as (e & _ & _ & _ & Hcount).
  apply Hcount. vm_compute. discriminate.
Defined.

End RetrieverExamples.

(** * Further properties of the chunk segmenter *)

Section ChunkNumbering.

Import Chunker Outline.

Variable self : TextChunker.

Lemma number_from_app (l1 l2 : list (Z * string)) :
  forall n,
    number_from self n (l1 ++ l2)
    = (number_from self n l1
       ++ number_from self (n + Z.of_nat (length l1)) l2)%list.
Proof.
  induction l1 as [|[p t] l1 IH]; intros n; simpl.
  - f_equal. lia.
  - rewrite IH. do 3 f_equal. lia.
Qed.

Lemma number_from_length (l : list (Z * string)) :
  forall n, length (number_from self n l) = length l.
Proof.
  induction l as [|[p t] l IH]; intros n; simpl; [reflexivity|].
  now rewrite IH.
Qed.

Lemma number_from_ids (l : list (Z * string)) :
  forall n,
    map chunk_id (number_from self n l)
    = map (fun i => n + Z.of_nat i) (seq 0 (length l)).
Proof.
  induction l as [|[p t] l IH]; intros n; simpl; [reflexivity|].
  f_equal; [lia|].
  rewrite IH, <- seq_shift, map_map.
  apply map_ext. intros i. lia.
Qed.

Lemma number_from_renumber (l : list (Z * string)) :
  forall k n,
    number_from self (k + n) l = map (renumber n) (number_from self k l).
Proof.
  induction l as [|[p t] l IH]; intros k n; simpl; [reflexivity|].
  f_equal. replace (k + n + 1) with (k + 1 + n) by lia. apply IH.
Qed.

Lemma emit_chunk_fold (page_num : Z) (texts : list string) :
  forall all_chunks n,
    fold_left (emit_chunk self page_num) texts (all_chunks, n)
    = ((all_chunks
        ++ number_from self n
             (map (fun t => (page_num, t))
                  (List.filter (long_enough self) texts)))%list,
       n + Z.of_nat (length (List.filter (long_enough self) texts))).
Proof.
  induction texts as [|t texts IH]; intros all_chunks n.
  - simpl. rewrite app_nil_r. f_equal. lia.
  - cbn [fold_left List.filter]. unfold emit_chunk at 2.
    fold (long_enough self t).
    destruct (long_enough self t).
    + rewrite IH. cbn [map number_from length]. fold (make_chunk self n page_num t).
      rewrite <- app_assoc. cbn [app]. f_equal. lia.
    + apply IH.
Qed.

Lemma chunk_page_fold (pages_data : list Page) :
  forall all_chunks n,
    fold_left (chunk_page self) pages_data (all_chunks, n)
    = ((all_chunks
        ++ number_from self n (concat (map (page_texts self) pages_data)))%list,
       n + Z.of_nat (length (concat (map (page_texts self) pages_data)))).
Proof.
  induction pages_data as [|page rest IH]; intros all_chunks n.
  - simpl. rewrite app_nil_r. f_equal. lia.
  - cbn [fold_left map concat]. unfold chunk_page at 2, page_texts at 1 3, page_kept.
    destruct (String.eqb (page_text page) ""
              || (Py.len (Py.strip (page_text page)) <? min_chunk_size self)).
    + cbn [negb app]. apply IH.
    + cbn [negb]. rewrite emit_chunk_fold, IH.
      rewrite number_from_app, length_app, !length_map, <- app_assoc.
      f_equal. lia.
Qed.

(** [chunk_pages] numbers, from 0 on, the chunk texts that pass the length
    filter, page by page. *)
Lemma chunk_pages_numbering (pages_data : list Page) :
  chunk_pages self pages_data
  = number_from self 0 (concat (map (page_texts self) pages_data)).
Proof. unfold chunk_pages. now rewrite chunk_page_fold. Qed.

(** X1.  The chunk identifiers of one call of [chunk_pages] are 0, 1, ...,
    N-1 in order, across all pages: dense, unique and strictly
    increasing. *)
Theorem chunk_pages_ids_dense (pages_data : list Page) :
  map chunk_id (chunk_pages self pages_data)
  = map Z.of_nat (seq 0 (length (chunk_pages self pages_data))).
Proof.
  rewrite chunk_pages_numbering, number_from_ids, number_from_length.
  reflexivity.
Qed.

(** X2.  Chunking a page sequence in two parts: the chunks of the whole are
    the chunks of the first part followed by the chunks of the second part
    moved past the identifiers already used, their citations rewritten
    accordingly.  No chunk depends on another page than its own. *)
Theorem chunk_pages_app (first_pages more_pages : list Page) :
  chunk_pages self (first_pages ++ more_pages)
  = (chunk_pages self first_pages
     ++ map (renumber (Z.of_nat (length (chunk_pages self first_pages))))
            (chunk_pages self more_pages))%list.
Proof.
  rewrite !chunk_pages_numbering, map_app, concat_app, number_from_app.
  f_equal. rewrite number_from_length.
  apply (number_from_renumber _ 0).
Qed.

(** X3.  Every chunk comes from one page that passed the page filter: it has
    that page's number, its text is the stripped form of one of the chunk
    texts of that page, and its token count is that of this chunk text. *)
Theorem chunk_pages_provenance (pages_data : list Page) (c : Chunk) :
  c ∈ chunk_pages self pages_data ->
  exists page chunk_text,
    page ∈ pages_data
    /\ page_kept self page = true
    /\ chunk_text ∈ _chunk_text self (page_text page)
    /\ page_num c = page_page_num page
    /\ text c = Py.strip chunk_text
    /\ token_count c = count_tokens self chunk_text.
Proof.
  rewrite chunk_pages_numbering.
  generalize 0.
  assert (H : forall l n,
             c ∈ number_from self n l ->
             exists p t, (p, t) ∈ l /\ page_num c = p
                         /\ text c = Py.strip t
                         /\ token_count c = count_tokens self t).
  { induction l as [|[p t] l IH]; intros n Hc; simpl in Hc.
    - now apply elem_of_nil in Hc.
    - apply elem_of_cons in Hc as [->|Hc].
      + exists p, t. split; [apply elem_of_cons; now left|]. auto.
      + destruct (IH _ Hc) as (p' & t' & Hin & Hrest).
        exists p', t'. split; [apply elem_of_cons; now right|exact Hrest]. }
  intros n Hc. destruct (H _ _ Hc) as (p & t & Hin & Hp & Ht & Hk).
  apply list_elem_of_In, in_concat in Hin as (l & Hl & Hin).
  apply in_map_iff in Hl as (page & <- & Hpage).
  unfold page_texts in Hin.
  destruct (page_kept self page) eqn:Hkept; [|contradiction].
  apply in_map_iff in Hin as (t' & [= <- <-] & Ht').
  apply List.filter_In in Ht' as [Ht' _].
  exists page, t'. repeat split; auto; now apply list_elem_of_In.
Qed.

End ChunkNumbering.

Section ChunkCoverage.

Import Chunker Outline.

Variable self : TextChunker.

Lemma fresh_unseeded (texts : list string) :
  concat (map fresh (map unseeded texts)) = texts.
Proof.
  induction texts as [|t texts IH]; simpl; [reflexivity|]. now rewrite IH.
Qed.

(** What the traced chunks cover, open chunk included. *)
Let covered (st : Traced) : list string :=
  (concat (map fresh (emitted st))
   ++ drop (length (seed st)) (open st))%list.

Lemma covered_close (st : Traced) :
  concat (map fresh (close_open st)) = covered st.
Proof.
  unfold close_open, covered. rewrite map_app, concat_app. simpl.
  now rewrite app_nil_r.
Qed.

Lemma coverage_step (st : Traced) (sentence : string) :
  seed st `prefix_of` open st ->
  seed (traced_step self st sentence)
    `prefix_of` open (traced_step self st sentence)
  /\ covered (traced_step self st sentence)
     = (covered st ++ expand self sentence)%list.
Proof.
  intros Hp. unfold traced_step, expand.
  destruct (count_tokens self sentence >? chunk_size self).
  - destruct (open st) as [|s0 rest] eqn:Hopen; cbn [is_empty].
    + apply prefix_nil_inv in Hp.
      unfold covered; cbn [emitted open seed].
      rewrite Hopen, Hp, map_app, concat_app, fresh_unseeded.
      split; [apply prefix_nil|]. simpl. now rewrite !app_nil_r.
    + unfold covered at 1; cbn [emitted open seed length drop].
      rewrite map_app, concat_app, fresh_unseeded, covered_close.
      split; [apply prefix_nil|].
      unfold covered. rewrite Hopen. now rewrite app_nil_r.
  - destruct ((open_size st + count_tokens self sentence >? chunk_size self)
              && negb (is_empty (open st))).
    + destruct (overlap_of self (open st)) as [os osz].
      unfold covered at 1; cbn [emitted open seed].
      rewrite covered_close, drop_app_length.
      split; [now apply prefix_app_r|reflexivity].
    + unfold covered; cbn [emitted open seed].
      split; [now apply prefix_app_r|].
      rewrite drop_app_le by now apply prefix_length.
      now rewrite app_assoc.
Qed.

Lemma coverage_fold (sentences : list string) :
  forall st,
    seed st `prefix_of` open st ->
    covered (fold_left (traced_step self) sentences st)
    = (covered st ++ concat (map (expand self) sentences))%list.
Proof.
  induction sentences as [|s rest IH]; intros st Hp; simpl.
  - now rewrite app_nil_r.
  - destruct (coverage_step st s Hp) as [Hp' Hc].
    rewrite (IH _ Hp'), Hc. now rewrite app_assoc.
Qed.

(** X4.  Nothing is lost or repeated beyond the carried sentences: taking
    from every chunk of a text the sentences that were not carried into it
    gives back, in order, the sentences of the text, each sentence above the
    target replaced by the chunks of its clause splitting. *)
Theorem chunk_text_coverage (text : string) :
  split_into_sentences text <> [] ->
  concat (map fresh (_chunk_text_trace self text))
  = concat (map (expand self) (split_into_sentences text)).
Proof.
  intros Hne. unfold _chunk_text_trace.
  destruct (split_into_sentences text) as [|s0 rest] eqn:Hs; [congruence|].
  cbn [is_empty]. unfold traced_flush.
  set (st0 := {| emitted := []; open := []; open_size := 0; seed := [] |}).
  pose proof (coverage_fold (s0 :: rest) st0 (prefix_nil _)) as Hcov.
  change (covered st0) with (@nil string) in Hcov.
  rewrite app_nil_l in Hcov. rewrite <- Hcov.
  destruct (open (fold_left (traced_step self) (s0 :: rest) st0)) eqn:Hopen;
    cbn [is_empty].
  - unfold covered. rewrite Hopen, drop_nil. now rewrite app_nil_r.
  - apply covered_close.
Qed.

(** The sizes kept by the loop when no sentence is above the target. *)
Let sized (st : Traced) : Prop :=
  open_size st = sum_tokens self (open st)
  /\ (open st = []
      \/ sum_tokens self (open st)
         <= chunk_size self + sum_tokens self (seed st))
  /\ Forall (fun e => sum_tokens self (pieces e)
                      <= chunk_size self + sum_tokens self (carried e))
            (emitted st).

Lemma sum_tokens_nonneg (l : list string) : 0 <= sum_tokens self l.
Proof.
  induction l as [|s l IH]; simpl; [lia|].
  fold (sum_tokens self l). unfold count_tokens.
  destruct (tokenizer self); lia.
Qed.

Lemma sized_step (st : Traced) (sentence : string) :
  0 <= chunk_overlap self ->
  count_tokens self sentence <= chunk_size self ->
  sized st -> sized (traced_step self st sentence).
Proof.
  intros Hov Hfit (Hsize & Hopen & Hall).
  unfold traced_step.
  replace (count_tokens self sentence >? chunk_size self) with false
    by (symmetry; rewrite Z.gtb_ltb; apply Z.ltb_ge; lia).
  destruct (open_size st + count_tokens self sentence >? chunk_size self)
    eqn:Hover; cbn [andb].
  - destruct (open st) as [|s0 rest] eqn:Ho; cbn [is_empty negb].
    + exfalso. rewrite Hsize in Hover. simpl in Hover.
      rewrite Z.gtb_ltb in Hover. apply Z.ltb_lt in Hover. lia.
    + destruct (overlap_of_spec self (s0 :: rest) Hov) as (_ & Hsum & _).
      destruct (overlap_of self (s0 :: rest)) as [os osz].
      simpl in Hsum. unfold sized; cbn [emitted open open_size seed].
      rewrite sum_tokens_app. simpl. split; [lia|]. split; [right; lia|].
      unfold close_open; cbn [emitted open seed]. apply Forall_app.
      split; [exact Hall|]. constructor; [|constructor].
      cbn [pieces carried]. rewrite ?Ho.
      destruct Hopen as [Hnil|Hle]; [discriminate|exact Hle].
  - rewrite Z.gtb_ltb in Hover. apply Z.ltb_ge in Hover.
    unfold sized; cbn [emitted open open_size seed].
    rewrite sum_tokens_app. simpl. split; [lia|]. split; [|exact Hall].
    right. pose proof (sum_tokens_nonneg (seed st)). lia.
Qed.

Lemma sized_fold (sentences : list string) :
  0 <= chunk_overlap self ->
  Forall (fun s => count_tokens self s <= chunk_size self) sentences ->
  forall st, sized st -> sized (fold_left (traced_step self) sentences st).
Proof.
  intros Hov Hfit. induction Hfit as [|s rest Hs _ IH]; intros st Hst; simpl.
  - exact Hst.
  - apply IH. now apply sized_step.
Qed.

(** X5.  When no sentence of a text is above the target and the overlap is
    not negative, the summed token count of the sentences of every chunk is
    at most [chunk_size] plus that of the sentences carried into it, hence at
    most [chunk_size + chunk_overlap], and at most [chunk_size] for a chunk
    nothing was carried into. *)
Theorem chunk_text_size_bound (text : string) :
  0 <= chunk_overlap self ->
  Forall (fun s => count_tokens self s <= chunk_size self)
         (split_into_sentences text) ->
  split_into_sentences text <> [] ->
  forall e,
    e ∈ _chunk_text_trace self text ->
    sum_tokens self (pieces e)
      <= chunk_size self + sum_tokens self (carried e)
    /\ sum_tokens self (pieces e) <= chunk_size self + chunk_overlap self
    /\ (carried e = [] -> sum_tokens self (pieces e) <= chunk_size self).
Proof.
  intros Hov Hfit Hne e He.
  assert (Hbound : sum_tokens self (pieces e)
                   <= chunk_size self + sum_tokens self (carried e)).
  { unfold _chunk_text_trace in He.
    destruct (split_into_sentences text) as [|s0 rest] eqn:Hs; [congruence|].
    cbn [is_empty] in He.
    set (st0 := {| emitted := []; open := []; open_size := 0; seed := [] |})
      in He.
    assert (H0 : sized st0).
    { unfold sized, st0; cbn. split; [reflexivity|]. split; [now left|].
      constructor. }
    pose proof (sized_fold (s0 :: rest) Hov Hfit st0 H0)
      as (Hsize & Hopen & Hall).
    unfold traced_flush in He.
    destruct (open (fold_left (traced_step self) (s0 :: rest) st0)) eqn:Ho;
      cbn [is_empty] in He.
    - rewrite Forall_forall in Hall. now apply Hall.
    - unfold close_open in He. apply elem_of_app in He as [He|He].
      + rewrite Forall_forall in Hall. now apply Hall.
      + apply list_elem_of_singleton in He. subst e. cbn [pieces carried].
        rewrite ?Ho.
        destruct Hopen as [Hnil|Hle]; [discriminate|exact Hle]. }
  split; [exact Hbound|].
  destruct (chunk_text_trace_inv self text Hov) as [_ Hseed].
  rewrite Forall_forall in Hseed.
  destruct (Hseed e He) as [_ Hc].
  split; [lia|]. intros Hnil. rewrite Hnil in Hbound. simpl in Hbound. lia.
Qed.

End ChunkCoverage.

Section ClauseSplitting.

Import Chunker Outline.

Variable self : TextChunker.

Lemma string_app_assoc (a b c : string) :
  ((a ++ b) ++ c = a ++ (b ++ c))%string.
Proof.
  induction a as [|x a IH]; [reflexivity|].
  change (String x ((a ++ b) ++ c) = String x (a ++ (b ++ c)))%string.
  now f_equal.
Qed.

Lemma join_cons (sep x : string) (l : list string) :
  l <> [] -> Py.join sep (x :: l) = (x ++ sep ++ Py.join sep l)%string.
Proof. destruct l; [congruence|reflexivity]. Qed.

Lemma join_app (sep : string) (l1 l2 : list string) :
  l1 <> [] -> l2 <> [] ->
  Py.join sep (l1 ++ l2)
  = (Py.join sep l1 ++ sep ++ Py.join sep l2)%string.
Proof.
  intros H1 H2. induction l1 as [|x l1 IH]; [congruence|].
  destruct l1 as [|y l1].
  - simpl app. now rewrite join_cons.
  - change ((x :: y :: l1) ++ l2)%list with (x :: ((y :: l1) ++ l2))%list.
    rewrite join_cons by discriminate.
    rewrite IH by discriminate.
    rewrite (join_cons sep x (y :: l1)) by discriminate.
    now rewrite !string_app_assoc.
Qed.

(** Joining groups one by one and then together is joining all their
    parts. *)
Lemma join_concat (sep : string) (groups : list (list string)) :
  Forall (fun g => g <> []) groups ->
  Py.join sep (map (Py.join sep) groups) = Py.join sep (concat groups).
Proof.
  induction 1 as [|g groups Hg Hall IH]; [reflexivity|].
  destruct groups as [|g' groups].
  - simpl. now rewrite app_nil_r.
  - cbn [map concat]. rewrite join_cons by discriminate.
    cbn [map concat] in IH. rewrite IH.
    rewrite (join_app sep g (g' ++ concat groups)); [reflexivity|exact Hg|].
    apply Forall_cons in Hall as [Hg' _].
    destruct g'; [congruence|discriminate].
Qed.

Lemma packed_step (parts : list string) (groups : list (list string))
      (st : Packing) (part : string) :
  packed self parts groups st ->
  exists groups',
    packed self (parts ++ [part]) groups' (long_sentence_step self st part).
Proof.
  intros [Hparts Hchunks Hne Hsize Hgroups Hcur].
  unfold long_sentence_step.
  destruct (current_size st + count_tokens self part >? chunk_size self)
    eqn:Hover.
  - destruct (current st) as [|c0 rest] eqn:Hc; cbn [is_empty].
    + exists groups. constructor; cbn [chunks current current_size]; auto.
      * rewrite <- Hparts. now rewrite app_nil_r.
      * simpl. lia.
    + exists (groups ++ [c0 :: rest])%list.
      constructor; cbn [chunks current current_size]; auto.
      * rewrite concat_app. simpl. rewrite app_nil_r. now rewrite Hparts.
      * rewrite map_app. now rewrite Hchunks.
      * apply Forall_app. split; [exact Hne|].
        constructor; [discriminate|constructor].
      * simpl. lia.
      * apply Forall_app. split; [exact Hgroups|].
        constructor; [|constructor].
        destruct Hcur as [Hlen|Hle]; [left|now right].
        simpl in *. lia.
  - exists groups. constructor; cbn [chunks current current_size]; auto.
    + rewrite app_assoc. now rewrite Hparts.
    + rewrite sum_tokens_app. simpl. lia.
    + right. rewrite sum_tokens_app. simpl.
      rewrite Z.gtb_ltb in Hover. apply Z.ltb_ge in Hover. lia.
Qed.

Lemma packed_fold (more : list string) :
  forall parts groups st,
    packed self parts groups st ->
    exists groups',
      packed self (parts ++ more) groups'
             (fold_left (long_sentence_step self) more st).
Proof.
  induction more as [|part more IH]; intros parts groups st Hp; simpl.
  - exists groups. now rewrite app_nil_r.
  - destruct (packed_step parts groups st part Hp) as [groups' Hp'].
    destruct (IH _ _ _ Hp') as [groups'' Hp''].
    exists groups''. now rewrite <- app_assoc in Hp''.
Qed.

(** X6.  [_split_long_sentence] cuts the clauses of a sentence into
    consecutive non-empty groups and returns each group joined by a comma and
    a space: no clause is dropped, repeated or reordered.  A group of two or
    more clauses has a summed token count of at most [chunk_size]; only a
    group made of a single clause can be above it.  Joining the returned
    chunks by a comma and a space gives the clauses of the sentence joined
    the same way. *)
Theorem split_long_sentence_groups (sentence : string) :
  exists groups,
    concat groups = split_clauses sentence
    /\ Forall (fun g => g <> []) groups
    /\ _split_long_sentence self sentence = map (Py.join ", ") groups
    /\ Forall (fun g => length g = 1%nat
                        \/ sum_tokens self g <= chunk_size self) groups
    /\ Py.join ", " (_split_long_sentence self sentence)
       = Py.join ", " (split_clauses sentence).
Proof.
  set (st0 := {| chunks := []; current := []; current_size := 0 |}).
  assert (H0 : packed self [] [] st0).
  { constructor; cbn; auto. }
  destruct (packed_fold (split_clauses sentence) [] [] st0 H0)
    as [groups [Hparts Hchunks Hne Hsize Hgroups Hcur]].
  rewrite app_nil_l in Hparts.
  unfold _split_long_sentence, flush. fold st0.
  set (st := fold_left (long_sentence_step self) (split_clauses sentence) st0)
    in *.
  destruct (current st) as [|c0 rest] eqn:Hc; cbn [is_empty].
  - rewrite app_nil_r in Hparts.
    exists groups. repeat split; auto.
    rewrite Hchunks, <- Hparts. now apply join_concat.
  - assert (Hne' : Forall (fun g : list string => g <> [])
                          (groups ++ [c0 :: rest])).
    { apply Forall_app. split; [exact Hne|].
      constructor; [discriminate|constructor]. }
    assert (Hcat : concat (groups ++ [c0 :: rest]) = split_clauses sentence).
    { rewrite concat_app. simpl. now rewrite app_nil_r. }
    exists (groups ++ [c0 :: rest])%list. repeat split; auto.
    + rewrite map_app, Hchunks. reflexivity.
    + apply Forall_app. split; [exact Hgroups|].
      constructor; [|constructor].
      destruct Hcur as [Hlen|Hle]; [left|now right]. simpl in *. lia.
    + rewrite <- Hcat, <- join_concat by exact Hne'.
      now rewrite map_app, Hchunks.
Qed.

End ClauseSplitting.

Section SentenceTrimming.

Import Chunker Outline.

Lemma lstrip_clean (l : list ascii) : starts_clean (Py.lstrip_chars l).
Proof.
  induction l as [|c l IH]; simpl; [exact I|].
  destruct (Py.is_space c) eqn:Hc; [exact IH|]. simpl. exact Hc.
Qed.

Lemma lstrip_fixed (l : list ascii) :
  starts_clean l -> Py.lstrip_chars l = l.
Proof. destruct l as [|c l]; simpl; [reflexivity|]. now intros ->. Qed.

Lemma lstrip_suffix (l : list ascii) : Py.lstrip_chars l `suffix_of` l.
Proof.
  induction l as [|c l IH]; simpl; [reflexivity|].
  destruct (Py.is_space c); [|reflexivity].
  now apply suffix_cons_r.
Qed.

(** Removing the trailing spaces keeps a clean start. *)
Lemma rstrip_clean (l : list ascii) :
  starts_clean l -> starts_clean (rev (Py.lstrip_chars (rev l))).
Proof.
  intros Hl. destruct (lstrip_suffix (rev l)) as [sp Hsp].
  assert (Hrev : l = (rev (Py.lstrip_chars (rev l)) ++ rev sp)%list).
  { rewrite <- rev_app_distr, <- Hsp. now rewrite rev_involutive. }
  destruct (rev (Py.lstrip_chars (rev l))) as [|c r]; [exact I|].
  rewrite Hrev in Hl. exact Hl.
Qed.

Lemma strip_strip (s : string) : Py.strip (Py.strip s) = Py.strip s.
Proof.
  unfold Py.strip, Py.str, Py.chars.
  rewrite list_ascii_of_string_of_list_ascii.
  set (t := Py.lstrip_chars (list_ascii_of_string s)).
  set (m := rev (Py.lstrip_chars (rev t))).
  assert (Hm : starts_clean m) by (apply rstrip_clean, lstrip_clean).
  rewrite (lstrip_fixed m Hm).
  assert (Hrm : starts_clean (rev m)).
  { unfold m. rewrite rev_involutive. apply lstrip_clean. }
  rewrite (lstrip_fixed _ Hrm). now rewrite rev_involutive.
Qed.

(** X7.  Every sentence returned by [split_into_sentences] is non-empty and
    has no leading or trailing white space. *)
Theorem sentences_trimmed (text sentence : string) :
  sentence ∈ split_into_sentences text ->
  sentence <> "" /\ Py.strip sentence = sentence.
Proof.
  unfold split_into_sentences.
  destruct (split_sentence_pieces _ _ _) as [p ps].
  intros Hs. apply list_elem_of_In, in_map_iff in Hs as (raw & <- & Hraw).
  apply List.filter_In in Hraw as [_ Hne].
  split; [|apply strip_strip].
  intros Heq. rewrite Heq in Hne. discriminate.
Qed.

End SentenceTrimming.

(** * Further properties of the retriever *)

Section Batching.

Import Chunker Retriever Stored.

Lemma slice_map {A B} (f : A -> B) (i j : nat) (l : list A) :
  slice i j (map f l) = map f (slice i j l).
Proof. unfold slice. now rewrite skipn_map, firstn_map. Qed.

(** The slices taken at the first [k] batch starts make up the first
    [k * batch_size] elements. *)
Lemma slices_take {A} (l : list A) (k : nat) :
  concat (map (fun i => slice i (i + batch_size) l)
              (map (fun b => (b * batch_size)%nat) (seq 0 k)))
  = take (k * batch_size) l.
Proof.
  induction k as [|k IH]; [reflexivity|].
  rewrite seq_S, !map_app, concat_app, IH. cbn [map concat Nat.add].
  rewrite app_nil_r. unfold slice.
  replace (k * batch_size + batch_size - k * batch_size)%nat
    with batch_size by (unfold batch_size; lia).
  rewrite take_take_drop. f_equal. unfold batch_size. lia.
Qed.

Lemma batch_count_covers (n : nat) :
  (n <= Nat.div (n + (batch_size - 1)) batch_size * batch_size)%nat.
Proof.
  unfold batch_size.
  pose proof (Nat.div_mod_eq (n + (100 - 1)) 100) as Hd.
  pose proof (Nat.mod_upper_bound (n + (100 - 1)) 100) as Hm.
  lia.
Qed.

Lemma batch_start_inside (n b : nat) :
  (b < Nat.div (n + (batch_size - 1)) batch_size)%nat ->
  (b * batch_size < n)%nat.
Proof.
  unfold batch_size. intros Hb.
  pose proof (Nat.div_mod_eq (n + (100 - 1)) 100) as Hd.
  pose proof (Nat.mod_upper_bound (n + (100 - 1)) 100) as Hm.
  nia.
Qed.

Lemma slices_all {A} (l : list A) :
  concat (map (fun i => slice i (i + batch_size) l)
              (batch_starts (length l))) = l.
Proof.
  unfold batch_starts. rewrite slices_take.
  apply take_ge, batch_count_covers.
Qed.

Lemma batches_concat (texts : list string) : concat (batches texts) = texts.
Proof. apply slices_all. Qed.

(** X8.  [get_embeddings] cuts the texts into consecutive requests of at
    least one and at most 100 texts that together are the texts in order;
    for an empty list it sends no request. *)
Theorem batches_partition (texts : list string) :
  concat (batches texts) = texts
  /\ Forall (fun b => (1 <= length b <= 100)%nat) (batches texts)
  /\ (texts = [] -> batches texts = []).
Proof.
  split; [apply slices_all|]. split.
  - unfold batches, batch_starts. apply Forall_forall. intros b Hb.
    apply list_elem_of_In, in_map_iff in Hb as (i & <- & Hi).
    apply in_map_iff in Hi as (k & <- & Hk). apply in_seq in Hk.
    pose proof (batch_start_inside (length texts) k) as Hin.
    unfold slice. rewrite length_take, length_drop.
    unfold batch_size in *. lia.
  - intros ->. reflexivity.
Qed.

Section WithService.

Variable embed : list string -> Result (list Embedding).

Lemma embed_batches_ok (f : list string -> list Embedding)
      (texts : list string) (starts : list nat) :
  (forall i, i ∈ starts ->
             embed (slice i (i + batch_size) texts)
             = Ok (f (slice i (i + batch_size) texts))) ->
  forall acc,
    embed_batches embed texts starts acc
    = Ok (acc ++ concat (map (fun i => f (slice i (i + batch_size) texts))
                             starts))%list.
Proof.
  induction starts as [|i starts IH]; intros Hok acc; simpl.
  - now rewrite app_nil_r.
  - rewrite (Hok i) by (apply elem_of_cons; now left).
    unfold mbind, result_bind.
    rewrite IH by (intros j Hj; apply Hok, elem_of_cons; now right).
    now rewrite app_assoc.
Qed.

Lemma embed_batches_fail (texts : list string) (e : Exception)
      (done : list nat) (i : nat) (rest : list nat) :
  Forall (fun j => exists es, embed (slice j (j + batch_size) texts) = Ok es)
         done ->
  embed (slice i (i + batch_size) texts) = Raise e ->
  forall acc,
    embed_batches embed texts (done ++ i :: rest) acc = Raise e.
Proof.
  intros Hdone Hfail. induction Hdone as [|j done [es Hj] _ IH]; intros acc.
  - simpl. now rewrite Hfail.
  - simpl. rewrite Hj. unfold mbind, result_bind. apply IH.
Qed.

(** X9.  When the service answers every request, [get_embeddings] returns
    the answers concatenated in the order of the texts; with a service that
    embeds each text on its own, batching is invisible. *)
Theorem get_embeddings_ok (f : list string -> list Embedding)
        (texts : list string) :
  (forall b, b ∈ batches texts -> embed b = Ok (f b)) ->
  get_embeddings embed texts = Ok (concat (map f (batches texts)))
  /\ forall g : string -> Embedding,
       (forall b, f b = map g b) ->
       get_embeddings embed texts = Ok (map g texts).
Proof.
  intros Hok.
  assert (Hget : get_embeddings embed texts
                 = Ok (concat (map f (batches texts)))).
  { unfold get_embeddings. rewrite (embed_batches_ok f).
    - unfold batches. now rewrite map_map.
    - intros i Hi. apply Hok. unfold batches.
      apply list_elem_of_In.
      apply (in_map (fun i => slice i (i + batch_size) texts)).
      now apply list_elem_of_In. }
  split; [exact Hget|].
  intros g Hg. rewrite Hget. f_equal.
  rewrite (map_ext f (map g) Hg), <- concat_map.
  f_equal. apply batches_concat.
Qed.

(** X10.  The first request that fails ends [get_embeddings] with its
    exception; the embeddings obtained before are not returned. *)
Theorem get_embeddings_fails (texts : list string) (e : Exception)
        (done : list (list string)) (b : list string)
        (rest : list (list string)) :
  batches texts = (done ++ b :: rest)%list ->
  Forall (fun b' => exists es, embed b' = Ok es) done ->
  embed b = Raise e ->
  get_embeddings embed texts = Raise e.
Proof.
  unfold batches, get_embeddings. intros Hsplit Hdone Hfail.
  apply map_eq_app in Hsplit as (sd & sr & Hstarts & Hd & Hr).
  destruct sr as [|i sr]; [discriminate|].
  injection Hr as Hi Hr.
  rewrite Hstarts. apply embed_batches_fail.
  - subst done. apply Forall_forall. intros j Hj.
    rewrite Forall_forall in Hdone. apply Hdone.
    apply list_elem_of_In.
    apply (in_map (fun i => slice i (i + batch_size) texts)).
    now apply list_elem_of_In.
  - now rewrite Hi.
Qed.

End WithService.

End Batching.

Section Persistence.

Import Chunker Retriever Stored.

Lemma rows_of_projections (rows : list Row) :
  rows_of (map row_id rows) (map row_embedding rows)
          (map row_document rows) (map row_metadata rows) = Ok rows.
Proof.
  induction rows as [|[i e d m] rows IH]; [reflexivity|].
  cbn [map rows_of row_id row_embedding row_document row_metadata].
  rewrite IH. reflexivity.
Qed.

Lemma stored_rows_projections (cs : list Chunk) :
  forall es,
    length es = length cs ->
    map row_id (stored_rows cs es)
    = map (fun c => Py.str_of_int (chunk_id c)) cs
    /\ map row_embedding (stored_rows cs es) = es
    /\ map row_document (stored_rows cs es) = map text cs
    /\ map row_metadata (stored_rows cs es) = map metadata_of cs
    /\ length (stored_rows cs es) = length cs.
Proof.
  induction cs as [|c cs IH]; intros [|e es] Hlen; try discriminate.
  - repeat split.
  - injection Hlen as Hlen.
    destruct (IH es Hlen) as (Hi & He & Hd & Hm & Hl).
    cbn [stored_rows map length]. rewrite Hi, He, Hd, Hm, Hl.
    repeat split.
Qed.

Lemma slice_clip {A} (l : list A) (i : nat) :
  slice i (Nat.min (i + batch_size) (length l)) l
  = slice i (i + batch_size) l.
Proof.
  unfold slice.
  destruct (Nat.le_gt_cases (i + batch_size) (length l)) as [Hle|Hgt].
  - now rewrite Nat.min_l.
  - rewrite Nat.min_r by lia.
    rewrite !take_ge; [reflexivity| |]; rewrite length_drop; lia.
Qed.

Lemma with_store_same (self : HybridRetriever) :
  with_store self (chroma_client self) = self.
Proof. now destruct self. Qed.

(** [str] of an integer tells the integer. *)
Lemma str_of_int_inj (a b : Z) :
  Py.str_of_int a = Py.str_of_int b -> a = b.
Proof.
  assert (Hnil : forall z, Z.to_int z <> Decimal.Pos Decimal.Nil
                           /\ Z.to_int z <> Decimal.Neg Decimal.Nil).
  { intros z. split; intros Hz;
      pose proof (DecimalZ.of_to z) as Hof; rewrite Hz in Hof;
      cbn in Hof; subst z; discriminate. }
  unfold Py.str_of_int. intros Heq.
  apply DecimalZ.to_int_inj.
  assert (Hsome : Some (Z.to_int a) = Some (Z.to_int b)).
  { rewrite <- (NilZero.isi (Z.to_int a)) by apply Hnil.
    rewrite <- (NilZero.isi (Z.to_int b)) by apply Hnil.
    now rewrite Heq. }
  now injection Hsome.
Qed.

Lemma holds_elem (ids : list string) (id : string) :
  holds ids id = true <-> id ∈ ids.
Proof.
  unfold holds. rewrite existsb_exists, list_elem_of_In. split.
  - intros (x & Hx & Heq). apply String.eqb_eq in Heq. now subst.
  - intros H. exists id. split; [exact H|apply String.eqb_refl].
Qed.

Lemma has_duplicates_NoDup (ids : list string) :
  NoDup ids -> has_duplicates ids = false.
Proof.
  induction 1 as [|id ids Hid _ IH]; [reflexivity|].
  cbn [has_duplicates]. rewrite IH, orb_false_r.
  destruct (holds ids id) eqn:E; [|reflexivity].
  now apply holds_elem in E.
Qed.

Lemma filter_all_in {A} (f : A -> bool) (l : list A) :
  (forall x, In x l -> f x = true) -> List.filter f l = l.
Proof.
  induction l as [|x l IH]; intros Hf; simpl; [reflexivity|].
  rewrite (Hf x) by now left.
  f_equal. apply IH. intros y Hy. apply Hf. now right.
Qed.

(** Adding rows whose identifiers are new and distinct appends them. *)
Lemma add_fresh (rows new_rows : list Row) :
  NoDup (map row_id (rows ++ new_rows)) ->
  add rows (map row_id new_rows) (map row_embedding new_rows)
      (map row_document new_rows) (map row_metadata new_rows)
  = Ok (rows ++ new_rows)%list.
Proof.
  rewrite map_app. intros Hnd.
  apply NoDup_app in Hnd as (_ & Hdisjoint & Hnew).
  unfold add. rewrite rows_of_projections. cbn [mbind result_bind].
  rewrite (has_duplicates_NoDup _ Hnew). do 2 f_equal.
  apply filter_all_in. intros r Hr.
  apply negb_true_iff. destruct (holds _ _) eqn:E; [|reflexivity].
  apply holds_elem in E. exfalso. apply (Hdisjoint _ E).
  apply list_elem_of_fmap. exists r. split; [reflexivity|].
  now apply list_elem_of_In.
Qed.

(** The loop of [collection.add]: the rows are appended batch by
    batch. *)
Lemma add_batches_ok (name : string) (rows : list Row) :
  NoDup (map row_id rows) ->
  forall count first self,
    chroma_client self !! name = Some (take (first * batch_size) rows) ->
    add_batches self name (map row_id rows) (map row_embedding rows)
                (map row_document rows) (map row_metadata rows)
                (length rows)
                (map (fun b => (b * batch_size)%nat) (seq first count))
    = (with_store self
         (<[name := take ((first + count) * batch_size) rows]>
            (chroma_client self)),
       Ok tt).
Proof.
  intros Hnd.
  induction count as [|count IH]; intros first self Hheld.
  - cbn [seq map add_batches]. rewrite Nat.add_0_r.
    rewrite insert_id by exact Hheld. now rewrite with_store_same.
  - cbn [seq map add_batches]. rewrite Hheld.
    rewrite !slice_map, slice_clip.
    assert (Hnext : (take (first * batch_size) rows
                     ++ slice (first * batch_size)
                              (first * batch_size + batch_size) rows)%list
                    = take (S first * batch_size) rows).
    { unfold slice.
      replace (first * batch_size + batch_size - first * batch_size)%nat
        with batch_size by lia.
      rewrite take_take_drop. f_equal. lia. }
    rewrite add_fresh.
    + rewrite Hnext, IH by apply lookup_insert_eq.
      unfold with_store; cbn [chroma_client collection_name collection bm25
                                            chunks tokenized_corpus].
      rewrite insert_insert_eq.
      replace (S first + count)%nat with (first + S count)%nat by lia.
      reflexivity.
    + rewrite Hnext. eapply sublist_NoDup; [exact Hnd|].
      apply fmap_sublist, sublist_take.
Qed.

(** What [index_chunks] leaves when it embeds every chunk: the collection
    is written, and the lexical index remains to be built. *)
Lemma index_chunks_builds
      (embed : list string -> Result (list Embedding))
      (self : HybridRetriever) (new_chunks : list Chunk)
      (force_reindex : bool) (es : list Embedding) :
  NoDup (map chunk_id new_chunks) ->
  force_reindex = true
  \/ chroma_client self !! collection_name self = None ->
  get_embeddings embed (map text new_chunks) = Ok es ->
  length es = length new_chunks ->
  index_chunks embed self new_chunks force_reindex
  = _build_bm25_index
      {| collection_name := collection_name self;
         chroma_client :=
           <[collection_name self := stored_rows new_chunks es]>
             (chroma_client self);
         collection := Some (collection_name self);
         bm25 := bm25 self;
         chunks := new_chunks;
         tokenized_corpus := tokenized_corpus self |}
      (map text new_chunks).
Proof.
  intros Hids Hfresh Hes Hlen.
  destruct (stored_rows_projections new_chunks es Hlen)
    as (Hi & He & Hd & Hm & Hl).
  unfold index_chunks.
  cbn [with_chunks collection_name chroma_client].
  set (name := collection_name self).
  assert (Hexist : has_collection (chroma_client self) name
                   && negb force_reindex = false).
  { destruct Hfresh as [-> | Hnone]; [apply andb_false_r|].
    unfold has_collection, name. now rewrite Hnone. }
  rewrite Hexist, Hes.
  set (store := <[name := []]>
                  (if has_collection (chroma_client self) name
                   then delete name (chroma_client self)
                   else chroma_client self)).
  assert (Hstore : store = <[name := []]> (chroma_client self)).
  { unfold store. destruct (has_collection _ _); [|reflexivity].
    apply insert_delete_eq. }
  set (rows := stored_rows new_chunks es) in *.
  assert (Hrows : NoDup (map row_id rows)).
  { rewrite Hi, <- (map_map chunk_id Py.str_of_int).
    assert (Hinj : Inj eq eq Py.str_of_int)
      by (intros a b; apply str_of_int_inj).
    now apply (NoDup_fmap_2 Py.str_of_int). }
  rewrite <- Hi, <- He, <- Hd, <- Hm, <- Hl.
  unfold batch_starts.
  erewrite (add_batches_ok name rows Hrows _ 0)
    by (unfold with_collection, with_store; cbn [chroma_client];
        apply lookup_insert_eq).
  rewrite take_ge by (cbn [Nat.add]; apply batch_count_covers).
  unfold with_collection, with_store;
    cbn [chroma_client collection_name collection bm25 chunks
                       tokenized_corpus].
  rewrite Hstore, insert_insert_eq. reflexivity.
Qed.

End Persistence.

Section Lifecycle.

Import Chunker Retriever Stored.

Variable embed : list string -> Result (list Embedding).

Lemma sort_stable_permutation {A} (before : A -> A -> bool) (l : list A) :
  Permutation (sort_stable before l) l.
Proof.
  induction l as [|x l IH]; simpl; [reflexivity|].
  transitivity (x :: sort_stable before l); [|now constructor].
  generalize (sort_stable before l). clear IH. intros s.
  induction s as [|y s IH]; simpl; [reflexivity|].
  destruct (before y x); [|reflexivity].
  rewrite IH. apply perm_swap.
Qed.

(** A list in which no element has a later one strictly ahead of it is left
    as it is. *)
Lemma sort_stable_fixed {A} (before : A -> A -> bool) (l : list A) :
  StronglySorted (fun x y => before y x = false) l ->
  sort_stable before l = l.
Proof.
  induction 1 as [|x l Hs IH Hx]; [reflexivity|].
  simpl. rewrite IH. destruct l as [|y l]; [reflexivity|].
  simpl. apply Forall_cons in Hx as [Hy _]. now rewrite Hy.
Qed.

Lemma insert_stable_ascending {A} (key : A -> Z) (x : A) (l : list A) :
  StronglySorted (fun a b => key a <= key b) l ->
  StronglySorted (fun a b => key a <= key b)
                 (insert_stable (fun y x => key y <? key x) x l).
Proof.
  induction l as [|y l IH]; intros Hs; simpl.
  - constructor; constructor.
  - apply StronglySorted_inv in Hs as [Hs Hy].
    destruct (Z.ltb_spec (key y) (key x)) as [Hlt|Hge].
    + constructor; [now apply IH|].
      apply Forall_forall. intros z Hz. apply list_elem_of_In in Hz.
      assert (Hp : Permutation
                     (insert_stable (fun y x => key y <? key x) x l)
                     (x :: l)).
      { clear. induction l as [|a l IH]; simpl; [reflexivity|].
        destruct (key a <? key x); [|reflexivity].
        rewrite IH. apply perm_swap. }
      eapply Permutation_in in Hz; [|exact Hp].
      destruct Hz as [<-|Hz]; [lia|].
      rewrite Forall_forall in Hy. apply Hy. now apply list_elem_of_In.
    + constructor; [now constructor|].
      constructor; [exact Hge|].
      apply Forall_forall. intros z Hz.
      rewrite Forall_forall in Hy. specialize (Hy z Hz). lia.
Qed.

Lemma sort_stable_ascending {A} (key : A -> Z) (l : list A) :
  StronglySorted (fun a b => key a <= key b)
                 (sort_stable (fun y x => key y <? key x) l).
Proof.
  induction l as [|x l IH]; simpl; [constructor|].
  now apply insert_stable_ascending.
Qed.

(** [index_chunks] without force on a collection that holds documents. *)
Lemma index_chunks_loads (service : list string -> Result (list Embedding))
      (self : HybridRetriever) (new_chunks : list Chunk) (rows : list Row) :
  chroma_client self !! collection_name self = Some rows ->
  rows <> [] ->
  let loaded :=
    sort_stable (fun y x => chunk_id y <? chunk_id x)
                (map chunk_of_row rows) in
  index_chunks service self new_chunks false
  = _build_bm25_index
      {| collection_name := collection_name self;
         chroma_client := chroma_client self;
         collection := Some (collection_name self);
         bm25 := bm25 self;
         chunks := loaded;
         tokenized_corpus := tokenized_corpus self |}
      (map text loaded).
Proof.
  intros Hrows Hne loaded.
  unfold index_chunks, has_collection.
  cbn [with_chunks collection_name chroma_client negb].
  rewrite Hrows. cbn [andb].
  unfold _rebuild_bm25_from_collection.
  cbn [with_collection with_chunks collection chroma_client].
  rewrite Hrows.
  destruct rows as [|r rows]; [congruence|]. reflexivity.
Qed.

Lemma stored_rows_chunks (cs : list Chunk) :
  forall es,
    length es = length cs ->
    map chunk_of_row (stored_rows cs es) = map forget_source cs.
Proof.
  induction cs as [|c cs IH]; intros [|e es] Hlen; try discriminate.
  - reflexivity.
  - injection Hlen as Hlen. cbn [stored_rows map]. now rewrite IH.
Qed.

Lemma ascending_forget (cs : list Chunk) :
  ascending_ids cs ->
  StronglySorted
    (fun x y => (chunk_id y <? chunk_id x) = false)
    (map forget_source cs).
Proof.
  induction 1 as [|c cs Hs IH Hc]; simpl; constructor; [exact IH|].
  apply Forall_forall. intros y Hy.
  apply list_elem_of_In, in_map_iff in Hy as (c' & <- & Hc').
  rewrite Forall_forall in Hc. apply list_elem_of_In in Hc'.
  specialize (Hc _ Hc'). simpl. apply Z.ltb_ge. lia.
Qed.

Lemma ascending_NoDup (cs : list Chunk) :
  ascending_ids cs -> NoDup (map chunk_id cs).
Proof.
  induction 1 as [|c cs Hs IH Hc]; simpl; constructor; [|exact IH].
  intros Hin. apply list_elem_of_fmap in Hin as (c' & Heq & Hc').
  rewrite Forall_forall in Hc. specialize (Hc _ Hc'). lia.
Qed.

Lemma has_token_nonempty (texts : list string) :
  has_token (map tokenize texts) = true -> texts <> [].
Proof. now destruct texts. Qed.

(** X11.  A forced (or first) indexing of chunks with distinct
    identifiers, when the service returns one embedding per text, writes the
    collection before it builds the lexical index: the collection of the
    configured name holds exactly one row per chunk, in order, under the
    identifier [str(chunk_id)], every other collection of the store is
    untouched, and the chunks in memory are the argument.  The call then
    succeeds with the lexical index built over the texts when one of them
    has a word; when none has, which includes the empty list of chunks, it
    raises [ZeroDivisionError] with the collection written and the lexical
    index left as it was. *)
Theorem index_chunks_stores (self : HybridRetriever)
        (new_chunks : list Chunk) (force_reindex : bool)
        (es : list Embedding) :
  NoDup (map chunk_id new_chunks) ->
  force_reindex = true
  \/ chroma_client self !! collection_name self = None ->
  get_embeddings embed (map text new_chunks) = Ok es ->
  length es = length new_chunks ->
  let outcome := index_chunks embed self new_chunks force_reindex in
  let after := fst outcome in
  let tokenized := map tokenize (map text new_chunks) in
  chroma_client after !! collection_name self
  = Some (stored_rows new_chunks es)
  /\ (forall other,
         other <> collection_name self ->
         chroma_client after !! other = chroma_client self !! other)
  /\ collection after = Some (collection_name self)
  /\ chunks after = new_chunks
  /\ tokenized_corpus after = tokenized
  /\ (has_token tokenized = true ->
      snd outcome = Ok tt /\ bm25 after = Some {| corpus := tokenized |})
  /\ (has_token tokenized = false ->
      snd outcome = Raise ZeroDivisionError /\ bm25 after = bm25 self).
Proof.
  intros Hids Hfresh Hes Hlen outcome after tokenized.
  unfold after, outcome.
  rewrite (index_chunks_builds embed self new_chunks force_reindex es
             Hids Hfresh Hes Hlen).
  fold tokenized.
  destruct (has_token tokenized) eqn:Htoken.
  - rewrite build_bm25_index_ok by exact Htoken.
    cbn [fst snd chroma_client collection chunks bm25 tokenized_corpus].
    split; [apply lookup_insert_eq|].
    split; [intros other Hne; now apply lookup_insert_ne|].
    repeat split; congruence.
  - rewrite build_bm25_index_fails by exact Htoken.
    cbn [fst snd chroma_client collection chunks bm25 tokenized_corpus].
    split; [apply lookup_insert_eq|].
    split; [intros other Hne; now apply lookup_insert_ne|].
    repeat split; congruence.
Qed.

(** X12.  What was indexed is what a new process loads.  After a forced
    indexing of chunks in strictly ascending order of identifier, one of
    which has a word in its text, a retriever started on the store left
    behind and asked to index anything without force holds the indexed
    chunks (without the key [source_file], which is not stored) and the
    same lexical index, and leaves the store as it was. *)
Theorem persisted_index_reloads
        (embed' : list string -> Result (list Embedding))
        (self : HybridRetriever) (new_chunks other : list Chunk)
        (es : list Embedding) :
  has_token (map tokenize (map text new_chunks)) = true ->
  ascending_ids new_chunks ->
  get_embeddings embed (map text new_chunks) = Ok es ->
  length es = length new_chunks ->
  let indexed := fst (index_chunks embed self new_chunks true) in
  let restarted := init (collection_name self) (chroma_client indexed) in
  let loaded := fst (index_chunks embed' restarted other false) in
  snd (index_chunks embed self new_chunks true) = Ok tt
  /\ snd (index_chunks embed' restarted other false) = Ok tt
  /\ chunks loaded = map forget_source new_chunks
  /\ bm25 loaded = bm25 indexed
  /\ tokenized_corpus loaded = tokenized_corpus indexed
  /\ chroma_client loaded = chroma_client indexed.
Proof.
  intros Htoken Hasc Hes Hlen indexed restarted loaded.
  unfold loaded, restarted, indexed.
  rewrite (index_chunks_builds embed self new_chunks true es
             (ascending_NoDup _ Hasc) (or_introl eq_refl) Hes Hlen).
  rewrite build_bm25_index_ok by exact Htoken.
  cbn [fst snd chroma_client bm25 tokenized_corpus].
  assert (Hrows : stored_rows new_chunks es <> []).
  { pose proof (has_token_nonempty _ Htoken) as Hne.
    destruct new_chunks as [|c cs]; [now destruct Hne|].
    destruct es as [|e es]; [discriminate|]. discriminate. }
  rewrite (index_chunks_loads embed' _ other (stored_rows new_chunks es))
    by (try exact Hrows; cbn [init chroma_client collection_name];
        apply lookup_insert_eq).
  rewrite (stored_rows_chunks new_chunks es Hlen).
  rewrite (sort_stable_fixed _ _ (ascending_forget new_chunks Hasc)).
  assert (Htexts : map text (map forget_source new_chunks)
                   = map text new_chunks).
  { rewrite map_map. now apply map_ext. }
  rewrite Htexts, build_bm25_index_ok by exact Htoken.
  cbn [fst snd chroma_client collection chunks bm25 tokenized_corpus init].
  repeat split.
Qed.

(** X13.  The chunks [_rebuild_bm25_from_collection] loads from a collection
    that holds documents are the stored chunks, each once, in ascending order
    of chunk identifier, and the store is not written.  When one of the
    documents has a word, the lexical index is built over the texts in that
    same order; when none has, the call raises [ZeroDivisionError] and the
    lexical index is left as it was. *)
Theorem rebuild_loads_sorted (self : HybridRetriever) (handle : string)
        (rows : list Row) :
  collection self = Some handle ->
  chroma_client self !! handle = Some rows ->
  rows <> [] ->
  let outcome := _rebuild_bm25_from_collection self in
  let after := fst outcome in
  let tokenized := map tokenize (map text (chunks after)) in
  Permutation (chunks after) (map chunk_of_row rows)
  /\ StronglySorted (fun a b => chunk_id a <= chunk_id b) (chunks after)
  /\ tokenized_corpus after = tokenized
  /\ chroma_client after = chroma_client self
  /\ (has_token tokenized = true ->
      snd outcome = Ok tt /\ bm25 after = Some {| corpus := tokenized |})
  /\ (has_token tokenized = false ->
      snd outcome = Raise ZeroDivisionError /\ bm25 after = bm25 self).
Proof.
  intros Hc Hrows Hne outcome after tokenized.
  unfold tokenized, after, outcome, _rebuild_bm25_from_collection.
  rewrite Hc, Hrows. destruct rows as [|r rows]; [congruence|].
  cbn [is_empty].
  set (loaded := sort_stable _ _).
  destruct (has_token (map tokenize (map text loaded))) eqn:Htoken.
  - rewrite build_bm25_index_ok by exact Htoken.
    cbn [fst snd with_chunks chunks bm25 tokenized_corpus chroma_client].
    split; [apply sort_stable_permutation|].
    split; [apply (sort_stable_ascending chunk_id)|].
    rewrite Htoken. repeat split; congruence.
  - rewrite build_bm25_index_fails by exact Htoken.
    cbn [fst snd with_chunks chunks bm25 tokenized_corpus chroma_client].
    split; [apply sort_stable_permutation|].
    split; [apply (sort_stable_ascending chunk_id)|].
    rewrite Htoken. repeat split; congruence.
Qed.

End Lifecycle.

Section SearchResults.

Import Chunker Retriever Stored.

Variable get_scores : list (list string) -> list string -> list float.
Variable argsort : list float -> list nat.

Lemma bm25_hits_spec (self : HybridRetriever) (scores : list float)
      (top_indices : list nat) :
  forall hits,
    bm25_hits self scores top_indices = Ok hits ->
    Forall (fun h => (Float.zero <? snd h)%float = true
                     /\ exists idx c,
                          idx ∈ top_indices
                          /\ chunks self !! idx = Some c
                          /\ scores !! idx = Some (snd h)
                          /\ fst h = hit_of_chunk c) hits
    /\ (length hits <= length top_indices)%nat.
Proof.
  induction top_indices as [|idx rest IH]; intros hits Hhits.
  - injection Hhits as <-. split; [constructor|reflexivity].
  - cbn [bm25_hits] in Hhits.
    destruct (scores !! idx) as [score|] eqn:Hscore; [|discriminate].
    destruct (Float.zero <? score)%float eqn:Hpos.
    + destruct (chunks self !! idx) as [c|] eqn:Hc; [|discriminate].
      unfold mbind, result_bind in Hhits.
      destruct (bm25_hits self scores rest) as [more|]; [|discriminate].
      injection Hhits as <-.
      destruct (IH more eq_refl) as [Hall Hlen].
      split; [|simpl; lia].
      constructor.
      * split; [exact Hpos|].
        exists idx, c. repeat split; auto. apply elem_of_cons. now left.
      * eapply Forall_impl; [exact Hall|].
        intros h (Hh & i & c' & Hi & Hrest). split; [exact Hh|].
        exists i, c'. split; [apply elem_of_cons; now right|exact Hrest].
    + destruct (IH hits Hhits) as [Hall Hlen].
      split; [|simpl; lia].
      eapply Forall_impl; [exact Hall|].
      intros h (Hh & i & c' & Hi & Hrest). split; [exact Hh|].
      exists i, c'. split; [apply elem_of_cons; now right|exact Hrest].
Qed.

Lemma slice_to_length {A} (n : Z) (l : list A) :
  0 <= n -> length (slice_to n l) = Nat.min (Z.to_nat n) (length l).
Proof.
  intros Hn. unfold slice_to.
  destruct (Z.ltb_spec n 0); [lia|]. apply length_take.
Qed.

(** X14.  Every hit of the lexical search has a score above 0, is one of
    the chunks in memory with the score the index gave it, and there are at
    most [top_k] hits. *)
Theorem search_bm25_hits (self : HybridRetriever) (q : string) (top_k : Z)
        (hits : list (Hit * float)) :
  0 <= top_k ->
  search_bm25 get_scores argsort self q top_k = Ok hits ->
  Forall (fun h => (Float.zero <? snd h)%float = true
                   /\ exists c, c ∈ chunks self /\ fst h = hit_of_chunk c)
         hits
  /\ Z.of_nat (length hits) <= top_k.
Proof.
  intros Hk. unfold search_bm25.
  destruct (bm25 self) as [index|].
  - destruct (is_empty (chunks self)).
    + intros [= <-]. split; [constructor|simpl; lia].
    + intros Hhits. apply bm25_hits_spec in Hhits as [Hall Hlen].
      split.
      * eapply Forall_impl; [exact Hall|].
        intros h (Hh & i & c & _ & Hc & _ & Hf). split; [exact Hh|].
        exists c. split; [|exact Hf]. eapply list_elem_of_lookup_2; eauto.
      * rewrite slice_to_length in Hlen by exact Hk. lia.
  - intros [= <-]. split; [constructor|simpl; lia].
Qed.

(** X15.  For a non-negative [top_k], the fusion returns as many results as
    there are distinct chunks in the two rankings, cut at [top_k]. *)
Theorem fusion_length (vector_results bm25_results : list (Hit * float))
        (top_k : Z) (vector_weight bm25_weight : float) :
  0 <= top_k ->
  length (rrf_fusion vector_results bm25_results top_k
                     vector_weight bm25_weight)
  = Nat.min (Z.to_nat top_k)
            (length (first_appearance
                       (ids vector_results ++ ids bm25_results)%list)).
Proof.
  intros Hk. unfold rrf_fusion.
  rewrite length_map, slice_to_length by exact Hk. f_equal.
  unfold sorted_by_rrf.
  rewrite (Permutation_length (sort_stable_permutation _ _)), length_map.
  rewrite <- (keys_rrf_table vector_results bm25_results
                             vector_weight bm25_weight).
  unfold keys. now rewrite length_map.
Qed.

(** X16.  After [clear_index] the collection is gone from the store and
    the other collections are untouched, the lexical search finds nothing
    for any query, and the next [index_chunks] builds the index anew whether
    or not it is forced. *)
Theorem clear_index_resets
        (embed : list string -> Result (list Embedding))
        (self : HybridRetriever) (q : string) (top_k : Z)
        (new_chunks : list Chunk) :
  let cleared := clear_index self in
  chroma_client cleared !! collection_name self = None
  /\ (forall other,
         other <> collection_name self ->
         chroma_client cleared !! other = chroma_client self !! other)
  /\ search_bm25 get_scores argsort cleared q top_k = Ok []
  /\ index_chunks embed cleared new_chunks false
     = index_chunks embed cleared new_chunks true.
Proof.
  intros cleared. split; [apply lookup_delete_eq|].
  split; [intros other Hne; now apply lookup_delete_ne|].
  split; [reflexivity|].
  unfold index_chunks, has_collection.
  cbn [with_chunks clear_index cleared collection_name chroma_client].
  now rewrite lookup_delete_eq.
Qed.

End SearchResults.

Section Tokens.

Import Retriever.

Lemma to_lower_not_upper (c : ascii) : Py.is_upper (Py.to_lower c) = false.
Proof. destruct c as [[] [] [] [] [] [] [] []]; reflexivity. Qed.

Lemma to_lower_idempotent (c : ascii) :
  Py.to_lower (Py.to_lower c) = Py.to_lower c.
Proof. destruct c as [[] [] [] [] [] [] [] []]; reflexivity. Qed.

Lemma lower_lower (s : string) : Py.lower (Py.lower s) = Py.lower s.
Proof.
  unfold Py.lower, Py.str, Py.chars.
  rewrite list_ascii_of_string_of_list_ascii, map_map.
  f_equal. apply map_ext, to_lower_idempotent.
Qed.

Lemma word_runs_spec (P : ascii -> Prop) (l : list ascii) :
  Forall P l ->
  Forall (fun c => Py.is_word c = true /\ P c) (fst (word_runs l))
  /\ Forall (fun t => t <> []
                      /\ Forall (fun c => Py.is_word c = true /\ P c) t)
            (snd (word_runs l)).
Proof.
  induction 1 as [|c l Hc Hl [IHw IHws]]; simpl; [split; constructor|].
  destruct (word_runs l) as [w ws]. simpl in IHw, IHws.
  destruct (Py.is_word c) eqn:Hw; simpl.
  - split; [constructor; auto|exact IHws].
  - split; [constructor|].
    destruct w as [|c0 w]; [exact IHws|].
    constructor; [|exact IHws]. split; [discriminate|exact IHw].
Qed.

(** X17.  The tokens of [tokenize] are non-empty and made of word
    characters only, none of them an upper-case letter; tokenizing a text and
    tokenizing its lower-case form give the same tokens. *)
Theorem tokenize_tokens (text token : string) :
  token ∈ tokenize text ->
  token <> ""
  /\ Forall (fun c => Py.is_word c = true /\ Py.is_upper c = false)
            (Py.chars token)
  /\ tokenize (Py.lower text) = tokenize text.
Proof.
  intros Ht. split; [|split].
  - unfold tokenize in Ht.
    assert (Hlow : Forall (fun c => Py.is_upper c = false)
                          (Py.chars (Py.lower text))).
    { unfold Py.lower, Py.chars, Py.str.
      rewrite list_ascii_of_string_of_list_ascii.
      apply Forall_forall. intros c Hc.
      apply list_elem_of_In, in_map_iff in Hc as (c0 & <- & _).
      apply to_lower_not_upper. }
    destruct (word_runs_spec _ _ Hlow) as [Hw Hws].
    destruct (word_runs (Py.chars (Py.lower text))) as [w ws].
    simpl in Hw, Hws.
    apply list_elem_of_In, in_map_iff in Ht as (t & <- & Hin).
    assert (Ht : t <> [] /\ Forall (fun c => Py.is_word c = true
                                             /\ Py.is_upper c = false) t).
    { destruct w as [|c0 w].
      - rewrite Forall_forall in Hws. apply Hws. now apply list_elem_of_In.
      - destruct Hin as [<-|Hin]; [split; [discriminate|exact Hw]|].
        rewrite Forall_forall in Hws. apply Hws. now apply list_elem_of_In. }
    destruct t as [|c0 t]; [now destruct Ht|]. discriminate.
  - unfold tokenize in Ht.
    assert (Hlow : Forall (fun c => Py.is_upper c = false)
                          (Py.chars (Py.lower text))).
    { unfold Py.lower, Py.chars, Py.str.
      rewrite list_ascii_of_string_of_list_ascii.
      apply Forall_forall. intros c Hc.
      apply list_elem_of_In, in_map_iff in Hc as (c0 & <- & _).
      apply to_lower_not_upper. }
    destruct (word_runs_spec _ _ Hlow) as [Hw Hws].
    destruct (word_runs (Py.chars (Py.lower text))) as [w ws].
    simpl in Hw, Hws.
    apply list_elem_of_In, in_map_iff in Ht as (t & <- & Hin).
    unfold Py.chars, Py.str. rewrite list_ascii_of_string_of_list_ascii.
    destruct w as [|c0 w].
    + rewrite Forall_forall in Hws. apply Hws. now apply list_elem_of_In.
    + destruct Hin as [<-|Hin]; [exact Hw|].
      rewrite Forall_forall in Hws. apply Hws. now apply list_elem_of_In.
  - unfold tokenize. now rewrite lower_lower.
Qed.

End Tokens.

Section SingleRanking.

Import Retriever Stored.

Lemma update_snoc (d : Scores) (k : Z) (v : Fused) (f : Fused -> Fused) :
  contains d k = false ->
  update (d ++ [(k, v)])%list k f = (d ++ [(k, f v)])%list.
Proof.
  induction d as [|[k0 v0] d IH]; simpl; intros Hk.
  - now rewrite Z.eqb_refl.
  - apply orb_false_iff in Hk as [Hne Hk]. rewrite Hne. now rewrite IH.
Qed.

Lemma fresh_key (d : Scores) (k : Z) (rest : list Z) :
  NoDup (keys d ++ k :: rest) ->
  contains d k = false
  /\ forall v : Fused, NoDup (keys (d ++ [(k, v)])%list ++ rest).
Proof.
  intros Hnd. split.
  - rewrite contains_mem. destruct (mem k (keys d)) eqn:Hm; [|reflexivity].
    apply mem_elem_of in Hm. apply NoDup_app in Hnd as (_ & Hdis & _).
    exfalso. apply (Hdis k Hm). apply elem_of_cons. now left.
  - intros v. unfold keys. rewrite map_app. simpl.
    now rewrite <- app_assoc.
Qed.

Lemma bm25_fold_fresh (w : float) (ranking : list (Hit * float)) :
  forall rank d,
    NoDup (keys d ++ ids ranking) ->
    fold_left (bm25_step w) (enumerate_from rank ranking) d
    = (d ++ map (bm25_entry w) (enumerate_from rank ranking))%list.
Proof.
  induction ranking as [|[c s] rest IH]; intros rank d Hnd;
    cbn [fold_left enumerate_from map].
  - now rewrite app_nil_r.
  - cbn [ids map fst] in Hnd. fold (ids rest) in Hnd.
    destruct (fresh_key d _ _ Hnd) as [Hfresh Hnext].
    assert (Hstep : bm25_step w d (rank, (c, s))
                    = (d ++ [bm25_entry w (rank, (c, s))])%list).
    { unfold bm25_step, setdefault. rewrite Hfresh.
      now rewrite !update_snoc. }
    rewrite Hstep, IH by apply Hnext.
    now rewrite <- app_assoc.
Qed.

Lemma vector_fold_fresh (w : float) (ranking : list (Hit * float)) :
  forall rank d,
    NoDup (keys d ++ ids ranking) ->
    fold_left (vector_step w) (enumerate_from rank ranking) d
    = (d ++ map (vector_entry w) (enumerate_from rank ranking))%list.
Proof.
  induction ranking as [|[c s] rest IH]; intros rank d Hnd;
    cbn [fold_left enumerate_from map].
  - now rewrite app_nil_r.
  - cbn [ids map fst] in Hnd. fold (ids rest) in Hnd.
    destruct (fresh_key d _ _ Hnd) as [Hfresh Hnext].
    assert (Hstep : vector_step w d (rank, (c, s))
                    = (d ++ [vector_entry w (rank, (c, s))])%list).
    { unfold vector_step, setdefault. rewrite Hfresh.
      now rewrite !update_snoc. }
    rewrite Hstep, IH by apply Hnext.
    now rewrite <- app_assoc.
Qed.

(** Numbers none of which is smaller than the next: none is smaller than
    any later one. *)
Lemma weakly_decreasing_sorted (l : list float) :
  weakly_decreasing l = true ->
  StronglySorted (fun x y => (x <? y)%float = false) l.
Proof.
  induction l as [|x rest IH]; intros Hl; [constructor|].
  cbn [weakly_decreasing] in Hl.
  apply andb_true_iff in Hl as [Hl Hrest].
  apply andb_true_iff in Hl as [Hx Hnext].
  specialize (IH Hrest). constructor; [exact IH|].
  destruct rest as [|y rest]; [constructor|].
  apply negb_true_iff in Hnext.
  constructor; [exact Hnext|].
  apply StronglySorted_inv in IH as [_ Hy].
  cbn [weakly_decreasing] in Hrest.
  apply andb_true_iff in Hrest as [Hrest _].
  apply andb_true_iff in Hrest as [Hny _].
  apply negb_true_iff in Hny.
  eapply Forall_impl; [exact Hy|].
  intros z Hz. now apply (not_ltb_trans _ y).
Qed.

Lemma weakly_decreasing_take (l : list float) :
  weakly_decreasing l = true ->
  forall n, weakly_decreasing (take n l) = true.
Proof.
  induction l as [|x rest IH]; intros Hl n; [now destruct n|].
  destruct n as [|n]; [reflexivity|].
  cbn [weakly_decreasing] in Hl.
  apply andb_true_iff in Hl as [Hl Hrest].
  apply andb_true_iff in Hl as [Hx Hnext].
  cbn [take firstn weakly_decreasing].
  rewrite Hx, (IH Hrest n). cbn [andb]. rewrite andb_true_r.
  destruct rest as [|y rest]; [now destruct n|].
  destruct n as [|n]; [reflexivity|exact Hnext].
Qed.

Lemma single_scores_take (w : float) (n m : nat) :
  (n <= m)%nat -> single_scores w n = take n (single_scores w m).
Proof.
  intros Hnm. unfold single_scores.
  rewrite firstn_map. f_equal.
  replace m with (n + (m - n))%nat by lia.
  rewrite seq_app, take_app_length'; [reflexivity|].
  symmetry. apply length_seq.
Qed.

(** The fused scores of the entries one ranking makes on its own. *)
Lemma entries_scores (w : float)
      (entry : float -> Z * (Hit * float) -> Z * Fused)
      (ranking : list (Hit * float)) :
  (forall item, rrf_score (snd (entry w item)) = single_score w (fst item)) ->
  forall first,
    map rrf_score
        (map snd (map (entry w)
                      (enumerate_from (Z.of_nat first) ranking)))
    = map (fun rank => single_score w (Z.of_nat rank))
          (seq first (length ranking)).
Proof.
  intros Hentry.
  induction ranking as [|h rest IH]; intros first;
    cbn [enumerate_from map length seq]; [reflexivity|].
  rewrite Hentry. cbn [fst]. f_equal.
  replace (Z.of_nat first + 1) with (Z.of_nat (S first)) by lia.
  apply IH.
Qed.

Lemma sorted_by_key {A} (key : A -> float) (l : list A) :
  StronglySorted (fun x y => (x <? y)%float = false) (map key l) ->
  StronglySorted (fun x y => (key x <? key y)%float = false) l.
Proof.
  induction l as [|x l IH]; intros Hs; [constructor|].
  cbn [map] in Hs. apply StronglySorted_inv in Hs as [Hs Hx].
  constructor; [now apply IH|].
  apply Forall_forall. intros y Hy.
  rewrite Forall_forall in Hx. apply Hx.
  apply list_elem_of_fmap. now exists y.
Qed.

(** Entries made from one ranking whose scores are weakly decreasing are
    already in the order the sort leaves alone. *)
Lemma entries_in_order (w : float)
      (entry : float -> Z * (Hit * float) -> Z * Fused)
      (ranking : list (Hit * float)) :
  (forall item, rrf_score (snd (entry w item)) = single_score w (fst item)) ->
  weakly_decreasing (single_scores w (length ranking)) = true ->
  StronglySorted
    (fun x y => (rrf_score x <? rrf_score y)%float = false)
    (map snd (map (entry w) (enumerate_from 0 ranking))).
Proof.
  intros Hentry Hw. apply sorted_by_key.
  change (enumerate_from 0 ranking)
    with (enumerate_from (Z.of_nat 0) ranking).
  rewrite (entries_scores w entry ranking Hentry 0).
  now apply weakly_decreasing_sorted.
Qed.

Lemma entries_ids (w : float)
      (entry : float -> Z * (Hit * float) -> Z * Fused)
      (ranking : list (Hit * float)) :
  (forall item, hit_chunk_id (chunk (snd (entry w item)))
                = hit_chunk_id (fst (snd item))) ->
  forall rank,
    map (fun e => hit_chunk_id (chunk e))
        (map snd (map (entry w) (enumerate_from rank ranking)))
    = ids ranking.
Proof.
  intros Hentry.
  induction ranking as [|h rest IH]; intros rank;
    cbn [enumerate_from map ids]; [reflexivity|].
  rewrite Hentry. cbn [fst snd]. f_equal. apply IH.
Qed.

Lemma slice_to_map {A B} (f : A -> B) (n : Z) (l : list A) :
  slice_to n (map f l) = map f (slice_to n l).
Proof.
  unfold slice_to. rewrite length_map.
  destruct (n <? 0); now rewrite firstn_map.
Qed.

Lemma bm25_alone (ranking : list (Hit * float)) (top_k : Z)
      (vector_weight bm25_weight : float) :
  NoDup (ids ranking) ->
  weakly_decreasing (single_scores bm25_weight (length ranking)) = true ->
  map res_chunk_id
      (rrf_fusion [] ranking top_k vector_weight bm25_weight)
  = slice_to top_k (ids ranking).
Proof.
  intros Hnd Hw.
  unfold rrf_fusion, rrf_table, sorted_by_rrf, enumerate.
  cbn [fold_left enumerate_from].
  rewrite bm25_fold_fresh by exact Hnd. cbn [app].
  rewrite (sort_stable_fixed _ _
             (entries_in_order bm25_weight bm25_entry ranking
                (fun '(r, (c, s)) => eq_refl) Hw)).
  rewrite map_map, <- slice_to_map.
  change (fun x => res_chunk_id (format_result x))
    with (fun e => hit_chunk_id (chunk e)).
  f_equal. apply (entries_ids bm25_weight bm25_entry).
  intros [r [c s]]. reflexivity.
Qed.

Lemma vector_alone (ranking : list (Hit * float)) (top_k : Z)
      (vector_weight bm25_weight : float) :
  NoDup (ids ranking) ->
  weakly_decreasing (single_scores vector_weight (length ranking)) = true ->
  map res_chunk_id
      (rrf_fusion ranking [] top_k vector_weight bm25_weight)
  = slice_to top_k (ids ranking).
Proof.
  intros Hnd Hw.
  unfold rrf_fusion, rrf_table, sorted_by_rrf, enumerate.
  rewrite vector_fold_fresh by exact Hnd. cbn [app fold_left enumerate_from].
  rewrite (sort_stable_fixed _ _
             (entries_in_order vector_weight vector_entry ranking
                (fun '(r, (c, s)) => eq_refl) Hw)).
  rewrite map_map, <- slice_to_map.
  change (fun x => res_chunk_id (format_result x))
    with (fun e => hit_chunk_id (chunk e)).
  f_equal. apply (entries_ids vector_weight vector_entry).
  intros [r [c s]]. reflexivity.
Qed.

(** The scores of the default weights decrease over the first 1000
    ranks. *)
Lemma default_weights_decrease (n : nat) :
  (n <= 1000)%nat ->
  weakly_decreasing (single_scores (Float.ratio 6 10) n) = true
  /\ weakly_decreasing (single_scores (Float.ratio 4 10) n) = true.
Proof.
  intros Hn. rewrite !(single_scores_take _ n 1000 Hn).
  split; apply weakly_decreasing_take; vm_compute; reflexivity.
Qed.

(** X18.  When one of the two searches finds nothing, the fusion returns
    the chunks of the other ranking in that ranking's order, cut at [top_k],
    provided the ranking repeats no chunk and the scores its weight gives,
    [0 + weight / (60 + rank + 1)] for the ranks of the ranking, are
    numbers none of which is smaller than the next.  With the default
    weights 0.6 and 0.4, the only ones the callers use, the order is kept
    for every ranking of at most 1000 distinct chunks. *)
Theorem fusion_single_ranking (ranking : list (Hit * float)) (top_k : Z)
        (vector_weight bm25_weight : float) :
  NoDup (ids ranking) ->
  (weakly_decreasing (single_scores bm25_weight (length ranking)) = true ->
   map res_chunk_id
       (rrf_fusion [] ranking top_k vector_weight bm25_weight)
   = slice_to top_k (ids ranking))
  /\ (weakly_decreasing (single_scores vector_weight (length ranking))
      = true ->
      map res_chunk_id
          (rrf_fusion ranking [] top_k vector_weight bm25_weight)
      = slice_to top_k (ids ranking))
  /\ ((length ranking <= 1000)%nat ->
      map res_chunk_id
          (rrf_fusion [] ranking top_k
                      (Float.ratio 6 10) (Float.ratio 4 10))
      = slice_to top_k (ids ranking)
      /\ map res_chunk_id
             (rrf_fusion ranking [] top_k
                         (Float.ratio 6 10) (Float.ratio 4 10))
         = slice_to top_k (ids ranking)).
Proof.
  intros Hnd.
  split; [now apply bm25_alone|].
  split; [now apply vector_alone|].
  intros Hlen.
  destruct (default_weights_decrease _ Hlen) as [Hv Hb].
  split; [now apply bm25_alone|now apply vector_alone].
Qed.

End SingleRanking.

(** * Further properties of the chunk assembly of [upload] *)

Section Upload.

Import Chunker Outline App.

Variable encoding : option (string -> list Z).

Lemma renumbered_ids (l : list Chunk) :
  forall n,
    map chunk_id
        (map (fun '(i, c) => set_chunk_id i c) (Retriever.enumerate_from n l))
    = map (fun i => n + Z.of_nat i) (seq 0 (length l)).
Proof.
  induction l as [|c l IH]; intros n; simpl; [reflexivity|].
  f_equal; [lia|].
  rewrite IH, <- seq_shift, map_map. apply map_ext. intros i. lia.
Qed.

Lemma renumbered_fields (l : list Chunk) :
  forall n,
    map (set_chunk_id 0)
        (map (fun '(i, c) => set_chunk_id i c) (Retriever.enumerate_from n l))
    = map (set_chunk_id 0) l.
Proof.
  induction l as [|c l IH]; intros n; simpl; [reflexivity|].
  now rewrite IH.
Qed.

Lemma renumbered_length (l : list Chunk) :
  forall n,
    length (map (fun '(i, c) => set_chunk_id i c)
                (Retriever.enumerate_from n l)) = length l.
Proof.
  induction l as [|c l IH]; intros n; simpl; [reflexivity|].
  now rewrite IH.
Qed.

Lemma renumbered_numbering (self : TextChunker) (l : list (Z * string)) :
  forall n,
    map (fun '(i, c) => set_chunk_id i c)
        (Retriever.enumerate_from n (number_from self n l))
    = number_from self n l.
Proof.
  induction l as [|[p t] l IH]; intros n; simpl; [reflexivity|].
  now rewrite IH.
Qed.

Lemma upload_fields (pdf_files : list (string * list Page)) :
  map (set_chunk_id 0) (upload_chunks encoding pdf_files)
  = map (set_chunk_id 0)
        (concat (map (file_chunks encoding (length pdf_files)) pdf_files)).
Proof. unfold upload_chunks, Retriever.enumerate. apply renumbered_fields. Qed.

(** X19.  [upload] hands [index_chunks] chunks numbered 0, 1, ..., N-1 in
    the order of the files; apart from the identifier, every chunk is as its
    file's chunking (and, for several files, the tagging with the file name)
    left it. *)
Theorem upload_renumbers (pdf_files : list (string * list Page)) :
  let merged :=
    concat (map (file_chunks encoding (length pdf_files)) pdf_files) in
  map chunk_id (upload_chunks encoding pdf_files)
  = map Z.of_nat (seq 0 (length merged))
  /\ map (set_chunk_id 0) (upload_chunks encoding pdf_files)
     = map (set_chunk_id 0) merged.
Proof.
  intros merged. unfold upload_chunks, Retriever.enumerate. fold merged.
  split; [apply (renumbered_ids merged 0)|].
  fold merged. apply renumbered_fields.
Qed.

(** X20.  For a single uploaded file, the chunks handed to [index_chunks]
    are exactly those of [create_chunks]: the renumbering changes nothing,
    and every citation is built from the chunk's own page number and
    identifier. *)
Theorem upload_single_file (filename : string) (pages_data : list Page) :
  upload_chunks encoding [(filename, pages_data)]
  = create_chunks encoding pages_data 500 100
  /\ forall c,
       c ∈ upload_chunks encoding [(filename, pages_data)] ->
       citation c = page_citation (page_num c) (chunk_id c).
Proof.
  assert (Heq : upload_chunks encoding [(filename, pages_data)]
                = create_chunks encoding pages_data 500 100).
  { unfold upload_chunks, Retriever.enumerate, file_chunks.
    cbn [length map concat Nat.ltb Nat.leb].
    rewrite app_nil_r. unfold create_chunks.
    rewrite chunk_pages_numbering. apply renumbered_numbering. }
  split; [exact Heq|].
  intros c Hc. rewrite Heq in Hc. unfold create_chunks in Hc.
  eapply chunk_pages_citation; eauto.
Qed.

(** X21.  When several files are uploaded, every chunk handed to
    [index_chunks] comes from one of the files: it carries that file's name
    in [source_file], and its citation is [[<short name>:p<page>:c<id>]]
    built from the page number and from the identifier the chunk had within
    its file. *)
Theorem upload_merged_citations (pdf_files : list (string * list Page))
        (c : Chunk) :
  (1 < length pdf_files)%nat ->
  c ∈ upload_chunks encoding pdf_files ->
  exists filename pages_data c0,
    (filename, pages_data) ∈ pdf_files
    /\ c0 ∈ create_chunks encoding pages_data 500 100
    /\ citation c = file_citation (short_name filename) c0
    /\ source_file c = Some filename
    /\ page_num c = page_num c0
    /\ text c = text c0
    /\ token_count c = token_count c0.
Proof.
  intros Hmany Hc.
  assert (Hin : set_chunk_id 0 c
                  ∈ map (set_chunk_id 0)
                        (concat (map (file_chunks encoding (length pdf_files))
                                     pdf_files))).
  { rewrite <- (upload_fields pdf_files).
    apply list_elem_of_In, in_map, list_elem_of_In, Hc. }
  apply list_elem_of_In, in_map_iff in Hin as (c1 & Hc1 & Hin).
  apply in_concat in Hin as (l & Hl & Hin).
  apply in_map_iff in Hl as ([filename pages_data] & <- & Hfile).
  unfold file_chunks in Hin.
  replace (1 <? length pdf_files)%nat with true in Hin
    by (symmetry; now apply Nat.ltb_lt).
  apply in_map_iff in Hin as (c0 & <- & Hc0).
  exists filename, pages_data, c0.
  split; [now apply list_elem_of_In|].
  split; [now apply list_elem_of_In|].
  destruct c as [i p t k ci sf]. unfold set_chunk_id, tag_with_file in Hc1.
  cbn in Hc1. injection Hc1 as Hp Ht Hk Hci Hsf. cbn. auto.
Qed.

Lemma length_substring (n : nat) :
  forall s, String.length (String.substring 0 n s)
            = Nat.min n (String.length s).
Proof.
  induction n as [|n IH]; intros [|c s]; simpl; try reflexivity.
  now rewrite IH.
Qed.

Lemma length_string_app (a b : string) :
  String.length (a ++ b)%string = (String.length a + String.length b)%nat.
Proof.
  induction a as [|c a IH]; [reflexivity|].
  change (S (String.length (a ++ b)%string)
          = S (String.length a + String.length b)).
  now rewrite IH.
Qed.

(** X22.  The short form of a file name is the name itself when it has at
    most 20 characters, and otherwise 23 characters: its first 20 followed by
    three periods. *)
Theorem short_name_length (filename : string) :
  (Py.len filename <= 20 -> short_name filename = filename)
  /\ (20 < Py.len filename ->
      short_name filename = (Py.take 20 filename ++ "...")%string
      /\ Py.len (Py.take 20 filename) = 20
      /\ Py.len (short_name filename) = 23)
  /\ Py.len (short_name filename) <= 23.
Proof.
  unfold short_name, Py.len, Py.take.
  destruct (Z.gtb_spec (Z.of_nat (String.length filename)) 20) as [Hlong|Hshort].
  - split; [lia|].
    assert (H20 : String.length (String.substring 0 20 filename) = 20%nat).
    { rewrite length_substring. lia. }
    rewrite length_string_app, H20. simpl String.length.
    split; [|lia]. intros _. split; [reflexivity|]. split; lia.
  - split; [reflexivity|]. split; lia.
Qed.

End Upload.

(** * Properties of the conversational agent *)

Section AgentProperties.

Import Retriever Agent.

Variable chat :
  string -> list (string * string) -> float -> Z -> Result string.
Variable embed : list string -> Result (list Embedding).
Variable distance : Embedding -> Embedding -> float.
Variable get_scores : list (list string) -> list string -> list float.
Variable argsort : list float -> list nat.

Lemma last_drop {A} (l : list A) (k : nat) :
  (k < length l)%nat -> last (drop k l) = last l.
Proof.
  intros Hk. destruct (last l) as [x|] eqn:Hl.
  - apply last_Some in Hl as [h ->].
    rewrite length_app in Hk. simpl in Hk.
    rewrite drop_app_le by lia. apply last_snoc.
  - apply last_None in Hl. subst l. simpl in Hk. lia.
Qed.

Lemma remember_history (self : ConversationalAgent) (turn : Turn) :
  0 <= max_history_turns self ->
  let history := conversation_history (remember self turn) in
  last history = Some turn
  /\ (0 < max_history_turns self ->
      Z.of_nat (length history) <= max_history_turns self)
  /\ (max_history_turns self = 0 ->
      history = (conversation_history self ++ [turn])%list).
Proof.
  intros Hmax history. unfold history, remember.
  cbn [conversation_history].
  set (h := (conversation_history self ++ [turn])%list).
  assert (Hlen : length h = S (length (conversation_history self))).
  { unfold h. rewrite length_app. simpl. lia. }
  assert (Hlast : last h = Some turn) by apply last_snoc.
  destruct (Z.gtb_spec (Z.of_nat (length h)) (max_history_turns self))
    as [Hover|Hfits].
  - unfold slice_from.
    destruct (Z.ltb_spec (- max_history_turns self) 0) as [Hpos|Hzero].
    + rewrite Z.opp_involutive. split; [|split].
      * rewrite last_drop by lia. exact Hlast.
      * intros _. rewrite length_drop. lia.
      * lia.
    + assert (Hm : max_history_turns self = 0) by lia.
      rewrite Hm. simpl. split; [exact Hlast|]. split; [lia|reflexivity].
  - split; [exact Hlast|]. split; [lia|reflexivity].
Qed.

(** X23.  When the search returns no chunk, the answer of [ask] is the
    fixed sentence that nothing was found, whatever the language model
    replied to the prompt built from the empty context. *)
Theorem ask_without_chunks (self : ConversationalAgent)
        (retriever : HybridRetriever) (query reformulated content : string)
        (top_k : Z) :
  reformulate_query chat self query = Ok reformulated ->
  search_hybrid embed distance get_scores argsort retriever reformulated
                top_k default_vector_weight default_bm25_weight = Ok [] ->
  chat (model self)
       (answer_messages reformulated
                        "No relevant context found in the document.")
       (temperature self) 1000 = Ok content ->
  snd (ask chat embed distance get_scores argsort self retriever query top_k)
  = Ok ("**Answer:** Not found in the document.", []).
Proof.
  intros Hq Hsearch Hchat. unfold ask. rewrite Hq, Hsearch.
  unfold generate_answer, build_context. cbn [Chunker.is_empty].
  rewrite Hchat. reflexivity.
Qed.

(** X24.  A question that fails, in the reformulation, in the search or in
    the answer, leaves the agent as it was: no turn is recorded. *)
Theorem ask_failure_keeps_history (self : ConversationalAgent)
        (retriever : HybridRetriever) (query : string) (top_k : Z)
        (e : Exception) :
  snd (ask chat embed distance get_scores argsort self retriever query top_k)
  = Raise e ->
  fst (ask chat embed distance get_scores argsort self retriever query top_k)
  = self.
Proof.
  unfold ask.
  destruct (reformulate_query chat self query) as [rq|]; [|reflexivity].
  destruct (search_hybrid _ _ _ _ _ _ _ _ _) as [retrieved|]; [|reflexivity].
  destruct (generate_answer _ _ _ _ _) as [answer|]; [|reflexivity].
  discriminate.
Qed.

(** X25.  A question that succeeds is recorded as the last turn, under the
    question as the user typed it.  With a positive [max_history_turns] the
    history never holds more turns than that; with [max_history_turns = 0]
    the history is never trimmed. *)
Theorem ask_history_bound (self : ConversationalAgent)
        (retriever : HybridRetriever) (query answer : string) (top_k : Z)
        (retrieved : list ScoredResult) :
  0 <= max_history_turns self ->
  snd (ask chat embed distance get_scores argsort self retriever query top_k)
  = Ok (answer, retrieved) ->
  let after :=
    fst (ask chat embed distance get_scores argsort self retriever
             query top_k) in
  let turn := {| user := query; assistant := answer;
                 retrieved_chunks := retrieved |} in
  last (conversation_history after) = Some turn
  /\ (0 < max_history_turns self ->
      Z.of_nat (length (conversation_history after))
      <= max_history_turns self)
  /\ (max_history_turns self = 0 ->
      conversation_history after
      = (conversation_history self ++ [turn])%list)
  /\ max_history_turns after = max_history_turns self.
Proof.
  intros Hmax. unfold ask.
  destruct (reformulate_query chat self query) as [rq|]; [|discriminate].
  destruct (search_hybrid _ _ _ _ _ _ _ _ _) as [found|]; [|discriminate].
  destruct (generate_answer _ _ _ _ _) as [reply|]; [|discriminate].
  cbn [fst snd]. intros [= <- <-].
  destruct (remember_history self
              {| user := query; assistant := reply;
                 retrieved_chunks := found |} Hmax) as (Hl & Hb & Hz).
  repeat split; auto.
Qed.

End AgentProperties.

(** * Properties of the command-line chatbot *)

Section MainProperties.

Import Chunker Outline Retriever Stored.

Variable encoding : option (string -> list Z).
Variable embed : list string -> Result (list Embedding).



(** What [check_existing_index] does on a collection that holds
    documents. *)
Lemma check_existing_index_rows (store : gmap string (list Row))
      (chunk_size chunk_overlap : Z) (rows : list Row) :
  store !! "document_chunks" = Some rows ->
  rows <> [] ->
  let loaded :=
    sort_stable (fun y x => chunk_id y <? chunk_id x)
                (map chunk_of_row rows) in
  let built :=
    _build_bm25_index
      {| collection_name := "document_chunks";
         chroma_client := store;
         collection := Some "document_chunks";
         bm25 := None;
         chunks := loaded;
         tokenized_corpus := [] |}
      (map text loaded) in
  Main.check_existing_index (Main.init store chunk_size chunk_overlap)
  = ({| Main.chunk_size := chunk_size;
        Main.chunk_overlap := chunk_overlap;
        Main.retriever := fst built;
        Main.is_indexed := true;
        Main.document_name := None |},
     match snd built with Ok _ => true | Raise _ => false end).
Proof.
  clear encoding embed.
  intros Hstore Hne loaded built.
  unfold Main.check_existing_index.
  cbn [Main.init Main.retriever Retriever.init chroma_client].
  rewrite Hstore.
  destruct rows as [|row rows]; [congruence|].
  replace (0 <? Z.of_nat (length (row :: rows))) with true
    by (symmetry; apply Z.ltb_lt; simpl; lia).
  unfold _rebuild_bm25_from_collection, with_collection, Retriever.init.
  cbn [collection chroma_client]. rewrite Hstore. cbn [is_empty].
  fold loaded.
  change (_build_bm25_index _ (map text loaded)) with built.
  destruct built as [r [[]|e]]; reflexivity.
Qed.

(** X26.  On start-up, [check_existing_index] leaves the chatbot as it was
    and answers [False] when the store holds no collection
    [document_chunks] or an empty one.  When the collection holds at least
    one document, the chatbot is marked as indexed and holds the stored
    chunks in ascending order of identifier, and the store is not written;
    the answer is [True], with the lexical index built over these chunks,
    when one of them has a word in its text, and [False], without a lexical
    index, when none has. *)
Theorem check_existing_index_loads (store : gmap string (list Row))
        (chunk_size chunk_overlap : Z) :
  let fresh := Main.init store chunk_size chunk_overlap in
  let found := Main.check_existing_index fresh in
  match store !! "document_chunks" with
  | Some (row :: rows) =>
      let loaded :=
        sort_stable (fun y x => chunk_id y <? chunk_id x)
                    (map chunk_of_row (row :: rows)) in
      let tokenized := map tokenize (map text loaded) in
      Main.is_indexed (fst found) = true
      /\ chunks (Main.retriever (fst found)) = loaded
      /\ collection (Main.retriever (fst found)) = Some "document_chunks"
      /\ chroma_client (Main.retriever (fst found)) = store
      /\ (has_token tokenized = true ->
          snd found = true
          /\ bm25 (Main.retriever (fst found))
             = Some {| corpus := tokenized |})
      /\ (has_token tokenized = false ->
          snd found = false
          /\ bm25 (Main.retriever (fst found)) = None)
  | _ => found = (fresh, false)
  end.
Proof.
  clear encoding embed.
  intros fresh found.
  destruct (store !! "document_chunks") as [[|row rows]|] eqn:Hstore.
  - unfold found, Main.check_existing_index, fresh.
    cbn [Main.init Main.retriever Retriever.init chroma_client].
    now rewrite Hstore.
  - intros loaded tokenized. unfold found, fresh.
    rewrite (check_existing_index_rows store chunk_size chunk_overlap
               (row :: rows) Hstore) by discriminate.
    fold loaded.
    destruct (has_token tokenized) eqn:Htoken.
    + rewrite build_bm25_index_ok by exact Htoken.
      cbn [fst snd Main.is_indexed Main.retriever chunks collection
               chroma_client bm25].
      repeat split; congruence.
    + rewrite build_bm25_index_fails by exact Htoken.
      cbn [fst snd Main.is_indexed Main.retriever chunks collection
               chroma_client bm25].
      repeat split; congruence.
  - unfold found, Main.check_existing_index, fresh.
    cbn [Main.init Main.retriever Retriever.init chroma_client].
    now rewrite Hstore.
Qed.


End MainProperties.

(** * Further properties, at concrete inputs *)

Section FurtherExamples.

Import Chunker Outline Retriever Stored Samples Dialogue.

(** [chunk_pages_provenance] on the chunk of the self-test. *)
Lemma chunk_pages_provenance_witness :
  self_test_chunk ∈ chunk_pages self_test [test_page]
  /\ exists page chunk_text,
       page ∈ [test_page]
       /\ chunk_text ∈ _chunk_text self_test (page_text page)
       /\ text self_test_chunk = Py.strip chunk_text.
Proof.
  assert (Hc : self_test_chunk ∈ chunk_pages self_test [test_page]).
  { apply list_elem_of_In. vm_compute. left. reflexivity. }
  split; [exact Hc|].
  destruct (chunk_pages_provenance self_test [test_page] self_test_chunk Hc)
    as (page & chunk_text & Hp & _ & Ht & _ & Hs & _).
  exists page, chunk_text. split; [exact Hp|]. split; [exact Ht|exact Hs].
Defined.

(** [chunk_text_coverage] on the test page, target 8 and overlap 5. *)
Lemma chunk_text_coverage_witness :
  split_into_sentences (page_text test_page) <> []
  /\ concat (map Outline.fresh
                 (_chunk_text_trace small (page_text test_page)))
     = concat (map (expand small)
                   (split_into_sentences (page_text test_page))).
Proof.
  assert (Hne : split_into_sentences (page_text test_page) <> []).
  { vm_compute. discriminate. }
  split; [exact Hne|].
  apply (chunk_text_coverage small (page_text test_page) Hne).
Defined.

(** [chunk_text_size_bound] on the third chunk of the test page, target 8
    and overlap 5: 13 tokens, of which 5 were carried over. *)
Lemma chunk_text_size_bound_witness :
  let e := {| pieces := ["This is the second sentence.";
                         "Here comes a third one with more content."];
              carried := ["This is the second sentence."] |} in
  e ∈ _chunk_text_trace small (page_text test_page)
  /\ sum_tokens small (pieces e)
     <= chunk_size small + sum_tokens small (carried e)
  /\ sum_tokens small (pieces e) <= chunk_size small + chunk_overlap small.
Proof.
  intros e.
  assert (Hov : 0 <= chunk_overlap small) by (vm_compute; discriminate).
  assert (Hsmall : Forall (fun s => count_tokens small s <= chunk_size small)
                          (split_into_sentences (page_text test_page))).
  { vm_compute. repeat constructor; discriminate. }
  assert (Hne : split_into_sentences (page_text test_page) <> []).
  { vm_compute. discriminate. }
  assert (He : e ∈ _chunk_text_trace small (page_text test_page)).
  { apply list_elem_of_In. vm_compute. right. right. left. reflexivity. }
  split; [exact He|].
  destruct (chunk_text_size_bound small (page_text test_page) Hov Hsmall Hne
              e He) as (Hc & Ho & _).
  split; [exact Hc|exact Ho].
Defined.

(** [sentences_trimmed] on the second sentence of the test page. *)
Lemma sentences_trimmed_witness :
  "This is the second sentence."
    ∈ split_into_sentences (page_text test_page)
  /\ Py.strip "This is the second sentence."
     = "This is the second sentence.".
Proof.
  assert (Hs : "This is the second sentence."
                 ∈ split_into_sentences (page_text test_page)).
  { apply list_elem_of_In. vm_compute. right. left. reflexivity. }
  split; [exact Hs|].
  apply (sentences_trimmed (page_text test_page) _ Hs).
Defined.

(** [batches_partition] on the empty list of texts. *)
Lemma batches_partition_witness : batches [] = [].
Proof.
  destruct (batches_partition []) as (_ & _ & Hempty).
  apply Hempty. reflexivity.
Defined.

(** [get_embeddings_ok] on the texts of the self-test of the retriever,
    with the service that answers. *)
Lemma get_embeddings_ok_witness :
  (forall b, b ∈ batches (map text [revenue; margin; airport]) ->
             embed_ok b = Ok (map (fun t => [Float.of_Z (Py.len t)]) b))
  /\ get_embeddings embed_ok (map text [revenue; margin; airport])
     = Ok (map (fun t => [Float.of_Z (Py.len t)])
               (map text [revenue; margin; airport])).
Proof.
  assert (H : forall b,
             b ∈ batches (map text [revenue; margin; airport]) ->
             embed_ok b = Ok (map (fun t => [Float.of_Z (Py.len t)]) b)).
  { intros b _. reflexivity. }
  split; [exact H|].
  destruct (get_embeddings_ok embed_ok
              (map (fun t => [Float.of_Z (Py.len t)]))
              (map text [revenue; margin; airport]) H) as [_ Hmap].
  apply Hmap. intros b. reflexivity.
Defined.

(** [get_embeddings_fails] on one text, with the service down. *)
Lemma get_embeddings_fails_witness :
  batches [text airport] = ([] ++ [text airport] :: [])%list
  /\ embed_down [text airport] = Raise EmbeddingServiceError
  /\ get_embeddings embed_down [text airport] = Raise EmbeddingServiceError.
Proof.
  assert (Hb : batches [text airport] = ([] ++ [text airport] :: [])%list)
    by reflexivity.
  assert (He : embed_down [text airport] = Raise EmbeddingServiceError)
    by reflexivity.
  split; [exact Hb|]. split; [exact He|].
  apply (get_embeddings_fails embed_down [text airport]
           EmbeddingServiceError [] [text airport] [] Hb (List.Forall_nil _) He).
Defined.

(** [index_chunks_stores] on the first indexing of the self-test. *)
Lemma index_chunks_stores_witness :
  let es := [[Float.of_Z 39]; [Float.of_Z 29]] in
  NoDup (map chunk_id [revenue; margin])
  /\ get_embeddings embed_ok (map text [revenue; margin]) = Ok es
  /\ has_token (map tokenize (map text [revenue; margin])) = true
  /\ snd (index_chunks embed_ok Samples.fresh [revenue; margin] true)
     = Ok tt
  /\ chroma_client built !! name = Some (stored_rows [revenue; margin] es)
  /\ chunks built = [revenue; margin].
Proof.
  intros es.
  assert (Hids : NoDup (map chunk_id [revenue; margin])).
  { apply NoDup_ListNoDup. repeat constructor; simpl; intuition discriminate. }
  assert (Hes : get_embeddings embed_ok (map text [revenue; margin]) = Ok es)
    by (vm_compute; reflexivity).
  assert (Hlen : length es = length [revenue; margin]) by reflexivity.
  assert (Htoken : has_token (map tokenize (map text [revenue; margin]))
                   = true) by (vm_compute; reflexivity).
  split; [exact Hids|]. split; [exact Hes|]. split; [exact Htoken|].
  destruct (index_chunks_stores embed_ok Samples.fresh [revenue; margin] true
              es Hids (or_introl eq_refl) Hes Hlen)
    as (Hstore & _ & _ & Hchunks & _ & Hok & _).
  split; [apply (Hok Htoken)|]. split; [exact Hstore|exact Hchunks].
Defined.

(** [index_chunks_stores] on a chunk without a word: the collection is
    written and the call raises. *)
Lemma index_chunks_stores_punctuation :
  snd (index_chunks embed_ok Samples.fresh [dashes] true)
  = Raise ZeroDivisionError
  /\ chroma_client (fst (index_chunks embed_ok Samples.fresh [dashes] true))
     !! name
     = Some (stored_rows [dashes] [[Float.of_Z 5]])
  /\ snd (index_chunks embed_ok Samples.fresh [] true)
     = Raise ZeroDivisionError.
Proof. vm_compute. repeat split. Qed.

(** [persisted_index_reloads] in a new process on the store of the built
    index, with the service down and another chunk list passed. *)
Lemma persisted_index_reloads_witness :
  let es := [[Float.of_Z 39]; [Float.of_Z 29]] in
  has_token (map tokenize (map text [revenue; margin])) = true
  /\ ascending_ids [revenue; margin]
  /\ get_embeddings embed_ok (map text [revenue; margin]) = Ok es
  /\ chunks (fst (index_chunks embed_down restarted [airport] false))
     = map forget_source [revenue; margin]
  /\ bm25 (fst (index_chunks embed_down restarted [airport] false))
     = bm25 built.
Proof.
  intros es.
  assert (Htoken : has_token (map tokenize (map text [revenue; margin]))
                   = true) by (vm_compute; reflexivity).
  assert (Hasc : ascending_ids [revenue; margin]).
  { repeat constructor. }
  assert (Hes : get_embeddings embed_ok (map text [revenue; margin]) = Ok es)
    by (vm_compute; reflexivity).
  assert (Hlen : length es = length [revenue; margin]) by reflexivity.
  split; [exact Htoken|]. split; [exact Hasc|]. split; [exact Hes|].
  destruct (persisted_index_reloads embed_ok embed_down Samples.fresh
              [revenue; margin] [airport] es Htoken Hasc Hes Hlen)
    as (_ & _ & Hchunks & Hbm25 & _).
  split; [exact Hchunks|exact Hbm25].
Defined.

(** [rebuild_loads_sorted] on a store that returns the rows of the
    self-test in the order 1, 0. *)
Lemma rebuild_loads_sorted_witness :
  collection shuffled = Some name
  /\ chroma_client shuffled !! name = Some shuffled_rows
  /\ shuffled_rows <> []
  /\ StronglySorted (fun a b => chunk_id a <= chunk_id b)
       (chunks (fst (_rebuild_bm25_from_collection shuffled)))
  /\ chroma_client (fst (_rebuild_bm25_from_collection shuffled))
     = chroma_client shuffled
  /\ snd (_rebuild_bm25_from_collection shuffled) = Ok tt.
Proof.
  assert (Hc : collection shuffled = Some name) by reflexivity.
  assert (Hs : chroma_client shuffled !! name = Some shuffled_rows)
    by (vm_compute; reflexivity).
  assert (Hne : shuffled_rows <> []) by discriminate.
  split; [exact Hc|]. split; [exact Hs|]. split; [exact Hne|].
  destruct (rebuild_loads_sorted shuffled name shuffled_rows Hc Hs Hne)
    as (_ & Hsorted & _ & Hstore & Hok & _).
  split; [exact Hsorted|]. split; [exact Hstore|].
  apply Hok. vm_compute. reflexivity.
Defined.

(** [search_bm25_hits] on the built index. *)
Lemma search_bm25_hits_witness :
  let hits :=
    [(hit_of_chunk margin, Float.of_Z 1);
     (hit_of_chunk revenue, Float.of_Z 1)] in
  search_bm25 get_scores argsort built "revenue margin" 10 = Ok hits
  /\ Forall (fun h => (Float.zero <? snd h)%float = true
                      /\ exists c, c ∈ chunks built
                                   /\ fst h = hit_of_chunk c) hits
  /\ Z.of_nat (length hits) <= 10.
Proof.
  intros hits.
  assert (Hk : 0 <= 10) by lia.
  assert (Hs : search_bm25 get_scores argsort built "revenue margin" 10
               = Ok hits) by (vm_compute; reflexivity).
  split; [exact Hs|].
  apply (search_bm25_hits get_scores argsort built "revenue margin" 10 hits
           Hk Hs).
Defined.

(** [fusion_length] on the rankings of the example, cut at 3 of the 4
    identifiers. *)
Lemma fusion_length_witness :
  length (rrf_fusion vector_ranking lexical_ranking 3
                     (Float.ratio 6 10) (Float.ratio 4 10))
  = 3%nat.
Proof.
  assert (Hk : 0 <= 3) by lia.
  rewrite (fusion_length vector_ranking lexical_ranking 3
             (Float.ratio 6 10) (Float.ratio 4 10) Hk).
  vm_compute. reflexivity.
Defined.

(** [clear_index_resets] on the built index: the collection is gone,
    another collection name is not touched. *)
Lemma clear_index_resets_witness :
  "archive" <> collection_name built
  /\ chroma_client (clear_index built) !! name = None
  /\ chroma_client (clear_index built) !! "archive"
     = chroma_client built !! "archive"
  /\ search_bm25 get_scores argsort (clear_index built) "revenue" 10 = Ok [].
Proof.
  assert (Hother : "archive" <> collection_name built)
    by (vm_compute; discriminate).
  split; [exact Hother|].
  destruct (clear_index_resets get_scores argsort embed_ok built "revenue" 10
              [airport]) as (Hgone & Hkept & Hsearch & _).
  split; [exact Hgone|]. split; [apply (Hkept "archive" Hother)|exact Hsearch].
Defined.

(** [tokenize_tokens] on a token of the second chunk of the self-test. *)
Lemma tokenize_tokens_witness :
  "ebitda" ∈ tokenize (text margin)
  /\ Forall (fun c => Py.is_word c = true /\ Py.is_upper c = false)
            (Py.chars "ebitda")
  /\ tokenize (Py.lower (text margin)) = tokenize (text margin).
Proof.
  assert (Ht : "ebitda" ∈ tokenize (text margin)).
  { apply list_elem_of_In. vm_compute. left. reflexivity. }
  split; [exact Ht|].
  destruct (tokenize_tokens (text margin) "ebitda" Ht) as (_ & Hc & Hl).
  split; [exact Hc|exact Hl].
Defined.

(** [fusion_single_ranking] on the lexical ranking of the example alone,
    with the weight 0.4. *)
Lemma fusion_single_ranking_witness :
  NoDup (ids lexical_ranking)
  /\ weakly_decreasing
       (single_scores (Float.ratio 4 10) (length lexical_ranking)) = true
  /\ map res_chunk_id
         (rrf_fusion [] lexical_ranking 2
                     (Float.ratio 6 10) (Float.ratio 4 10))
     = slice_to 2 (ids lexical_ranking).
Proof.
  assert (Hd : NoDup (ids lexical_ranking)).
  { apply NoDup_ListNoDup. repeat constructor; simpl; intuition discriminate. }
  assert (Hw : weakly_decreasing
                 (single_scores (Float.ratio 4 10)
                                (length lexical_ranking)) = true)
    by (vm_compute; reflexivity).
  split; [exact Hd|]. split; [exact Hw|].
  destruct (fusion_single_ranking lexical_ranking 2
              (Float.ratio 6 10) (Float.ratio 4 10) Hd) as [Hlex _].
  apply Hlex, Hw.
Defined.

(** [upload_single_file] on the chunk of the first file uploaded alone. *)
Lemma upload_single_file_witness :
  let c := {| chunk_id := 0; page_num := 1;
              text := "Revenue increased by twenty percent year over year in the first half.";
              token_count := 12; citation := "[p1:c0]";
              source_file := None |} in
  c ∈ App.upload_chunks None [first_file]
  /\ citation c = page_citation (page_num c) (chunk_id c).
Proof.
  intros c.
  assert (Hc : c ∈ App.upload_chunks None [first_file]).
  { apply list_elem_of_In. vm_compute. left. reflexivity. }
  split; [exact Hc|].
  destruct (upload_single_file None (fst first_file) (snd first_file))
    as [_ Hcit].
  apply (Hcit c Hc).
Defined.

(** [upload_merged_citations] on the chunk of the second of two files. *)
Lemma upload_merged_citations_witness :
  let c := {| chunk_id := 1; page_num := 1;
              text := "The airport business saw strong passenger growth during the quarter.";
              token_count := 10;
              citation := "[quarterly_results_pr...:p1:c0]";
              source_file := Some "quarterly_results_presentation.pdf" |} in
  (1 < length [first_file; second_file])%nat
  /\ c ∈ App.upload_chunks None [first_file; second_file]
  /\ exists filename pages_data c0,
       (filename, pages_data) ∈ [first_file; second_file]
       /\ c0 ∈ create_chunks None pages_data 500 100
       /\ citation c = App.file_citation (App.short_name filename) c0.
Proof.
  intros c.
  assert (Hn : (1 < length [first_file; second_file])%nat) by (simpl; lia).
  assert (Hc : c ∈ App.upload_chunks None [first_file; second_file]).
  { apply list_elem_of_In. vm_compute. right. left. reflexivity. }
  split; [exact Hn|]. split; [exact Hc|].
  destruct (upload_merged_citations None [first_file; second_file] c Hn Hc)
    as (filename & pages_data & c0 & Hf & Hc0 & Hcit & _).
  exists filename, pages_data, c0.
  split; [exact Hf|]. split; [exact Hc0|exact Hcit].
Defined.

(** [short_name_length] on the name of the second file, of 34
    characters. *)
Lemma short_name_length_witness :
  20 < Py.len (fst second_file)
  /\ App.short_name (fst second_file)
     = (Py.take 20 (fst second_file) ++ "...")%string
  /\ Py.len (App.short_name (fst second_file)) = 23.
Proof.
  assert (Hlong : 20 < Py.len (fst second_file)) by (vm_compute; reflexivity).
  split; [exact Hlong|].
  destruct (short_name_length (fst second_file)) as (_ & Hcut & _).
  destruct (Hcut Hlong) as (Hname & _ & Hlen).
  split; [exact Hname|exact Hlen].
Defined.

(** [ask_without_chunks] on the retriever left with an empty collection:
    whatever the model writes, the answer is the refusal. *)
Lemma ask_without_chunks_witness :
  search_hybrid embed_ok distance get_scores argsort emptied
                "How did revenue develop?" 5
                Agent.default_vector_weight Agent.default_bm25_weight
  = Ok []
  /\ snd (Agent.ask chat_ok embed_ok distance get_scores argsort agent
                    emptied "How did revenue develop?" 5)
     = Ok ("**Answer:** Not found in the document.", []).
Proof.
  assert (Hr : Agent.reformulate_query chat_ok agent
                 "How did revenue develop?"
               = Ok "How did revenue develop?") by reflexivity.
  assert (Hs : search_hybrid embed_ok distance get_scores argsort emptied
                 "How did revenue develop?" 5
                 Agent.default_vector_weight Agent.default_bm25_weight
               = Ok []) by (vm_compute; reflexivity).
  assert (Hc : chat_ok (Agent.model agent)
                 (Agent.answer_messages
                    "How did revenue develop?"
                    "No relevant context found in the document.")
                 (Agent.temperature agent) 1000
               = Ok "  Revenue grew by 20%.  ") by reflexivity.
  split; [exact Hs|].
  apply (ask_without_chunks chat_ok embed_ok distance get_scores argsort
           agent emptied "How did revenue develop?"
           "How did revenue develop?" "  Revenue grew by 20%.  " 5
           Hr Hs Hc).
Defined.

(** [ask_failure_keeps_history] on a retriever that has no collection
    yet: the question fails and the agent is unchanged. *)
Lemma ask_failure_keeps_history_witness :
  snd (Agent.ask chat_ok embed_ok distance get_scores argsort agent
                 Samples.fresh "How did revenue develop?" 5)
  = Raise AttributeError
  /\ fst (Agent.ask chat_ok embed_ok distance get_scores argsort agent
                    Samples.fresh "How did revenue develop?" 5)
     = agent.
Proof.
  assert (Hf : snd (Agent.ask chat_ok embed_ok distance get_scores argsort
                      agent Samples.fresh "How did revenue develop?" 5)
               = Raise AttributeError) by (vm_compute; reflexivity).
  split; [exact Hf|].
  apply (ask_failure_keeps_history chat_ok embed_ok distance get_scores
           argsort agent Samples.fresh "How did revenue develop?" 5
           AttributeError Hf).
Defined.

(** [ask_history_bound] on a first question to the built index. *)
Lemma ask_history_bound_witness :
  let asked :=
    Agent.ask chat_ok embed_ok distance get_scores argsort agent built
              "How did revenue develop?" 5 in
  0 <= Agent.max_history_turns agent
  /\ (exists answer retrieved,
         snd asked = Ok (answer, retrieved)
         /\ last (Agent.conversation_history (fst asked))
            = Some {| Agent.user := "How did revenue develop?";
                      Agent.assistant := answer;
                      Agent.retrieved_chunks := retrieved |})
  /\ Z.of_nat (length (Agent.conversation_history (fst asked))) <= 10.
Proof.
  intros asked.
  assert (Hm : 0 <= Agent.max_history_turns agent)
    by (vm_compute; discriminate).
  split; [exact Hm|].
  destruct (snd asked) as [[answer retrieved]|e] eqn:Hs;
    [|vm_compute in Hs; discriminate].
  destruct (ask_history_bound chat_ok embed_ok distance get_scores argsort
              agent built "How did revenue develop?" answer 5 retrieved
              Hm Hs) as (Hlast & Hbound & _).
  split.
  - exists answer, retrieved. split; [reflexivity|exact Hlast].
  - apply Hbound. vm_compute. reflexivity.
Defined.

(** [check_existing_index_loads] on the store of the built index. *)
Lemma check_existing_index_loads_witness :
  let found :=
    Main.check_existing_index (Main.init (chroma_client built) 500 100) in
  has_token (map tokenize (map text [revenue; margin])) = true
  /\ snd found = true
  /\ chunks (Main.retriever (fst found)) = [revenue; margin].
Proof.
  intros found.
  assert (Htoken : has_token (map tokenize (map text [revenue; margin]))
                   = true) by (vm_compute; reflexivity).
  split; [exact Htoken|].
  pose proof (check_existing_index_loads (chroma_client built) 500 100)
    as Hloads.
  assert (Hstore : chroma_client built !! "document_chunks"
                   = Some (stored_rows [revenue; margin]
                             [[Float.of_Z 39]; [Float.of_Z 29]]))
    by (vm_compute; reflexivity).
  rewrite Hstore in Hloads. cbn [stored_rows] in Hloads.
  destruct Hloads as (_ & Hchunks & _ & _ & Hok & _).
  split.
  - apply Hok. vm_compute. reflexivity.
  - unfold found. rewrite Hchunks. vm_compute. reflexivity.
Defined.


End FurtherExamples.
